(** * Suna realtime service: connection registry, channel index, broadcast
    engine, liveness supervisor and history replay.

    Shallow embedding of [services/realtime/main.py].  The asyncio
    coroutines of [ConnectionManager] and [WebSocketConnection] become
    functions in a state-and-exception monad over the manager's three
    dictionaries and the Redis store.  Every coroutine is run to completion
    at one instant of the clock, given as [now] (microseconds); the value of
    [uuid.uuid4()] is an argument of the operation that draws it. *)

From Stdlib Require Import ZArith QArith Ascii.
From stdpp Require Import base gmap sets list strings.

Local Open Scope string_scope.
Local Open Scope Z_scope.

(** ** Values exchanged with clients *)

Set Warnings "-register-all,-clear-no-such-hyp".

(** What [json.loads] returns and [json.dumps] accepts.  A Python [dict]
    keeps insertion order, hence the association list; its keys are
    distinct.  A float is given by its value. *)
Inductive json : Type :=
| JNull
| JBool (b : bool)
| JInt (z : Z)
| JFloat (q : Q)
| JStr (s : string)
| JList (l : list json)
| JDict (d : list (string * json)).

Abbreviation pydict := (list (string * json)).

(** [bool(v)] *)
Definition truthy (v : json) : bool :=
  match v with
  | JNull => false
  | JBool b => b
  | JInt z => negb (z =? 0)%Z
  | JFloat q => negb (Qnum q =? 0)%Z
  | JStr s => negb (String.eqb s EmptyString)
  | JList l => match l with [] => false | _ => true end
  | JDict d => match d with [] => false | _ => true end
  end.

(** [d.get(k)] *)
Fixpoint dict_get (d : pydict) (k : string) : option json :=
  match d with
  | [] => None
  | (k', v) :: d' => if String.eqb k' k then Some v else dict_get d' k
  end.

(** [d.get(k, dflt)] and [d.get(k)], whose default is [None] *)
Definition dict_get_default (d : pydict) (k : string) (dflt : json) : json :=
  default dflt (dict_get d k).

Definition dict_get_none (d : pydict) (k : string) : json :=
  dict_get_default d k JNull.

(** [d[k] = v]: an existing key keeps its position. *)
Fixpoint dict_set (d : pydict) (k : string) (v : json) : pydict :=
  match d with
  | [] => [(k, v)]
  | (k', v') :: d' =>
      if String.eqb k' k then (k, v) :: d' else (k', v') :: dict_set d' k v
  end.

(** [x == s] for a string literal [s] *)
Definition json_is_str (x : json) (s : string) : bool :=
  match x with JStr s' => String.eqb s' s | _ => false end.

Fixpoint str_prefix (p s : string) : bool :=
  match p, s with
  | EmptyString, _ => true
  | String a p', String b s' => if Ascii.eqb a b then str_prefix p' s' else false
  | String _ _, EmptyString => false
  end.

(** [p in s] on strings *)
Fixpoint str_contains (p s : string) : bool :=
  str_prefix p s ||
  match s with
  | EmptyString => false
  | String _ s' => str_contains p s'
  end.

(** ** Exceptions *)

Inductive exn : Type :=
| HTTPException (status_code : Z)
| ValueError (msg : string)
| TypeError
| AttributeError
| ValidationError
| JSONDecodeError
| TransportError
| RedisError
| WebSocketDisconnect.

Inductive outcome (A : Type) : Type :=
| Returned (a : A)
| Raised (e : exn).
Arguments Returned {A} a.
Arguments Raised {A} e.

(** ** Configuration ([class Config]) *)

Record Config : Type := {
  MAX_CONNECTIONS_PER_USER : Z;
  MAX_MESSAGE_SIZE : Z;
  HEARTBEAT_INTERVAL : Z;
  CONNECTION_TIMEOUT : Z;
  MESSAGE_RETENTION_DAYS : Z;
  MAX_MESSAGES_PER_CHANNEL : Z
}.

(** The values taken when the environment sets none. *)
Definition default_config : Config := {|
  MAX_CONNECTIONS_PER_USER := 10;
  MAX_MESSAGE_SIZE := 64 * 1024;
  HEARTBEAT_INTERVAL := 30;
  CONNECTION_TIMEOUT := 300;
  MESSAGE_RETENTION_DAYS := 7;
  MAX_MESSAGES_PER_CHANNEL := 1000
|}.

(** ** Library functions the service calls

    [json.dumps(_, default=str)], [json.loads], [datetime.isoformat],
    [str] of an exception and the text an f-string gives a value are taken
    as they are, without assumptions. *)
Class PyRuntime : Type := {
  json_dumps : json → string;
  json_loads : string → option json;
  isoformat : Z → string;
  exn_str : exn → string;
  json_str : json → string
}.

(** ** The Redis store

    One map per key family: the keys
    [prefix:connection:ID], [prefix:channel:C:subscribers],
    [prefix:channel:C:messages] and [prefix:channel:C:last_activity] are
    pairwise distinct and injective in [ID] and [C], so each family is
    indexed by [ID] or [C].  A missing key reads as the empty list or set,
    as in Redis.  Time-to-live values are recorded in seconds; the store's
    own expiry timer is not run, but a time-to-live that is not positive
    takes effect at once: [EXPIRE] deletes the key and [SET ... EX] is
    refused.  [redis_up = false] makes every command raise. *)
Record Redis : Type := {
  redis_up : bool;
  redis_connection : gmap string (list (string * string));
  redis_connection_ttl : gmap string Z;
  redis_subscribers : gmap string (gset string);
  redis_messages : gmap string (list string);
  redis_messages_ttl : gmap string Z;
  redis_last_activity : gmap string (string * Z)
}.

Definition set_redis_connection f (r : Redis) : Redis :=
  {| redis_up := redis_up r;
     redis_connection := f (redis_connection r);
     redis_connection_ttl := redis_connection_ttl r;
     redis_subscribers := redis_subscribers r;
     redis_messages := redis_messages r;
     redis_messages_ttl := redis_messages_ttl r;
     redis_last_activity := redis_last_activity r |}.

Definition set_redis_connection_ttl f (r : Redis) : Redis :=
  {| redis_up := redis_up r;
     redis_connection := redis_connection r;
     redis_connection_ttl := f (redis_connection_ttl r);
     redis_subscribers := redis_subscribers r;
     redis_messages := redis_messages r;
     redis_messages_ttl := redis_messages_ttl r;
     redis_last_activity := redis_last_activity r |}.

Definition set_redis_subscribers f (r : Redis) : Redis :=
  {| redis_up := redis_up r;
     redis_connection := redis_connection r;
     redis_connection_ttl := redis_connection_ttl r;
     redis_subscribers := f (redis_subscribers r);
     redis_messages := redis_messages r;
     redis_messages_ttl := redis_messages_ttl r;
     redis_last_activity := redis_last_activity r |}.

Definition set_redis_messages f (r : Redis) : Redis :=
  {| redis_up := redis_up r;
     redis_connection := redis_connection r;
     redis_connection_ttl := redis_connection_ttl r;
     redis_subscribers := redis_subscribers r;
     redis_messages := f (redis_messages r);
     redis_messages_ttl := redis_messages_ttl r;
     redis_last_activity := redis_last_activity r |}.

Definition set_redis_messages_ttl f (r : Redis) : Redis :=
  {| redis_up := redis_up r;
     redis_connection := redis_connection r;
     redis_connection_ttl := redis_connection_ttl r;
     redis_subscribers := redis_subscribers r;
     redis_messages := redis_messages r;
     redis_messages_ttl := f (redis_messages_ttl r);
     redis_last_activity := redis_last_activity r |}.

Definition set_redis_last_activity f (r : Redis) : Redis :=
  {| redis_up := redis_up r;
     redis_connection := redis_connection r;
     redis_connection_ttl := redis_connection_ttl r;
     redis_subscribers := redis_subscribers r;
     redis_messages := redis_messages r;
     redis_messages_ttl := redis_messages_ttl r;
     redis_last_activity := f (redis_last_activity r) |}.

Definition set_redis_up (b : bool) (r : Redis) : Redis :=
  {| redis_up := b;
     redis_connection := redis_connection r;
     redis_connection_ttl := redis_connection_ttl r;
     redis_subscribers := redis_subscribers r;
     redis_messages := redis_messages r;
     redis_messages_ttl := redis_messages_ttl r;
     redis_last_activity := redis_last_activity r |}.

Definition redis_empty : Redis := {|
  redis_up := true;
  redis_connection := ∅;
  redis_connection_ttl := ∅;
  redis_subscribers := ∅;
  redis_messages := ∅;
  redis_messages_ttl := ∅;
  redis_last_activity := ∅
|}.

(** Redis list indices: a negative index counts from the tail. *)
Definition redis_index (len i : Z) : Z := if (i <? 0)%Z then len + i else i.

(** The elements at positions [start..stop], both inclusive, as [LRANGE]
    returns them and [LTRIM] keeps them. *)
Definition redis_slice {A} (l : list A) (start stop : Z) : list A :=
  let len := Z.of_nat (length l) in
  let s := Z.max 0 (redis_index len start) in
  let e := Z.min (len - 1) (redis_index len stop) in
  if (e <? s)%Z then [] else take (Z.to_nat (e - s + 1)) (drop (Z.to_nat s) l).

(** ** Transport and connection objects *)

(** The Starlette [WebSocket]: whether it still accepts [accept] and
    [send_text], the texts sent on it so far (oldest first), and the client
    data read once when the connection object is built. *)
Record WebSocket : Type := {
  ws_open : bool;
  ws_sent : list string;
  ws_user_agent : option string;
  ws_client_host : option string
}.

Record WebSocketConnection : Type := {
  connection_id : string;
  websocket : WebSocket;
  user_id : option string;
  connected_at : Z;
  last_seen : Z;
  subscribed_channels : gset string;
  channel_configs : gmap string (option pydict);
  user_agent : option string;
  ip_address : option string
}.

Definition set_websocket (w : WebSocket) (c : WebSocketConnection) :=
  {| connection_id := connection_id c; websocket := w; user_id := user_id c;
     connected_at := connected_at c; last_seen := last_seen c;
     subscribed_channels := subscribed_channels c;
     channel_configs := channel_configs c;
     user_agent := user_agent c; ip_address := ip_address c |}.

Definition set_last_seen (t : Z) (c : WebSocketConnection) :=
  {| connection_id := connection_id c; websocket := websocket c;
     user_id := user_id c;
     connected_at := connected_at c; last_seen := t;
     subscribed_channels := subscribed_channels c;
     channel_configs := channel_configs c;
     user_agent := user_agent c; ip_address := ip_address c |}.

Definition set_subscription (s : gset string) (k : gmap string (option pydict))
    (c : WebSocketConnection) :=
  {| connection_id := connection_id c; websocket := websocket c;
     user_id := user_id c;
     connected_at := connected_at c; last_seen := last_seen c;
     subscribed_channels := s;
     channel_configs := k;
     user_agent := user_agent c; ip_address := ip_address c |}.

(** ** The manager *)

Record ConnectionManager : Type := {
  active_connections : gmap string WebSocketConnection;
  user_connections : gmap string (gset string);
  channel_subscriptions : gmap string (gset string);
  redis : Redis
}.

Definition set_active f (m : ConnectionManager) : ConnectionManager :=
  {| active_connections := f (active_connections m);
     user_connections := user_connections m;
     channel_subscriptions := channel_subscriptions m;
     redis := redis m |}.

Definition set_users f (m : ConnectionManager) : ConnectionManager :=
  {| active_connections := active_connections m;
     user_connections := f (user_connections m);
     channel_subscriptions := channel_subscriptions m;
     redis := redis m |}.

Definition set_channels f (m : ConnectionManager) : ConnectionManager :=
  {| active_connections := active_connections m;
     user_connections := user_connections m;
     channel_subscriptions := f (channel_subscriptions m);
     redis := redis m |}.

Definition set_redis f (m : ConnectionManager) : ConnectionManager :=
  {| active_connections := active_connections m;
     user_connections := user_connections m;
     channel_subscriptions := channel_subscriptions m;
     redis := f (redis m) |}.

(** [ConnectionManager()] after [initialize] *)
Definition manager_init : ConnectionManager := {|
  active_connections := ∅;
  user_connections := ∅;
  channel_subscriptions := ∅;
  redis := redis_empty
|}.

(** [d.get(k, set())] *)
Definition get_set (d : gmap string (gset string)) (k : string) : gset string :=
  default ∅ (d !! k).

(** ** The monad of coroutines: the manager's state is kept when an
    exception is raised, as the dictionaries are mutated in place. *)
Definition M (A : Type) : Type := ConnectionManager → ConnectionManager * outcome A.

Definition ret {A} (a : A) : M A := fun m => (m, Returned a).
Definition raise {A} (e : exn) : M A := fun m => (m, Raised e).
Definition bind {A B} (c : M A) (k : A → M B) : M B :=
  fun m => match c m with
           | (m', Returned a) => k a m'
           | (m', Raised e) => (m', Raised e)
           end.
Definition get : M ConnectionManager := fun m => (m, Returned m).
Definition modify (f : ConnectionManager → ConnectionManager) : M unit :=
  fun m => (f m, Returned tt).

(** [try: c except Exception as e: h e] *)
Definition try_except {A} (c : M A) (h : exn → M A) : M A :=
  fun m => match c m with
           | (m', Returned a) => (m', Returned a)
           | (m', Raised e) => h e m'
           end.

Notation "'let*' x := c 'in' k" := (bind c (fun x => k))
  (at level 10, x name, c at level 100, k at level 200).
Notation "c ;;; k" := (bind c (fun _ => k))
  (at level 100, right associativity).

(** [for x in xs: body x] *)
Fixpoint for_each {A} (xs : list A) (body : A → M unit) : M unit :=
  match xs with
  | [] => ret tt
  | x :: xs' => body x ;;; for_each xs' body
  end.

(** A Redis command: raises when the store is unreachable. *)
Definition redis_command (f : Redis → Redis) : M unit :=
  fun m => if redis_up (redis m) then (set_redis f m, Returned tt)
           else (m, Raised RedisError).

Definition redis_query {A} (f : Redis → A) : M A :=
  fun m => if redis_up (redis m) then (m, Returned (f (redis m)))
           else (m, Raised RedisError).

(** ** Pydantic models *)

Record ChannelSubscription : Type := {
  sub_channel : string;
  sub_event : option string;
  sub_config : option pydict
}.

Record BroadcastMessage : Type := {
  bm_channel : string;
  bm_event : string;
  bm_payload : pydict;
  bm_exclude_user_ids : option (list string);
  bm_include_user_ids : option (list string);
  bm_persist : bool
}.

(** The dictionary [broadcast_to_channel] returns. *)
Record BroadcastResult : Type := {
  message_id : string;
  sent_count : Z;
  failed_count : Z
}.

(** A user id that passes [if user_id:] *)
Definition truthy_user (u : option string) : option string :=
  match u with
  | Some s => if String.eqb s EmptyString then None else Some s
  | None => None
  end.

(** [if xs:] on an [Optional[List[str]]]: the list when it is neither
    [None] nor empty. *)
Definition truthy_list (xs : option (list string)) : option (list string) :=
  match xs with
  | Some (x :: l) => Some (x :: l)
  | _ => None
  end.

Section Manager.
Context {RT : PyRuntime} (cfg : Config).

(** *** Frames the server sends (the dictionary literals of the source) *)

Definition connection_ack (cid : string) (now : Z) : json :=
  JDict [("type", JStr "connection_ack"); ("connection_id", JStr cid);
         ("timestamp", JStr (isoformat now))].

Definition subscription_ack (channel : string) (now : Z) : json :=
  JDict [("type", JStr "subscription_ack"); ("channel", JStr channel);
         ("timestamp", JStr (isoformat now))].

Definition unsubscription_ack (channel : string) (now : Z) : json :=
  JDict [("type", JStr "unsubscription_ack"); ("channel", JStr channel);
         ("timestamp", JStr (isoformat now))].

Definition ws_message (message : BroadcastMessage) (message_id : string) (now : Z) : json :=
  JDict [("type", JStr "broadcast"); ("channel", JStr (bm_channel message));
         ("event", JStr (bm_event message)); ("payload", JDict (bm_payload message));
         ("message_id", JStr message_id); ("timestamp", JStr (isoformat now))].

Definition history_end (channel : string) (now : Z) : json :=
  JDict [("type", JStr "history_end"); ("channel", JStr channel);
         ("timestamp", JStr (isoformat now))].

Definition heartbeat (now : Z) : json :=
  JDict [("type", JStr "heartbeat"); ("timestamp", JStr (isoformat now))].

Definition pong (now : Z) : json :=
  JDict [("type", JStr "pong"); ("timestamp", JStr (isoformat now))].

Definition error_frame (e : exn) (now : Z) : json :=
  JDict [("type", JStr "error"); ("message", JStr (exn_str e));
         ("timestamp", JStr (isoformat now))].

(** *** [WebSocketConnection] *)

(** [WebSocketConnection.__init__]; [None] when [websocket.client] is
    [None], where reading [.host] raises. *)
Definition new_connection (now : Z) (cid : string) (ws : WebSocket)
    (uid : option string) : option WebSocketConnection :=
  match ws_client_host ws with
  | None => None
  | Some host =>
      Some {| connection_id := cid; websocket := ws; user_id := uid;
              connected_at := now; last_seen := now;
              subscribed_channels := ∅; channel_configs := ∅;
              user_agent := ws_user_agent ws; ip_address := Some host |}
  end.

(** [websocket.send_text] *)
Definition send_text (ws : WebSocket) (data : string) : option WebSocket :=
  if ws_open ws
  then Some {| ws_open := true; ws_sent := (ws_sent ws ++ [data])%list;
               ws_user_agent := ws_user_agent ws;
               ws_client_host := ws_client_host ws |}
  else None.

(** [WebSocketConnection.send_message] on the connection object *)
Definition conn_send_message (now : Z) (message : json)
    (c : WebSocketConnection) : option WebSocketConnection :=
  match send_text (websocket c) (json_dumps message) with
  | Some ws => Some (set_last_seen now (set_websocket ws c))
  | None => None
  end.

(** [send_message] on the object registered under [cid].  Every caller
    has looked the object up in [active_connections] before. *)
Definition send_message (now : Z) (cid : string) (message : json) : M unit :=
  fun m =>
    match active_connections m !! cid with
    | Some c =>
        match conn_send_message now message c with
        | Some c' => (set_active (<[cid := c']>) m, Returned tt)
        | None => (m, Raised TransportError)
        end
    | None => (m, Raised TransportError)
    end.

(** *** Redis bookkeeping *)

Definition connection_data (c : WebSocketConnection) : list (string * string) :=
  [("connection_id", connection_id c);
   ("user_id", default EmptyString (user_id c));
   ("connected_at", isoformat (connected_at c));
   ("last_seen", isoformat (last_seen c));
   ("user_agent", default EmptyString (user_agent c));
   ("ip_address", default EmptyString (ip_address c))].

(** [EXPIRE key ttl] sets the time-to-live of a key that exists; with a
    [ttl] that is not positive it deletes the key instead. *)
Definition redis_expire_connection (cid : string) (ttl : Z) (r : Redis) : Redis :=
  match redis_connection r !! cid with
  | Some _ =>
      if (0 <? ttl)%Z then set_redis_connection_ttl (<[cid := ttl]>) r
      else set_redis_connection_ttl (delete cid) (set_redis_connection (delete cid) r)
  | None => r
  end.

Definition redis_expire_messages (channel : string) (ttl : Z) (r : Redis) : Redis :=
  match redis_messages r !! channel with
  | Some (_ :: _) =>
      if (0 <? ttl)%Z then set_redis_messages_ttl (<[channel := ttl]>) r
      else set_redis_messages_ttl (delete channel) (set_redis_messages (delete channel) r)
  | _ => r
  end.

Definition _store_connection_info (c : WebSocketConnection) : M unit :=
  redis_command (set_redis_connection (<[connection_id c := connection_data c]>)) ;;;
  redis_command (redis_expire_connection (connection_id c) (CONNECTION_TIMEOUT cfg)).

Definition _remove_connection_info (cid : string) : M unit :=
  redis_command (fun r => set_redis_connection_ttl (delete cid)
                            (set_redis_connection (delete cid) r)).

(** [SADD] and [SREM] on the subscriber set of a channel *)
Definition redis_sadd (channel cid : string) (r : Redis) : Redis :=
  set_redis_subscribers
    (fun s => <[channel := {[cid]} ∪ get_set s channel]> s) r.

Definition redis_srem (channel cid : string) (r : Redis) : Redis :=
  set_redis_subscribers
    (fun s => <[channel := get_set s channel ∖ {[cid]}]> s) r.

(** [LPUSH]: the new element becomes the head. *)
Definition redis_lpush (channel : string) (x : string) (r : Redis) : Redis :=
  set_redis_messages
    (fun l => <[channel := x :: default [] (l !! channel)]> l) r.

Definition redis_ltrim (channel : string) (start stop : Z) (r : Redis) : Redis :=
  set_redis_messages
    (fun l => <[channel := redis_slice (default [] (l !! channel)) start stop]> l) r.

Definition redis_lrange (channel : string) (start stop : Z) (r : Redis) : list string :=
  redis_slice (default [] (redis_messages r !! channel)) start stop.

Definition retention_seconds : Z := MESSAGE_RETENTION_DAYS cfg * 24 * 3600.

(** [SET key value EX ttl] on the last-activity key of a channel.  The
    server refuses a [ttl] that is not positive and the client raises
    [ResponseError], which is a [RedisError] as the error of an
    unreachable store is; nothing is written then. *)
Definition redis_set_ex (channel value : string) (ttl : Z) : M unit :=
  if (0 <? ttl)%Z
  then redis_command (set_redis_last_activity (<[channel := (value, ttl)]>))
  else raise RedisError.

(** [_persist_message] *)
Definition _persist_message (now : Z) (channel : string) (message : json) : M unit :=
  redis_command (redis_lpush channel (json_dumps message)) ;;;
  redis_command (redis_ltrim channel 0 (MAX_MESSAGES_PER_CHANNEL cfg - 1)) ;;;
  redis_command (redis_expire_messages channel retention_seconds) ;;;
  redis_set_ex channel (isoformat now) retention_seconds.

(** *** Channel index *)

(** The object registered under [cid], changed in place. *)
Definition update_connection (cid : string)
    (f : WebSocketConnection → WebSocketConnection) : M unit :=
  modify (set_active (fun a => match a !! cid with
                               | Some c => <[cid := f c]> a
                               | None => a
                               end)).

(** [s.discard(x)] on the set stored under [k], the key deleted when the
    set is left empty; nothing when [k] is not a key. *)
Definition discard_from (k x : string) (d : gmap string (gset string)) :
    gmap string (gset string) :=
  match d !! k with
  | Some s =>
      let s' := s ∖ {[x]} in
      if decide (s' = ∅) then delete k d else <[k := s']> d
  | None => d
  end.

(** [d[k].add(x)], the set created when [k] is not a key *)
Definition add_to (k x : string) (d : gmap string (gset string)) :
    gmap string (gset string) :=
  <[k := {[x]} ∪ get_set d k]> d.

(** [_send_channel_history] *)
Definition _send_channel_history (now : Z) (cid channel : string) : M unit :=
  try_except
    (let* messages := redis_query (redis_lrange channel 0 49) in
     for_each (reverse messages) (fun message_data =>
       try_except
         (match json_loads message_data with
          | None => raise JSONDecodeError
          | Some (JDict d) =>
              send_message now cid (JDict (dict_set d "type" (JStr "history")))
          | Some _ => raise TypeError
          end)
         (fun _ => ret tt)) ;;;
     send_message now cid (history_end channel now))
    (fun _ => ret tt).

(** [subscribe_channel] *)
Definition subscribe_channel (now : Z) (cid : string)
    (subscription : ChannelSubscription) : M unit :=
  let* m := get in
  match active_connections m !! cid with
  | None => raise (ValueError "连接不存在")
  | Some _ =>
      let channel := sub_channel subscription in
      modify (set_channels (add_to channel cid)) ;;;
      update_connection cid (fun c =>
        set_subscription ({[channel]} ∪ subscribed_channels c)
          (<[channel := sub_config subscription]> (channel_configs c)) c) ;;;
      redis_command (redis_sadd channel cid) ;;;
      send_message now cid (subscription_ack channel now) ;;;
      match sub_config subscription with
      | None => raise AttributeError
      | Some config =>
          if truthy (dict_get_default config "send_history" (JBool false))
          then _send_channel_history now cid channel
          else ret tt
      end
  end.

(** [unsubscribe_channel] *)
Definition unsubscribe_channel (now : Z) (cid channel : string) : M unit :=
  let* m := get in
  match active_connections m !! cid with
  | None => ret tt
  | Some _ =>
      modify (set_channels (discard_from channel cid)) ;;;
      update_connection cid (fun c =>
        set_subscription (subscribed_channels c ∖ {[channel]})
          (delete channel (channel_configs c)) c) ;;;
      redis_command (redis_srem channel cid) ;;;
      send_message now cid (unsubscription_ack channel now)
  end.

(** *** Registry *)

(** [connect]; [cid] is the value of [uuid.uuid4()]. *)
Definition connect (now : Z) (ws : WebSocket) (uid : option string)
    (cid : string) : M string :=
  let* m := get in
  (match truthy_user uid with
   | Some u =>
       if (MAX_CONNECTIONS_PER_USER cfg <=? Z.of_nat (size (get_set (user_connections m) u)))%Z
       then raise (HTTPException 429)
       else ret tt
   | None => ret tt
   end) ;;;
  match new_connection now cid ws uid with
  | None => raise AttributeError
  | Some connection =>
      (if ws_open ws then ret tt else raise TransportError) ;;;
      modify (set_active (<[cid := connection]>)) ;;;
      (match truthy_user uid with
       | Some u => modify (set_users (add_to u cid))
       | None => ret tt
       end) ;;;
      _store_connection_info connection ;;;
      send_message now cid (connection_ack cid now) ;;;
      ret cid
  end.

(** [disconnect] *)
Definition disconnect (now : Z) (cid : string) : M unit :=
  let* m := get in
  match active_connections m !! cid with
  | None => ret tt
  | Some connection =>
      for_each (elements (subscribed_channels connection))
        (fun channel => unsubscribe_channel now cid channel) ;;;
      (match truthy_user (user_id connection) with
       | Some u => modify (set_users (discard_from u cid))
       | None => ret tt
       end) ;;;
      modify (set_active (delete cid)) ;;;
      _remove_connection_info cid
  end.

(** *** Broadcast engine *)

(** The union, over the listed users, of [f] applied to the user's
    connection ids: the loops filling [filtered_subscribers] and
    [excluded_connections]. *)
Definition union_over (users : list string) (f : gset string → gset string)
    (m : ConnectionManager) : gset string :=
  foldl (fun acc u => acc ∪ f (get_set (user_connections m) u)) ∅ users.

(** The subscribers left after the include and exclude filters. *)
Definition filter_subscribers (message : BroadcastMessage)
    (m : ConnectionManager) : gset string :=
  let subscribers := get_set (channel_subscriptions m) (bm_channel message) in
  let subscribers :=
    match truthy_list (bm_include_user_ids message) with
    | Some users => union_over users (fun conns => conns ∩ subscribers) m
    | None => subscribers
    end in
  match truthy_list (bm_exclude_user_ids message) with
  | Some users => subscribers ∖ union_over users (fun conns => conns) m
  | None => subscribers
  end.

(** The sending loop, carrying [(sent_count, failed_count)]. *)
Fixpoint deliver (now : Z) (message : json) (targets : list string)
    (counts : Z * Z) : M (Z * Z) :=
  match targets with
  | [] => ret counts
  | cid :: rest =>
      let* m := get in
      let* counts' :=
        match active_connections m !! cid with
        | Some _ =>
            try_except
              (send_message now cid message ;;; ret (fst counts + 1, snd counts))
              (fun _ => ret (fst counts, snd counts + 1))
        | None => ret counts
        end in
      deliver now message rest counts'
  end.

(** [broadcast_to_channel]; [mid] is the value of [uuid.uuid4()]. *)
Definition broadcast_to_channel (now : Z) (message : BroadcastMessage)
    (mid : string) : M BroadcastResult :=
  let channel := bm_channel message in
  let wsm := ws_message message mid now in
  (if bm_persist message then _persist_message now channel wsm else ret tt) ;;;
  let* m := get in
  let subscribers := filter_subscribers message m in
  let* counts := deliver now wsm (elements subscribers) (0, 0) in
  ret {| message_id := mid; sent_count := fst counts; failed_count := snd counts |}.

(** [send_to_user]: the same loop over the user's connections; the pair
    is [(sent_count, failed_count)]. *)
Definition send_to_user (now : Z) (uid : string) (message : pydict) : M (Z * Z) :=
  let* m := get in
  deliver now (JDict message) (elements (get_set (user_connections m) uid)) (0, 0).

(** *** Liveness supervisor *)

(** [(current_time - last_seen).total_seconds() > CONNECTION_TIMEOUT]:
    timestamps count microseconds, the timeout seconds. *)
Definition timed_out (current_time : Z) (c : WebSocketConnection) : bool :=
  (CONNECTION_TIMEOUT cfg * 1000000 <? current_time - last_seen c)%Z.

(** The first loop of a sweep: a heartbeat to every connection, collecting
    the ids to evict. *)
Fixpoint heartbeat_collect (now : Z) (cids : list string)
    (disconnected : list string) : M (list string) :=
  match cids with
  | [] => ret disconnected
  | cid :: rest =>
      let* disconnected' :=
        try_except
          (send_message now cid (heartbeat now) ;;;
           let* m := get in
           match active_connections m !! cid with
           | Some connection =>
               if timed_out now connection
               then ret (disconnected ++ [cid])%list
               else ret disconnected
           | None => ret disconnected
           end)
          (fun _ => ret (disconnected ++ [cid])%list) in
      heartbeat_collect now rest disconnected'
  end.

(** One turn of [_heartbeat_loop], up to the sleep. *)
Definition _heartbeat_loop_turn (now : Z) : M unit :=
  try_except
    (let* m := get in
     let* disconnected :=
       heartbeat_collect now (map fst (map_to_list (active_connections m))) [] in
     for_each disconnected (disconnect now))
    (fun _ => ret tt).

(** *** The per-connection loop of [websocket_endpoint] *)

(** What [websocket.receive_text()] gives: a text, as its UTF-8 bytes, or
    the close of the transport. *)
Inductive recv_event : Type :=
| RecvText (data : string)
| RecvDisconnect.

(** [WebSocketConnection.receive_message] *)
Definition receive_message (now : Z) (cid : string) (ev : recv_event) : M json :=
  match ev with
  | RecvDisconnect => raise WebSocketDisconnect
  | RecvText data =>
      if (MAX_MESSAGE_SIZE cfg <? Z.of_nat (String.length data))%Z
      then raise (ValueError "消息过大")
      else match json_loads data with
           | None => raise JSONDecodeError
           | Some message =>
               update_connection cid (set_last_seen now) ;;; ret message
           end
  end.

(** Field validation of the pydantic models: a [str] field takes a string,
    an [Optional] field also [None], a [Dict] field a dictionary. *)
Definition make_subscription (channel event config : json) : option ChannelSubscription :=
  match channel, event, config with
  | JStr c, JStr e, JDict d => Some {| sub_channel := c; sub_event := Some e; sub_config := Some d |}
  | JStr c, JStr e, JNull => Some {| sub_channel := c; sub_event := Some e; sub_config := None |}
  | JStr c, JNull, JDict d => Some {| sub_channel := c; sub_event := None; sub_config := Some d |}
  | JStr c, JNull, JNull => Some {| sub_channel := c; sub_event := None; sub_config := None |}
  | _, _, _ => None
  end.

Definition make_broadcast (channel event payload : json) : option BroadcastMessage :=
  match channel, event, payload with
  | JStr c, JStr e, JDict p =>
      Some {| bm_channel := c; bm_event := e; bm_payload := p;
              bm_exclude_user_ids := None; bm_include_user_ids := None;
              bm_persist := true |}
  | _, _, _ => None
  end.

(** [if not message or 'type' not in message: continue] followed by
    [message['type']]: the dictionary and its type, [None] for [continue],
    or the [TypeError] of a value that is no dictionary. *)
Definition message_type (message : json) : outcome (option (pydict * json)) :=
  if negb (truthy message) then Returned None
  else match message with
       | JDict d =>
           match dict_get d "type" with
           | Some t => Returned (Some (d, t))
           | None => Returned None
           end
       | JList l =>
           if existsb (fun x => json_is_str x "type") l
           then Raised TypeError else Returned None
       | JStr s =>
           if str_contains "type" s then Raised TypeError else Returned None
       | _ => Raised TypeError
       end.

(** [unsubscribe_channel] as the loop calls it, on a channel that has not
    been validated: a value that is no string is a key of no dictionary
    and member of no set, and a list or dictionary cannot be hashed. *)
Definition unsubscribe_channel_any (now : Z) (cid : string) (channel : json) : M unit :=
  match channel with
  | JStr c => unsubscribe_channel now cid c
  | _ =>
      let* m := get in
      match active_connections m !! cid with
      | None => ret tt
      | Some _ =>
          match channel with
          | JList _ | JDict _ => raise TypeError
          | _ =>
              redis_command (redis_srem (json_str channel) cid) ;;;
              send_message now cid
                (JDict [("type", JStr "unsubscription_ack"); ("channel", channel);
                        ("timestamp", JStr (isoformat now))])
          end
      end
  end.

(** The body of the [try] in the loop, after the frame is received;
    [uid] is the endpoint's [user_id] and [mid] the message id a broadcast
    would draw. *)
Definition handle_message (now : Z) (cid : string) (uid : option string)
    (mid : string) (message : json) : M unit :=
  match message_type message with
  | Raised e => raise e
  | Returned None => ret tt
  | Returned (Some (d, t)) =>
      if json_is_str t "subscribe" then
        let channel := dict_get_none d "channel" in
        if truthy channel then
          match make_subscription channel (dict_get_default d "event" (JStr "*"))
                  (dict_get_default d "config" (JDict [])) with
          | Some subscription => subscribe_channel now cid subscription
          | None => raise ValidationError
          end
        else ret tt
      else if json_is_str t "unsubscribe" then
        let channel := dict_get_none d "channel" in
        if truthy channel then unsubscribe_channel_any now cid channel else ret tt
      else if json_is_str t "ping" then
        send_message now cid (pong now)
      else if json_is_str t "broadcast" then
        match truthy_user uid with
        | Some _ =>
            let channel := dict_get_none d "channel" in
            let event := dict_get_none d "event" in
            let payload := dict_get_none d "payload" in
            if truthy channel && truthy event && truthy payload then
              match make_broadcast channel event payload with
              | Some broadcast_msg =>
                  broadcast_to_channel now broadcast_msg mid ;;; ret tt
              | None => raise ValidationError
              end
            else ret tt
        | None => ret tt
        end
      else ret tt
  end.

Inductive loop_ctl : Type := Continue | Break.

(** One turn of the [while True] loop.  [Raised] is the exception of a
    failed error frame, which leaves the loop through the outer [try]. *)
Definition websocket_endpoint_iteration (now : Z) (cid : string) (uid : option string)
    (mid : string) (ev : recv_event) : M loop_ctl :=
  fun m =>
    match (let* message := receive_message now cid ev in
           handle_message now cid uid mid message) m with
    | (m', Returned _) => (m', Returned Continue)
    | (m', Raised WebSocketDisconnect) => (m', Returned Break)
    | (m', Raised e) =>
        (send_message now cid (error_frame e now) ;;; ret Continue) m'
    end.

(** One turn of the loop followed, when the loop is left, by the
    [finally] clause of the endpoint. *)
Definition websocket_endpoint_turn (now : Z) (cid : string) (uid : option string)
    (mid : string) (ev : recv_event) : M loop_ctl :=
  fun m =>
    match websocket_endpoint_iteration now cid uid mid ev m with
    | (m', Returned Continue) => (m', Returned Continue)
    | (m', _) => (disconnect now cid ;;; ret Break) m'
    end.

(** *** Runs of the service *)

(** The calls that reach the manager, and what the environment does to a
    transport or to the store.  The loop of a connection runs under the
    user id it was admitted with: that of the registered object or, for a
    socket whose connection is registered no more and whose loop still
    runs, the one given with the frame.  Of a turn of such a loop the run
    keeps what it does to the manager; what is sent on the detached
    transport is not part of the manager. *)
Inductive op : Type :=
| OpConnect (ws : WebSocket) (uid : option string) (cid : string)
| OpDisconnect (cid : string)
| OpSubscribe (cid : string) (subscription : ChannelSubscription)
| OpUnsubscribe (cid : string) (channel : string)
| OpBroadcast (message : BroadcastMessage) (mid : string)
| OpSendToUser (uid : string) (message : pydict)
| OpFrame (cid : string) (uid : option string) (mid : string) (ev : recv_event)
| OpHeartbeat
| OpTransport (cid : string) (is_open : bool)
| OpRedis (up : bool).

Definition set_transport (is_open : bool) (c : WebSocketConnection) : WebSocketConnection :=
  set_websocket {| ws_open := is_open; ws_sent := ws_sent (websocket c);
                   ws_user_agent := ws_user_agent (websocket c);
                   ws_client_host := ws_client_host (websocket c) |} c.

Definition apply_op (now : Z) (o : op) (m : ConnectionManager) : ConnectionManager :=
  match o with
  | OpConnect ws uid cid => fst (connect now ws uid cid m)
  | OpDisconnect cid => fst (disconnect now cid m)
  | OpSubscribe cid subscription => fst (subscribe_channel now cid subscription m)
  | OpUnsubscribe cid channel => fst (unsubscribe_channel now cid channel m)
  | OpBroadcast message mid => fst (broadcast_to_channel now message mid m)
  | OpSendToUser uid message => fst (send_to_user now uid message m)
  | OpFrame cid uid mid ev =>
      let user :=
        match active_connections m !! cid with
        | Some c => user_id c
        | None => uid
        end in
      fst (websocket_endpoint_turn now cid user mid ev m)
  | OpHeartbeat => fst (_heartbeat_loop_turn now m)
  | OpTransport cid is_open => fst (update_connection cid (set_transport is_open) m)
  | OpRedis up => set_redis (set_redis_up up) m
  end.

(** [uuid4] never gives the id of a registered connection. *)
Definition admissible (m : ConnectionManager) (o : op) : Prop :=
  match o with
  | OpConnect _ _ cid => active_connections m !! cid = None
  | _ => True
  end.

Fixpoint run (ops : list (Z * op)) (m : ConnectionManager) : ConnectionManager :=
  match ops with
  | [] => m
  | (now, o) :: rest => run rest (apply_op now o m)
  end.

Inductive reachable : ConnectionManager → Prop :=
| reachable_init : reachable manager_init
| reachable_step m now o :
    reachable m → admissible m o → reachable (apply_op now o m).

End Manager.

(** * Specification *)

(** No key holds the empty set. *)
Definition nonempty_sets (d : gmap string (gset string)) : Prop := ∀ k s, d !! k = Some s → s ≠ ∅.

(** What the registry invariants read of a state: the user id and the
    subscriptions of every registered connection, and the two indexes. *)
Definition view (m : ConnectionManager) : gmap string (option string * gset string) :=
  (λ c, (user_id c, subscribed_channels c)) <$> active_connections m.

Definition registry (m : ConnectionManager) :=
  (view m, user_connections m, channel_subscriptions m).

(** The invariants of the data model: both indexes agree with the
    registered connection objects, and neither holds an empty set. *)
Record registry_inv (m : ConnectionManager) : Prop := {
  inv_channel : ∀ cid ch,
    cid ∈ get_set (channel_subscriptions m) ch ↔
    ∃ c, active_connections m !! cid = Some c ∧ ch ∈ subscribed_channels c;
  inv_channel_nonempty : nonempty_sets (channel_subscriptions m);
  inv_user : ∀ cid u,
    cid ∈ get_set (user_connections m) u ↔
    ∃ c, active_connections m !! cid = Some c ∧ truthy_user (user_id c) = Some u;
  inv_user_nonempty : nonempty_sets (user_connections m)
}.

(** A computation that leaves the registry as it is, whether it returns
    or raises: it only writes to transports, timestamps and the store. *)
Definition stable {A} (c : M A) : Prop := ∀ m, registry (fst (c m)) = registry m.

(** A computation that keeps the invariants, whether it returns or raises. *)
Definition preserving {A} (c : M A) : Prop :=
  ∀ m, registry_inv m → registry_inv (fst (c m)).

(** Every connection drawn in a run has a fresh id. *)
Fixpoint admissible_run {RT : PyRuntime} (cfg : Config) (ops : list (Z * op))
    (m : ConnectionManager) : Prop :=
  match ops with
  | [] => True
  | (now, o) :: rest => admissible m o ∧ admissible_run cfg rest (apply_op cfg now o m)
  end.

(** ** Broadcast recipients as the specification words them *)

(** The union of the listed users' current connection ids. *)
Definition union_connections (users : list string) (m : ConnectionManager) : gset string :=
  ⋃ ((λ u, get_set (user_connections m) u) <$> users).

(** The channel's subscriber set, intersected with the include users'
    connections when an include list is given, then minus the exclude
    users' connections when an exclude list is given. *)
Definition spec_recipients (message : BroadcastMessage) (m : ConnectionManager) : gset string :=
  let candidates := get_set (channel_subscriptions m) (bm_channel message) in
  let narrowed :=
    match bm_include_user_ids message with
    | Some users => candidates ∩ union_connections users m
    | None => candidates
    end in
  match bm_exclude_user_ids message with
  | Some users => narrowed ∖ union_connections users m
  | None => narrowed
  end.

(** The recipients of a broadcast: those of the specification, but that an
    include list that is given and empty narrows nothing. *)
Definition recipients (message : BroadcastMessage) (m : ConnectionManager) : gset string :=
  match bm_include_user_ids message with
  | Some [] =>
      let candidates := get_set (channel_subscriptions m) (bm_channel message) in
      match bm_exclude_user_ids message with
      | Some users => candidates ∖ union_connections users m
      | None => candidates
      end
  | _ => spec_recipients message m
  end.

(** The texts sent so far to a connection. *)
Definition outbox (m : ConnectionManager) (cid : string) : list string :=
  match active_connections m !! cid with
  | Some c => ws_sent (websocket c)
  | None => []
  end.

(** A registered connection whose transport takes a send, and one whose
    transport refuses it. *)
Definition receives (m : ConnectionManager) (cid : string) : bool :=
  match active_connections m !! cid with
  | Some c => ws_open (websocket c)
  | None => false
  end.

Definition refuses (m : ConnectionManager) (cid : string) : bool :=
  match active_connections m !! cid with
  | Some c => negb (ws_open (websocket c))
  | None => false
  end.

Definition count_in (P : string → bool) (T : gset string) : Z :=
  Z.of_nat (length (List.filter P (elements T))).

(** ** The persisted list of a channel *)

(** The messages stored for a channel, newest first. *)
Definition stored (m : ConnectionManager) (channel : string) : list string :=
  default [] (redis_messages (redis m) !! channel).

Section PersistEffect.
Context {RT : PyRuntime} (cfg : Config).

(** The four store commands of [_persist_message], composed: the store
    after a persist whose last command is accepted. *)
Definition persist_store (now : Z) (channel : string) (message : json) (r : Redis) : Redis :=
  set_redis_last_activity
    (<[channel := (isoformat now, retention_seconds cfg)]>)
    (redis_expire_messages channel (retention_seconds cfg)
       (redis_ltrim channel 0 (MAX_MESSAGES_PER_CHANNEL cfg - 1)
          (redis_lpush channel (json_dumps message) r))).


End PersistEffect.

(** ** History replay and inbound frames *)

Section FrameEffects.
Context {RT : PyRuntime}.

(** The frame replayed for a stored text: its dictionary re-tagged as
    history, or nothing when the text does not load as a dictionary. *)
Definition history_frame (data : string) : option json :=
  match json_loads data with
  | Some (JDict d) => Some (JDict (dict_set d "type" (JStr "history")))
  | _ => None
  end.

(** The connection object after [message] has been sent on its open
    transport at [now]. *)
Definition with_frame (now : Z) (message : json) (c : WebSocketConnection) :
    WebSocketConnection :=
  set_last_seen now
    (set_websocket
       {| ws_open := true;
          ws_sent := (ws_sent (websocket c) ++ [json_dumps message])%list;
          ws_user_agent := ws_user_agent (websocket c);
          ws_client_host := ws_client_host (websocket c) |} c).

End FrameEffects.

(** The connection [cid] is registered, its transport is open and [l] is
    what has been sent to it. *)
Definition sent_to (m : ConnectionManager) (cid : string) (l : list string) : Prop :=
  ∃ c, active_connections m !! cid = Some c ∧
       ws_open (websocket c) = true ∧ ws_sent (websocket c) = l.

(** ** What a sweep leaves in place *)

(** The connection [cid] is registered and is a subscriber of every
    channel of [S]. *)
Definition kept (cid : string) (S : gset string) (m : ConnectionManager) : Prop :=
  is_Some (active_connections m !! cid) ∧
  ∀ channel, channel ∈ S → cid ∈ get_set (channel_subscriptions m) channel.

(** A computation that neither unregisters [cid] nor drops it from a
    channel of [S]. *)
Definition keeps {A} (cid : string) (S : gset string) (c : M A) : Prop :=
  ∀ m, kept cid S m → kept cid S (fst (c m)).

(** The transport of the registered connection [cid] is open. *)
Definition open_in (m : ConnectionManager) (cid : string) : Prop :=
  ∃ c, active_connections m !! cid = Some c ∧ ws_open (websocket c) = true.

(** ** A runtime and runs for the examples

    The examples run the service with texts that keep the type and the
    event of a message, written [type:event]; a text without a colon does
    not load. *)

Fixpoint split_colon (s : string) : option (string * string) :=
  match s with
  | EmptyString => None
  | String a s' =>
      if Ascii.eqb a ":"%char then Some (EmptyString, s')
      else match split_colon s' with
           | Some (x, y) => Some (String a x, y)
           | None => None
           end
  end.

Definition sample_dumps (j : json) : string :=
  match j with
  | JDict d =>
      match dict_get d "type", dict_get d "event" with
      | Some (JStr t), Some (JStr e) => t ++ ":" ++ e
      | Some (JStr t), _ => t ++ ":"
      | _, _ => "?"
      end
  | _ => "?"
  end.

Definition sample_loads (s : string) : option json :=
  match split_colon s with
  | Some (t, e) => Some (JDict [("type", JStr t); ("event", JStr e)])
  | None => None
  end.

Definition sample_runtime : PyRuntime := {|
  json_dumps := sample_dumps;
  json_loads := sample_loads;
  isoformat := λ _, "T";
  exn_str := λ e, match e with ValueError msg => msg | _ => "error" end;
  json_str := λ _, "v"
|}.

Definition sample_ws : WebSocket :=
  {| ws_open := true; ws_sent := []; ws_user_agent := Some "agent";
     ws_client_host := Some "10.0.0.1" |}.

Definition plain_subscription (channel : string) : ChannelSubscription :=
  {| sub_channel := channel; sub_event := Some "*"; sub_config := Some [] |}.

Definition history_subscription (channel : string) : ChannelSubscription :=
  {| sub_channel := channel; sub_event := Some "*";
     sub_config := Some [("send_history", JBool true)] |}.

Definition sample_broadcast (channel event : string) : BroadcastMessage :=
  {| bm_channel := channel; bm_event := event; bm_payload := [("k", JInt 1)];
     bm_exclude_user_ids := None; bm_include_user_ids := None; bm_persist := true |}.

(** Two connections of alice and an anonymous one, all in [room]. *)
Definition room_ops : list (Z * op) :=
  [(0, OpConnect sample_ws (Some "alice") "a1");
   (0, OpConnect sample_ws (Some "alice") "a2");
   (0, OpConnect sample_ws None "x1");
   (1, OpSubscribe "a1" (plain_subscription "room"));
   (1, OpSubscribe "a2" (plain_subscription "room"));
   (1, OpSubscribe "x1" (plain_subscription "room"))].

Definition room_state : ConnectionManager :=
  run (RT := sample_runtime) default_config room_ops manager_init.

(** A cap of one connection per user, and alice holding hers. *)
Definition one_per_user : Config := {|
  MAX_CONNECTIONS_PER_USER := 1;
  MAX_MESSAGE_SIZE := 64 * 1024;
  HEARTBEAT_INTERVAL := 30;
  CONNECTION_TIMEOUT := 300;
  MESSAGE_RETENTION_DAYS := 7;
  MAX_MESSAGES_PER_CHANNEL := 1000
|}.

Definition alice_once : ConnectionManager :=
  run (RT := sample_runtime) one_per_user
    [(0, OpConnect sample_ws (Some "alice") "a1")] manager_init.



(** A text of 65537 bytes, one more than the default frame limit allows. *)
Definition oversized_text : string :=
  String.string_of_list_ascii (replicate (Z.to_nat 65537) "a"%char).

(** The include list is given and empty. *)
Definition empty_include_broadcast : BroadcastMessage :=
  {| bm_channel := "room"; bm_event := "e"; bm_payload := [("k", JInt 1)];
     bm_exclude_user_ids := None; bm_include_user_ids := Some [];
     bm_persist := false |}.

(** Alice is in both lists. *)
Definition both_lists_broadcast : BroadcastMessage :=
  {| bm_channel := "room"; bm_event := "e"; bm_payload := [("k", JInt 1)];
     bm_exclude_user_ids := Some ["alice"]; bm_include_user_ids := Some ["alice"];
     bm_persist := true |}.

(** Three broadcasts persisted on [room], then an admission. *)
Definition history_ops : list (Z * op) :=
  [(1, OpBroadcast (sample_broadcast "room" "e1") "m1");
   (2, OpBroadcast (sample_broadcast "room" "e2") "m2");
   (3, OpBroadcast (sample_broadcast "room" "e3") "m3");
   (4, OpConnect sample_ws None "h1")].

Definition history_state : ConnectionManager :=
  run (RT := sample_runtime) default_config history_ops manager_init.

(** [x1] subscribes to a second channel, then its peer goes away. *)
Definition dead_peer_state : ConnectionManager :=
  run (RT := sample_runtime) default_config
    [(2, OpSubscribe "x1" (plain_subscription "lobby"));
     (3, OpTransport "x1" false)] room_state.

(** ** The user index *)

(** A computation that adds no connection id to any user's set. *)
Definition users_shrink {A} (c : M A) : Prop :=
  ∀ m u, get_set (user_connections (fst (c m))) u ⊆ get_set (user_connections m) u.

(** No user holds more connections than the configured cap. *)
Definition users_bounded (cfg : Config) (m : ConnectionManager) : Prop :=
  ∀ u, Z.of_nat (size (get_set (user_connections m) u)) ≤ MAX_CONNECTIONS_PER_USER cfg.



(** ** Admission *)

Section Admission.
Context {RT : PyRuntime} (cfg : Config).

(** The object [connect] builds for [ws], and the record of it written to
    the store. *)
Definition admitted (now : Z) (cid : string) (ws : WebSocket) (uid : option string)
    (host : string) : WebSocketConnection :=
  {| connection_id := cid; websocket := ws; user_id := uid;
     connected_at := now; last_seen := now;
     subscribed_channels := ∅; channel_configs := ∅;
     user_agent := ws_user_agent ws; ip_address := Some host |}.

(** The manager once [connect] has registered the object, before it
    writes to the store. *)
Definition registered (now : Z) (cid : string) (ws : WebSocket) (uid : option string)
    (host : string) (m : ConnectionManager) : ConnectionManager :=
  match truthy_user uid with
  | Some u => set_users (add_to u cid)
  | None => λ m, m
  end (set_active (<[cid := admitted now cid ws uid host]>) m).

End Admission.


(** The store has gone away. *)
Definition store_down_state : ConnectionManager :=
  run (RT := sample_runtime) default_config [(2, OpRedis false)] room_state.



(** ** A healthy manager *)

(** The store is reachable and every registered transport is open. *)
Definition healthy (m : ConnectionManager) : Prop :=
  redis_up (redis m) = true ∧
  ∀ cid c, active_connections m !! cid = Some c → ws_open (websocket c) = true.

Section Shutdown.
Context {RT : PyRuntime}.

(** [cleanup], from the loop over the connections on; closing the Redis
    client leaves the store as it is. *)
Definition cleanup (now : Z) : M unit :=
  try_except
    (let* m := get in
     for_each (map fst (map_to_list (active_connections m))) (disconnect now))
    (λ _, ret tt).

End Shutdown.

(** A runtime whose texts [B] and [E] load as a broadcast frame with a
    payload and with an empty one. *)
Definition frames_runtime : PyRuntime := {|
  json_dumps := sample_dumps;
  json_loads := λ s,
    if String.eqb s "B" then
      Some (JDict [("type", JStr "broadcast"); ("channel", JStr "room");
                   ("event", JStr "e"); ("payload", JDict [("k", JInt 1)])])
    else if String.eqb s "E" then
      Some (JDict [("type", JStr "broadcast"); ("channel", JStr "room");
                   ("event", JStr "e"); ("payload", JDict [])])
    else sample_loads s;
  isoformat := λ _, "T";
  exn_str := λ _, "error";
  json_str := λ _, "v"
|}.

(** ** Administrative reads *)

(** The pydantic models [ConnectionInfo] and [ChannelStats]. *)
Record ConnectionInfo : Type := {
  ci_connection_id : string;
  ci_user_id : option string;
  ci_connected_at : Z;
  ci_last_seen : Z;
  ci_channels : list string;
  ci_user_agent : option string;
  ci_ip_address : option string
}.

Record ChannelStats : Type := {
  cs_channel : string;
  cs_subscriber_count : Z;
  cs_message_count : Z;
  cs_last_activity : option Z
}.

Section Reads.

(** [datetime.fromisoformat]: the instant a text denotes, [None] where
    Python raises [ValueError]. *)
Variable fromisoformat : string → option Z.

(** [get_connection_info] *)
Definition get_connection_info (cid : string) : M (option ConnectionInfo) :=
  let* m := get in
  match active_connections m !! cid with
  | None => ret None
  | Some connection =>
      ret (Some {| ci_connection_id := cid;
                   ci_user_id := user_id connection;
                   ci_connected_at := connected_at connection;
                   ci_last_seen := last_seen connection;
                   ci_channels := elements (subscribed_channels connection);
                   ci_user_agent := user_agent connection;
                   ci_ip_address := ip_address connection |})
  end.

(** The loop of [list_active_connections], carrying the list built so
    far. *)
Fixpoint collect_infos (cids : list string) (connections : list ConnectionInfo)
    : M (list ConnectionInfo) :=
  match cids with
  | [] => ret connections
  | cid :: rest =>
      let* info := get_connection_info cid in
      match info with
      | Some i => collect_infos rest (connections ++ [i])
      | None => collect_infos rest connections
      end
  end.

(** [list_active_connections] *)
Definition list_active_connections : M (list ConnectionInfo) :=
  let* m := get in
  collect_infos (map fst (map_to_list (active_connections m))) [].

(** [get_channel_stats] *)
Definition get_channel_stats (channel : string) : M ChannelStats :=
  let* m := get in
  let subscriber_count :=
    Z.of_nat (size (get_set (channel_subscriptions m) channel)) in
  let* message_count :=
    redis_query (λ r, Z.of_nat (length (default [] (redis_messages r !! channel)))) in
  let* last_activity_str :=
    redis_query (λ r, fst <$> redis_last_activity r !! channel) in
  let* last_activity :=
    match last_activity_str with
    | Some s =>
        if String.eqb s EmptyString then ret None
        else match fromisoformat s with
             | Some t => ret (Some t)
             | None => raise (ValueError "Invalid isoformat string")
             end
    | None => ret None
    end in
  ret {| cs_channel := channel;
         cs_subscriber_count := subscriber_count;
         cs_message_count := message_count;
         cs_last_activity := last_activity |}.

End Reads.

(** * Verification *)

(** ** Sets stored in a dictionary *)

Section SetMaps.
Implicit Types (d : gmap string (gset string)) (k x : string).

Lemma get_set_add_to d k x k' :
  get_set (add_to k x d) k' =
  if decide (k' = k) then {[x]} ∪ get_set d k else get_set d k'.
Proof.
  unfold get_set, add_to. case_decide as Hk.
  - subst. by rewrite lookup_insert_eq.
  - by rewrite lookup_insert_ne.
Qed.

Lemma get_set_discard_from d k x k' :
  get_set (discard_from k x d) k' =
  if decide (k' = k) then get_set d k ∖ {[x]} else get_set d k'.
Proof.
  unfold get_set, discard_from.
  case_decide as Hk; [subst k'|]; destruct (d !! k) as [s|] eqn:Hd.
  - destruct (decide (s ∖ {[x]} = ∅)) as [He|He].
    + rewrite lookup_delete_eq. simpl. by rewrite He.
    + by rewrite lookup_insert_eq.
  - rewrite Hd. simpl. by rewrite empty_difference_L.
  - destruct (decide (s ∖ {[x]} = ∅)) as [He|He].
    + by rewrite lookup_delete_ne.
    + by rewrite lookup_insert_ne.
  - done.
Qed.

Lemma nonempty_sets_add_to d k x : nonempty_sets d → nonempty_sets (add_to k x d).
Proof.
  intros Hd k' s. unfold add_to.
  destruct (decide (k = k')) as [->|Hk].
  - rewrite lookup_insert_eq. intros [= <-]. set_solver.
  - rewrite lookup_insert_ne by done. apply Hd.
Qed.

Lemma nonempty_sets_discard_from d k x :
  nonempty_sets d → nonempty_sets (discard_from k x d).
Proof.
  intros Hd k' s. unfold discard_from.
  destruct (d !! k) as [s0|] eqn:Hk; [|apply Hd].
  destruct (decide (s0 ∖ {[x]} = ∅)) as [He|He].
  - destruct (decide (k = k')) as [->|Hne].
    + by rewrite lookup_delete_eq.
    + rewrite lookup_delete_ne by done. apply Hd.
  - destruct (decide (k = k')) as [->|Hne].
    + rewrite lookup_insert_eq. by intros [= <-].
    + rewrite lookup_insert_ne by done. apply Hd.
Qed.

Lemma nonempty_sets_empty : nonempty_sets ∅.
Proof. intros k s. by rewrite lookup_empty. Qed.

End SetMaps.

(** ** Computations that leave the registry as it is *)

Section Stable.
Context {RT : PyRuntime} (cfg : Config).

Lemma stable_ret {A} (a : A) : stable (ret a).
Proof. done. Qed.

Lemma stable_raise {A} e : stable (@raise A e).
Proof. done. Qed.

Lemma stable_get : stable get.
Proof. done. Qed.

Lemma stable_bind {A B} (c : M A) (k : A → M B) :
  stable c → (∀ a, stable (k a)) → stable (bind c k).
Proof.
  intros Hc Hk m. unfold bind. specialize (Hc m).
  destruct (c m) as [m' [a|e]]; simpl in *; [|done].
  by rewrite Hk.
Qed.

Lemma stable_try_except {A} (c : M A) h :
  stable c → (∀ e, stable (h e)) → stable (try_except c h).
Proof.
  intros Hc Hh m. unfold try_except. specialize (Hc m).
  destruct (c m) as [m' [a|e]]; simpl in *; [done|].
  by rewrite Hh.
Qed.

Lemma stable_for_each {A} (xs : list A) body :
  (∀ x, stable (body x)) → stable (for_each xs body).
Proof.
  intros Hb. induction xs as [|x xs IH]; simpl.
  - apply stable_ret.
  - apply stable_bind; auto.
Qed.

Lemma stable_modify f :
  (∀ m, registry (f m) = registry m) → stable (modify f).
Proof. intros Hf m. apply Hf. Qed.

Lemma stable_redis_command f : stable (redis_command f).
Proof. intros m. unfold redis_command. by destruct (redis_up (redis m)). Qed.

Lemma stable_redis_query {A} (f : Redis → A) : stable (redis_query f).
Proof. intros m. unfold redis_query. by destruct (redis_up (redis m)). Qed.

(** Replacing a registered object by one with the same user id and
    subscriptions leaves the registry as it is. *)
Lemma registry_insert_same m cid c c' :
  active_connections m !! cid = Some c →
  user_id c' = user_id c →
  subscribed_channels c' = subscribed_channels c →
  registry (set_active (<[cid := c']>) m) = registry m.
Proof.
  intros Hc Hu Hs. unfold registry, view. simpl. f_equal. f_equal.
  rewrite fmap_insert, Hu, Hs. apply insert_id.
  by rewrite lookup_fmap, Hc.
Qed.

Lemma conn_send_message_fields now message c c' :
  conn_send_message now message c = Some c' →
  user_id c' = user_id c ∧ subscribed_channels c' = subscribed_channels c ∧
  ws_open (websocket c) = true ∧ ws_open (websocket c') = true ∧
  last_seen c' = now ∧
  ws_sent (websocket c') = (ws_sent (websocket c) ++ [json_dumps message])%list.
Proof.
  unfold conn_send_message, send_text.
  destruct (ws_open (websocket c)) eqn:Ho; [|done].
  intros [= <-]. done.
Qed.

Lemma stable_send_message now cid message : stable (send_message now cid message).
Proof.
  intros m. unfold send_message.
  destruct (active_connections m !! cid) as [c|] eqn:Hc; [|done].
  destruct (conn_send_message now message c) as [c'|] eqn:Hs; [|done].
  apply conn_send_message_fields in Hs as (Hu & Hsub & _).
  simpl. by eapply registry_insert_same.
Qed.

Lemma stable_update_connection cid f :
  (∀ c, user_id (f c) = user_id c ∧ subscribed_channels (f c) = subscribed_channels c) →
  stable (update_connection cid f).
Proof.
  intros Hf m. unfold update_connection, modify. simpl.
  destruct (active_connections m !! cid) as [c|] eqn:Hc.
  - unfold registry, view. simpl. rewrite Hc.
    pose proof (registry_insert_same m cid c (f c) Hc) as Hr.
    destruct (Hf c) as [Hu Hs]. specialize (Hr Hu Hs).
    unfold registry, view in Hr. simpl in Hr. done.
  - unfold registry, view. simpl. by rewrite Hc.
Qed.

End Stable.

Create HintDb stable.
#[export] Hint Resolve stable_ret stable_raise stable_get stable_bind
  stable_try_except stable_for_each stable_redis_command stable_redis_query
  stable_send_message : stable.

(** ** Registry invariants *)

Section Invariants.
Context {RT : PyRuntime} (cfg : Config).

Lemma view_lookup m cid (P : option string → gset string → Prop) :
  (∃ c, active_connections m !! cid = Some c ∧ P (user_id c) (subscribed_channels c)) ↔
  (∃ u s, view m !! cid = Some (u, s) ∧ P u s).
Proof.
  unfold view. rewrite lookup_fmap. split.
  - intros (c & -> & HP). eauto.
  - intros (u & s & Hv & HP).
    destruct (active_connections m !! cid) as [c|]; [|done].
    injection Hv as <- <-. eauto.
Qed.

(** The invariants read the registry only. *)
Lemma registry_inv_ext m m' :
  registry m = registry m' → registry_inv m → registry_inv m'.
Proof.
  unfold registry. intros [= Hv Hu Hc] [I1 I2 I3 I4].
  split.
  - intros cid ch. rewrite <- Hc, I1.
    rewrite (view_lookup m cid (λ _ s, ch ∈ s)), (view_lookup m' cid (λ _ s, ch ∈ s)).
    by rewrite Hv.
  - by rewrite <- Hc.
  - intros cid u. rewrite <- Hu, I3.
    rewrite (view_lookup m cid (λ x _, truthy_user x = Some u)),
            (view_lookup m' cid (λ x _, truthy_user x = Some u)).
    by rewrite Hv.
  - by rewrite <- Hu.
Qed.

Lemma stable_inv {A} (c : M A) m :
  stable c → registry_inv m → registry_inv (fst (c m)).
Proof. intros Hc. apply registry_inv_ext. by rewrite Hc. Qed.

Lemma registry_inv_init : registry_inv manager_init.
Proof.
  split; simpl.
  - intros cid ch. unfold get_set. rewrite !lookup_empty. simpl.
    split; [by intros ?%not_elem_of_empty|by intros (c & ? & _)].
  - apply nonempty_sets_empty.
  - intros cid u. unfold get_set. rewrite !lookup_empty. simpl.
    split; [by intros ?%not_elem_of_empty|by intros (c & ? & _)].
  - apply nonempty_sets_empty.
Qed.

(** *** Stable parts of the operations *)

Lemma stable__store_connection_info c : stable (_store_connection_info cfg c).
Proof. unfold _store_connection_info. auto with stable. Qed.

Lemma stable__remove_connection_info cid : stable (_remove_connection_info cid).
Proof. unfold _remove_connection_info. auto with stable. Qed.

Lemma stable__persist_message now channel message :
  stable (_persist_message cfg now channel message).
Proof.
  unfold _persist_message, redis_set_ex.
  destruct (0 <? retention_seconds cfg); auto 10 with stable.
Qed.

Lemma stable__send_channel_history now cid channel :
  stable (_send_channel_history now cid channel).
Proof.
  unfold _send_channel_history.
  apply stable_try_except; [|auto with stable].
  apply stable_bind; [auto with stable|]. intros messages.
  apply stable_bind; [|auto with stable].
  apply stable_for_each. intros data.
  apply stable_try_except; [|auto with stable].
  destruct (json_loads data) as [[]|]; auto with stable.
Qed.

Lemma stable_deliver now message targets counts :
  stable (deliver now message targets counts).
Proof.
  revert counts. induction targets as [|cid rest IH]; intros counts; simpl.
  - auto with stable.
  - apply stable_bind; [auto with stable|]. intros m.
    apply stable_bind; [|auto].
    destruct (active_connections m !! cid); auto 10 with stable.
Qed.

Lemma stable_broadcast_to_channel now message mid :
  stable (broadcast_to_channel cfg now message mid).
Proof.
  unfold broadcast_to_channel.
  apply stable_bind.
  - destruct (bm_persist message); [apply stable__persist_message|auto with stable].
  - intros _. apply stable_bind; [auto with stable|]. intros m.
    apply stable_bind; [apply stable_deliver|auto with stable].
Qed.

End Invariants.

#[export] Hint Resolve stable__store_connection_info
  stable__remove_connection_info stable__persist_message
  stable__send_channel_history stable_deliver stable_broadcast_to_channel : stable.

(** ** The operations keep the invariants *)

Section Operations.
Context {RT : PyRuntime} (cfg : Config).

Lemma bind_modify {A} f (k : M A) m : (modify f ;;; k) m = k (f m).
Proof. done. Qed.

Lemma bind_returned {A B} (c : M A) (k : A → M B) m m' a :
  c m = (m', Returned a) → bind c k m = k a m'.
Proof. unfold bind. by intros ->. Qed.

Lemma bind_raised {A B} (c : M A) (k : A → M B) m m' e :
  c m = (m', Raised e) → bind c k m = (m', Raised e).
Proof. unfold bind. by intros ->. Qed.

Lemma bind_ret {A B} (a : A) (k : A → M B) m : bind (ret a) k m = k a m.
Proof. done. Qed.

Lemma bind_raise {A B} e (k : A → M B) m : bind (raise e) k m = (m, Raised e).
Proof. done. Qed.

Lemma bind_get {A} (k : ConnectionManager → M A) m : (let* x := get in k x) m = k m m.
Proof. done. Qed.

(** Both sides of a subscription are written together. *)
Lemma subscribe_both_sides m cid c channel config :
  registry_inv m →
  active_connections m !! cid = Some c →
  registry_inv
    (set_active (<[cid := set_subscription ({[channel]} ∪ subscribed_channels c)
                            (<[channel := config]> (channel_configs c)) c]>)
       (set_channels (add_to channel cid) m)).
Proof.
  intros [I1 I2 I3 I4] Hc. split; simpl.
  - intros cid' ch'. rewrite get_set_add_to.
    destruct (decide (cid' = cid)) as [->|Hne].
    + rewrite lookup_insert_eq. case_decide as Hch; [subst ch'|].
      * split; [intros _; eexists; split; [done|simpl; set_solver]|intros _; set_solver].
      * rewrite I1. split.
        -- intros (c0 & Hc0 & Hin). rewrite Hc in Hc0. injection Hc0 as <-.
           eexists. split; [done|]. simpl. set_solver.
        -- intros (c0 & [= <-] & Hin). simpl in Hin. exists c. set_solver.
    + rewrite lookup_insert_ne by done. case_decide as Hch; [subst ch'|].
      * rewrite <- I1. set_solver.
      * apply I1.
  - by apply nonempty_sets_add_to.
  - intros cid' u. rewrite I3.
    destruct (decide (cid' = cid)) as [->|Hne].
    + rewrite lookup_insert_eq, Hc. split.
      * intros (c0 & [= <-] & Hu). eauto.
      * intros (c0 & [= <-] & Hu). eauto.
    + by rewrite lookup_insert_ne.
  - done.
Qed.

Lemma unsubscribe_both_sides m cid c channel :
  registry_inv m →
  active_connections m !! cid = Some c →
  registry_inv
    (set_active (<[cid := set_subscription (subscribed_channels c ∖ {[channel]})
                            (delete channel (channel_configs c)) c]>)
       (set_channels (discard_from channel cid) m)).
Proof.
  intros [I1 I2 I3 I4] Hc. split; simpl.
  - intros cid' ch'. rewrite get_set_discard_from.
    destruct (decide (cid' = cid)) as [->|Hne].
    + rewrite lookup_insert_eq. case_decide as Hch; [subst ch'|].
      * split; [set_solver|]. intros (c0 & [= <-] & Hin). simpl in Hin. set_solver.
      * rewrite I1. split.
        -- intros (c0 & Hc0 & Hin). rewrite Hc in Hc0. injection Hc0 as <-.
           eexists. split; [done|]. simpl. set_solver.
        -- intros (c0 & [= <-] & Hin). simpl in Hin. exists c. set_solver.
    + rewrite lookup_insert_ne by done. case_decide as Hch; [subst ch'|].
      * rewrite <- I1. set_solver.
      * apply I1.
  - by apply nonempty_sets_discard_from.
  - intros cid' u. rewrite I3.
    destruct (decide (cid' = cid)) as [->|Hne].
    + rewrite lookup_insert_eq, Hc. split.
      * intros (c0 & [= <-] & Hu). eauto.
      * intros (c0 & [= <-] & Hu). eauto.
    + by rewrite lookup_insert_ne.
  - done.
Qed.

(** Registration enters the object and its user's set together. *)
Lemma register_both_sides m cid c :
  registry_inv m →
  active_connections m !! cid = None →
  subscribed_channels c = ∅ →
  registry_inv
    (match truthy_user (user_id c) with
     | Some u => set_users (add_to u cid)
     | None => λ m, m
     end (set_active (<[cid := c]>) m)).
Proof.
  intros [I1 I2 I3 I4] Hc Hs.
  assert (Hch : ∀ cid' ch,
    cid' ∈ get_set (channel_subscriptions m) ch ↔
    ∃ c', <[cid := c]> (active_connections m) !! cid' = Some c' ∧
          ch ∈ subscribed_channels c').
  { intros cid' ch. rewrite I1.
    destruct (decide (cid' = cid)) as [->|Hne].
    - rewrite lookup_insert_eq, Hc. split.
      + by intros (? & ? & _).
      + intros (c0 & [= <-] & Hin). rewrite Hs in Hin. set_solver.
    - by rewrite lookup_insert_ne. }
  destruct (truthy_user (user_id c)) as [u|] eqn:Hu; split; simpl; try done.
  - intros cid' u'. rewrite get_set_add_to.
    destruct (decide (cid' = cid)) as [->|Hne].
    + rewrite lookup_insert_eq. case_decide as Hk; [subst u'|].
      * split; [eauto|set_solver].
      * rewrite I3, Hc. split; [by intros (? & ? & _)|].
        intros (c0 & [= <-] & Hu'). congruence.
    + rewrite lookup_insert_ne by done. case_decide as Hk; [subst u'|].
      * rewrite <- I3. set_solver.
      * apply I3.
  - by apply nonempty_sets_add_to.
  - intros cid' u'. rewrite I3.
    destruct (decide (cid' = cid)) as [->|Hne].
    + rewrite lookup_insert_eq, Hc. split; [by intros (? & ? & _)|].
      intros (c0 & [= <-] & Hu'). congruence.
    + by rewrite lookup_insert_ne.
Qed.

(** Once a connection holds no subscription, removing it from its user's
    set and from the registry keeps the invariants. *)
Lemma deregister_both_sides m cid c :
  registry_inv m →
  active_connections m !! cid = Some c →
  subscribed_channels c = ∅ →
  registry_inv
    (set_active (delete cid)
       (match truthy_user (user_id c) with
        | Some u => set_users (discard_from u cid)
        | None => λ m, m
        end m)).
Proof.
  intros [I1 I2 I3 I4] Hc Hs.
  assert (Hch : ∀ cid' ch,
    cid' ∈ get_set (channel_subscriptions m) ch ↔
    ∃ c', delete cid (active_connections m) !! cid' = Some c' ∧
          ch ∈ subscribed_channels c').
  { intros cid' ch. rewrite I1.
    destruct (decide (cid' = cid)) as [->|Hne].
    - rewrite lookup_delete_eq, Hc. split.
      + intros (c0 & [= <-] & Hin). rewrite Hs in Hin. set_solver.
      + by intros (? & ? & _).
    - by rewrite lookup_delete_ne. }
  destruct (truthy_user (user_id c)) as [u|] eqn:Hu; split; simpl; try done.
  - intros cid' u'. rewrite get_set_discard_from.
    destruct (decide (cid' = cid)) as [->|Hne].
    + rewrite lookup_delete_eq. case_decide as Hk; [subst u'|].
      * split; [set_solver|by intros (? & ? & _)].
      * rewrite I3, Hc. split; [|by intros (? & ? & _)].
        intros (c0 & [= <-] & Hu'). congruence.
    + rewrite lookup_delete_ne by done. case_decide as Hk; [subst u'|].
      * rewrite <- I3. set_solver.
      * apply I3.
  - by apply nonempty_sets_discard_from.
  - intros cid' u'. rewrite I3.
    destruct (decide (cid' = cid)) as [->|Hne].
    + rewrite lookup_delete_eq, Hc. split; [|by intros (? & ? & _)].
      intros (c0 & [= <-] & Hu'). congruence.
    + by rewrite lookup_delete_ne.
Qed.

Lemma stable_preserving {A} (c : M A) : stable c → preserving c.
Proof. intros Hc m. by apply stable_inv. Qed.

Ltac by_stable := apply stable_preserving; solve [auto 10 with stable].

Lemma preserving_bind {A B} (c : M A) (k : A → M B) :
  preserving c → (∀ a, preserving (k a)) → preserving (bind c k).
Proof.
  intros Hc Hk m Hm. unfold bind. specialize (Hc m Hm).
  destruct (c m) as [m' [a|e]]; simpl in *; [|done].
  by apply Hk.
Qed.

Lemma preserving_try_except {A} (c : M A) h :
  preserving c → (∀ e, preserving (h e)) → preserving (try_except c h).
Proof.
  intros Hc Hh m Hm. unfold try_except. specialize (Hc m Hm).
  destruct (c m) as [m' [a|e]]; simpl in *; [done|].
  by apply Hh.
Qed.

Lemma preserving_for_each {A} (xs : list A) body :
  (∀ x, preserving (body x)) → preserving (for_each xs body).
Proof.
  intros Hb. induction xs as [|x xs IH]; simpl.
  - by intros m.
  - apply preserving_bind; auto.
Qed.

Lemma view_lookup_Some m cid c :
  active_connections m !! cid = Some c →
  view m !! cid = Some (user_id c, subscribed_channels c).
Proof. intros Hc. unfold view. by rewrite lookup_fmap, Hc. Qed.

Lemma view_lookup_None m cid :
  view m !! cid = None ↔ active_connections m !! cid = None.
Proof. unfold view. rewrite lookup_fmap. apply fmap_None. Qed.

Lemma view_lookup_inv m cid u s :
  view m !! cid = Some (u, s) →
  ∃ c, active_connections m !! cid = Some c ∧ user_id c = u ∧ subscribed_channels c = s.
Proof.
  unfold view. rewrite lookup_fmap.
  destruct (active_connections m !! cid) as [c|]; [|done].
  intros [= <- <-]. eauto.
Qed.

Lemma stable_view {A} (c : M A) m : stable c → view (fst (c m)) = view m.
Proof. intros Hc. specialize (Hc m). unfold registry in Hc. by injection Hc. Qed.

Lemma subscribe_channel_preserving now cid subscription :
  preserving (subscribe_channel now cid subscription).
Proof.
  intros m Hm. unfold subscribe_channel. rewrite bind_get.
  destruct (active_connections m !! cid) as [c|] eqn:Hc; [|done].
  rewrite bind_modify. unfold update_connection. rewrite bind_modify.
  apply stable_inv.
  - apply stable_bind; [auto with stable|]. intros _.
    apply stable_bind; [auto with stable|]. intros _.
    destruct (sub_config subscription) as [config|]; [|auto with stable].
    destruct (truthy _); auto with stable.
  - pose proof (subscribe_both_sides m cid c (sub_channel subscription)
                  (sub_config subscription) Hm Hc) as Hi.
    unfold set_active, set_channels in *. simpl in *. by rewrite Hc.
Qed.

(** The state [unsubscribe_channel] reaches: the invariants hold, and the
    connection has lost that one subscription, whatever the outcome. *)
Lemma unsubscribe_channel_view now cid channel m u s :
  registry_inv m →
  view m !! cid = Some (u, s) →
  registry_inv (fst (unsubscribe_channel now cid channel m)) ∧
  view (fst (unsubscribe_channel now cid channel m)) !! cid = Some (u, s ∖ {[channel]}).
Proof.
  intros Hm Hv. apply view_lookup_inv in Hv as (c & Hc & <- & <-).
  unfold unsubscribe_channel. rewrite bind_get, Hc.
  rewrite bind_modify. unfold update_connection. rewrite bind_modify.
  pose proof (unsubscribe_both_sides m cid c channel Hm Hc) as Hi.
  unfold set_active, set_channels in *. simpl in *. rewrite Hc.
  match goal with |- context [fst (?k ?m0)] => set (rest := k); set (m1 := m0) in * end.
  assert (Hst : stable rest) by (subst rest; auto with stable).
  split.
  - by apply stable_inv.
  - rewrite (stable_view rest m1 Hst). subst m1. unfold view. simpl.
    by rewrite lookup_fmap, lookup_insert_eq.
Qed.

Lemma unsubscribe_channel_preserving now cid channel :
  preserving (unsubscribe_channel now cid channel).
Proof.
  intros m Hm.
  destruct (view m !! cid) as [[u s]|] eqn:Hv.
  - by apply (unsubscribe_channel_view now cid channel m u s).
  - apply view_lookup_None in Hv. unfold unsubscribe_channel.
    by rewrite bind_get, Hv.
Qed.

(** The loop of [disconnect]: when it returns, every listed channel has
    been dropped from the connection's own set. *)
Lemma unsubscribe_loop now cid channels m u s :
  registry_inv m →
  view m !! cid = Some (u, s) →
  registry_inv (fst (for_each channels (unsubscribe_channel now cid) m)) ∧
  (snd (for_each channels (unsubscribe_channel now cid) m) = Returned tt →
   view (fst (for_each channels (unsubscribe_channel now cid) m)) !! cid
   = Some (u, s ∖ list_to_set channels)).
Proof.
  revert m s. induction channels as [|ch rest IH]; intros m s Hm Hv; simpl.
  - split; [done|]. intros _. rewrite Hv. do 2 f_equal. set_solver.
  - destruct (unsubscribe_channel_view now cid ch m u s Hm Hv) as [Hm1 Hv1].
    unfold bind.
    destruct (unsubscribe_channel now cid ch m) as [m1 [[]|e]]; simpl in *.
    + destruct (IH m1 _ Hm1 Hv1) as [Hm2 Hv2]. split; [done|].
      intros Hr. rewrite (Hv2 Hr). do 2 f_equal. set_solver.
    + split; [done|]. done.
Qed.

(** [disconnect] keeps the invariants, and when it returns the id is no
    longer registered. *)
Lemma disconnect_spec now cid m :
  registry_inv m →
  registry_inv (fst (disconnect now cid m)) ∧
  (snd (disconnect now cid m) = Returned tt →
   active_connections (fst (disconnect now cid m)) !! cid = None).
Proof.
  intros Hm. unfold disconnect. rewrite bind_get.
  destruct (active_connections m !! cid) as [c|] eqn:Hc; [|by split].
  pose proof (unsubscribe_loop now cid (elements (subscribed_channels c)) m _ _
                Hm (view_lookup_Some m cid c Hc)) as [Hm1 Hv1].
  destruct (for_each _ _ m) as [m1 [[]|e]] eqn:Hloop; simpl in *.
  2: { rewrite (bind_raised _ _ _ _ _ Hloop). by split. }
  rewrite (bind_returned _ _ _ _ _ Hloop).
  specialize (Hv1 eq_refl).
  apply view_lookup_inv in Hv1 as (c1 & Hc1 & Hu1 & Hs1).
  assert (Hs1' : subscribed_channels c1 = ∅).
  { rewrite Hs1. apply set_eq. intros x. rewrite elem_of_difference,
      elem_of_list_to_set, elem_of_elements. set_solver. }
  pose proof (deregister_both_sides m1 cid c1 Hm1 Hc1 Hs1') as Hi.
  rewrite Hu1 in Hi.
  assert (Hst : stable (_remove_connection_info cid)) by auto with stable.
  destruct (truthy_user (user_id c)) as [u|].
  - rewrite !bind_modify. split; [by apply stable_inv|]. intros _.
    apply view_lookup_None. rewrite (stable_view _ _ Hst).
    apply view_lookup_None. simpl. apply lookup_delete_eq.
  - rewrite bind_ret, bind_modify. split; [by apply stable_inv|]. intros _.
    apply view_lookup_None. rewrite (stable_view _ _ Hst).
    apply view_lookup_None. simpl. apply lookup_delete_eq.
Qed.

Lemma disconnect_preserving now cid : preserving (disconnect now cid).
Proof. intros m Hm. by apply disconnect_spec. Qed.

Lemma new_connection_fields now cid ws uid c :
  new_connection now cid ws uid = Some c →
  user_id c = uid ∧ subscribed_channels c = ∅ ∧ websocket c = ws ∧
  last_seen c = now ∧ connection_id c = cid.
Proof.
  unfold new_connection. destruct (ws_client_host ws); [|done].
  by intros [= <-].
Qed.

Lemma connect_preserving now ws uid cid m :
  registry_inv m →
  active_connections m !! cid = None →
  registry_inv (fst (connect cfg now ws uid cid m)).
Proof.
  intros Hm Hfresh. unfold connect. rewrite bind_get.
  assert (Hrest : ∀ c, stable (_store_connection_info cfg c ;;;
                               send_message now cid (connection_ack cid now) ;;; ret cid))
    by auto 10 with stable.
  destruct (new_connection now cid ws uid) as [c|] eqn:Hnew.
  2: { destruct (truthy_user uid); [destruct (_ <=? _)%Z|]; done. }
  apply new_connection_fields in Hnew as (Hu & Hs & _).
  pose proof (register_both_sides m cid c Hm Hfresh Hs) as Hi. rewrite Hu in Hi.
  destruct (truthy_user uid) as [u|].
  - destruct (_ <=? _)%Z; [done|]. rewrite bind_ret.
    destruct (ws_open ws); [|done].
    rewrite bind_ret, !bind_modify. by apply stable_inv.
  - rewrite bind_ret. destruct (ws_open ws); [|done].
    rewrite bind_ret, bind_modify, bind_ret. by apply stable_inv.
Qed.

Lemma stable_heartbeat_collect now cids disconnected :
  stable (heartbeat_collect cfg now cids disconnected).
Proof.
  revert disconnected. induction cids as [|cid rest IH]; intros disconnected; simpl.
  - auto with stable.
  - apply stable_bind; [|auto].
    apply stable_try_except; [|auto with stable].
    apply stable_bind; [auto with stable|]. intros _.
    apply stable_bind; [auto with stable|]. intros m.
    destruct (active_connections m !! cid) as [c|]; [|auto with stable].
    destruct (timed_out cfg now c); auto with stable.
Qed.

Lemma heartbeat_sweep_preserving now : preserving (_heartbeat_loop_turn cfg now).
Proof.
  unfold _heartbeat_loop_turn.
  apply preserving_try_except; [|intros e; apply stable_preserving; auto with stable].
  apply preserving_bind; [apply stable_preserving; auto with stable|]. intros m.
  apply preserving_bind; [apply stable_preserving, stable_heartbeat_collect|].
  intros disconnected. apply preserving_for_each. intros cid.
  apply disconnect_preserving.
Qed.

Lemma stable_receive_message now cid ev : stable (receive_message cfg now cid ev).
Proof.
  unfold receive_message. destruct ev as [data|]; [|auto with stable].
  destruct (_ <? _)%Z; [auto with stable|].
  destruct (json_loads data); [|auto with stable].
  apply stable_bind; [|auto with stable].
  by apply stable_update_connection.
Qed.

Lemma unsubscribe_channel_any_preserving now cid channel :
  preserving (unsubscribe_channel_any now cid channel).
Proof.
  assert (Hother : ∀ v, stable (
    let* m := get in
    match active_connections m !! cid with
    | None => ret tt
    | Some _ =>
        match v with
        | JList _ | JDict _ => raise TypeError
        | _ =>
            redis_command (redis_srem (json_str v) cid) ;;;
            send_message now cid
              (JDict [("type", JStr "unsubscription_ack"); ("channel", v);
                      ("timestamp", JStr (isoformat now))])
        end
    end)).
  { intros v. apply stable_bind; [auto with stable|]. intros m.
    destruct (active_connections m !! cid); [|auto with stable].
    destruct v; auto with stable. }
  destruct channel; try (apply stable_preserving, Hother).
  apply unsubscribe_channel_preserving.
Qed.

Lemma handle_message_preserving now cid uid mid message :
  preserving (handle_message cfg now cid uid mid message).
Proof.
  unfold handle_message.
  destruct (message_type message) as [[[d t]|]|e]; try by_stable.
  destruct (json_is_str t "subscribe").
  { destruct (truthy _); [|by_stable].
    destruct (make_subscription _ _ _);
      [apply subscribe_channel_preserving|by_stable]. }
  destruct (json_is_str t "unsubscribe").
  { destruct (truthy _); [|by_stable].
    apply unsubscribe_channel_any_preserving. }
  destruct (json_is_str t "ping"); [by_stable|].
  destruct (json_is_str t "broadcast"); [|by_stable].
  destruct (truthy_user uid); [|by_stable].
  destruct (_ && _); [|by_stable].
  destruct (make_broadcast _ _ _); by_stable.
Qed.

Lemma websocket_endpoint_iteration_preserving now cid uid mid ev :
  preserving (websocket_endpoint_iteration cfg now cid uid mid ev).
Proof.
  intros m Hm. unfold websocket_endpoint_iteration.
  assert (Hin : preserving (let* message := receive_message cfg now cid ev in
                            handle_message cfg now cid uid mid message)).
  { apply preserving_bind; [apply stable_preserving, stable_receive_message|].
    intros message. apply handle_message_preserving. }
  specialize (Hin m Hm).
  destruct ((let* message := receive_message cfg now cid ev in
             handle_message cfg now cid uid mid message) m) as [m' [[]|e]];
    simpl in Hin; [done|].
  assert (Hs : registry_inv
                 (fst ((send_message now cid (error_frame e now) ;;; ret Continue) m')))
    by (apply stable_inv; auto with stable).
  by destruct e.
Qed.

Lemma websocket_endpoint_turn_preserving now cid uid mid ev :
  preserving (websocket_endpoint_turn cfg now cid uid mid ev).
Proof.
  intros m Hm. unfold websocket_endpoint_turn.
  pose proof (websocket_endpoint_iteration_preserving now cid uid mid ev m Hm) as Hin.
  assert (Hd : ∀ m', registry_inv m' →
                registry_inv (fst ((disconnect now cid ;;; ret Break) m'))).
  { apply preserving_bind; [apply disconnect_preserving|].
    intros _. apply stable_preserving. auto with stable. }
  destruct (websocket_endpoint_iteration cfg now cid uid mid ev m) as [m' [[]|e]];
    simpl in Hin; auto.
Qed.

(** Every admissible step keeps the invariants. *)
Lemma apply_op_inv now o m :
  registry_inv m → admissible m o → registry_inv (apply_op cfg now o m).
Proof.
  intros Hm Hadm. destruct o; cbn [apply_op admissible] in *.
  - by apply connect_preserving.
  - by apply disconnect_preserving.
  - by apply subscribe_channel_preserving.
  - by apply unsubscribe_channel_preserving.
  - apply stable_inv; auto with stable.
  - apply stable_inv; [|done]. unfold send_to_user. auto with stable.
  - by apply websocket_endpoint_turn_preserving.
  - by apply heartbeat_sweep_preserving.
  - apply stable_inv; [|done]. by apply stable_update_connection.
  - by apply (registry_inv_ext m).
Qed.

Lemma reachable_inv m : reachable cfg m → registry_inv m.
Proof.
  induction 1 as [|m now o _ IH Hadm].
  - apply registry_inv_init.
  - by apply apply_op_inv.
Qed.

End Operations.

Section Claims.
Context {RT : PyRuntime} (cfg : Config).

Lemma reachable_run ops m :
  reachable cfg m → admissible_run cfg ops m → reachable cfg (run cfg ops m).
Proof.
  revert m. induction ops as [|[now o] rest IH]; intros m Hm Hadm; simpl in *.
  - done.
  - destruct Hadm as [Ho Hrest]. apply IH; [|done]. by constructor.
Qed.

(** C1. After every operation of every run of the service (admissions,
    subscribe, unsubscribe, disconnect, broadcasts, inbound frames,
    supervisor sweeps, transport and store failures), a connection id is
    in a channel's subscriber set exactly when the channel is in that
    connection's own set of subscribed channels. *)
Theorem bidirectional_subscription_invariant m :
  reachable cfg m →
  ∀ cid channel,
    cid ∈ get_set (channel_subscriptions m) channel ↔
    ∃ c, active_connections m !! cid = Some c ∧ channel ∈ subscribed_channels c.
Proof. intros Hm. apply (inv_channel m). by apply (reachable_inv cfg). Qed.

Lemma connect_refused now ws uid u cid m :
  truthy_user uid = Some u →
  MAX_CONNECTIONS_PER_USER cfg ≤ Z.of_nat (size (get_set (user_connections m) u)) →
  connect cfg now ws uid cid m = (m, Raised (HTTPException 429)).
Proof.
  intros Hu Hcap. unfold connect. rewrite bind_get, Hu.
  apply Z.leb_le in Hcap. by rewrite Hcap.
Qed.

(** In a reachable state every key of the user index passes [if user_id:],
    so under a positive cap the refusal covers every user id, the empty
    string included. *)
Lemma connect_refused_reachable now ws u cid m :
  reachable cfg m →
  0 < MAX_CONNECTIONS_PER_USER cfg →
  MAX_CONNECTIONS_PER_USER cfg ≤ Z.of_nat (size (get_set (user_connections m) u)) →
  connect cfg now ws (Some u) cid m = (m, Raised (HTTPException 429)).
Proof.
  intros Hm Hpos Hcap. apply (connect_refused now ws (Some u) u); [|done].
  apply (reachable_inv cfg) in Hm.
  destruct (decide (get_set (user_connections m) u = ∅)) as [He|He].
  { rewrite He, size_empty in Hcap. lia. }
  apply set_choose_L in He as [cid' Hin].
  apply (inv_user m Hm) in Hin as (c & _ & Hc).
  unfold truthy_user in *. destruct (user_id c) as [s|]; [|done].
  destruct (String.eqb s EmptyString) eqn:Hs; [done|].
  injection Hc as ->. by rewrite Hs.
Qed.

(** C5. An admission carrying a user id whose connection count has reached
    the per-user cap is refused with status 429 before anything is
    written: the manager, that is the registry, the user index, the
    channel index and the store, is exactly as it was. *)
Theorem connect_over_cap now ws uid u cid m :
  truthy_user uid = Some u →
  MAX_CONNECTIONS_PER_USER cfg ≤ Z.of_nat (size (get_set (user_connections m) u)) →
  connect cfg now ws uid cid m = (m, Raised (HTTPException 429)) ∧
  size (active_connections (fst (connect cfg now ws uid cid m))) = size (active_connections m).
Proof.
  intros Hu Hcap. rewrite (connect_refused now ws uid u cid m Hu Hcap). done.
Qed.

(** C6. [disconnect] on an id that is not registered returns without an
    error and leaves the manager exactly as it was; and when [disconnect]
    returns, the id is registered no more, is in no user's connection set
    and in no channel's subscriber set, and no user is left with an empty
    set. *)
Theorem disconnect_idempotent now cid m :
  (active_connections m !! cid = None →
   disconnect now cid m = (m, Returned tt)) ∧
  (registry_inv m →
   ∀ m', disconnect now cid m = (m', Returned tt) →
     active_connections m' !! cid = None ∧
     (∀ u, cid ∉ get_set (user_connections m') u) ∧
     (∀ channel, cid ∉ get_set (channel_subscriptions m') channel) ∧
     nonempty_sets (user_connections m') ∧
     disconnect now cid m' = (m', Returned tt)).
Proof.
  assert (Hnone : ∀ m0, active_connections m0 !! cid = None →
                   disconnect now cid m0 = (m0, Returned tt)).
  { intros m0 Hc. unfold disconnect. by rewrite bind_get, Hc. }
  split; [apply Hnone|].
  intros Hm m' Hd.
  destruct (disconnect_spec now cid m Hm) as [Hm' Hgone].
  rewrite Hd in Hm', Hgone. simpl in *. specialize (Hgone eq_refl).
  split_and!; [done| | |by destruct Hm'|by apply Hnone].
  - intros u Hin. apply (inv_user m' Hm') in Hin as (c & Hc & _). congruence.
  - intros ch Hin. apply (inv_channel m' Hm') in Hin as (c & Hc & _). congruence.
Qed.

End Claims.

Section Broadcast.
Context {RT : PyRuntime} (cfg : Config).

Lemma foldl_union_acc (g : string → gset string) users acc :
  foldl (λ acc u, acc ∪ g u) acc users = acc ∪ ⋃ (g <$> users).
Proof.
  revert acc. induction users as [|u users IH]; intros acc; simpl.
  - set_solver.
  - rewrite IH. set_solver.
Qed.

Lemma union_over_spec users f m :
  union_over users f m = ⋃ ((λ u, f (get_set (user_connections m) u)) <$> users).
Proof.
  unfold union_over.
  rewrite (foldl_union_acc (λ u, f (get_set (user_connections m) u))).
  set_solver.
Qed.

Lemma elem_of_union_connections cid users m :
  cid ∈ union_connections users m ↔
  ∃ u, u ∈ users ∧ cid ∈ get_set (user_connections m) u.
Proof.
  unfold union_connections. rewrite elem_of_union_list. split.
  - intros (X & HX & Hin). apply list_elem_of_fmap in HX as (u & -> & Hu). eauto.
  - intros (u & Hu & Hin). eexists. split; [|done].
    apply list_elem_of_fmap. eauto.
Qed.

(** The filters of the code compute the set of the specification, but for
    an include list that is given and empty. *)
Lemma filter_subscribers_spec message m :
  bm_include_user_ids message ≠ Some [] →
  filter_subscribers message m = spec_recipients message m.
Proof.
  intros Hinc. unfold filter_subscribers, spec_recipients.
  set (subs := get_set (channel_subscriptions m) (bm_channel message)).
  assert (Hin : match truthy_list (bm_include_user_ids message) with
                | Some users => union_over users (λ conns, conns ∩ subs) m
                | None => subs
                end =
                match bm_include_user_ids message with
                | Some users => subs ∩ union_connections users m
                | None => subs
                end).
  { destruct (bm_include_user_ids message) as [[|u users]|]; simpl; [done| |done].
    rewrite union_over_spec. apply set_eq. intros x.
    rewrite elem_of_intersection, elem_of_union_connections, elem_of_union_list.
    split.
    - intros (X & HX & Hx). apply list_elem_of_fmap in HX as (v & -> & Hv).
      apply elem_of_intersection in Hx as [Hx1 Hx2]. eauto.
    - intros (Hs & v & Hv & Hx). eexists. split.
      + apply list_elem_of_fmap. eauto.
      + by apply elem_of_intersection. }
  rewrite Hin.
  destruct (bm_exclude_user_ids message) as [[|u users]|]; simpl; [|by rewrite union_over_spec|done].
  unfold union_connections. simpl. by rewrite difference_empty_L.
Qed.

Lemma filter_ext_in (P Q : string → bool) l :
  (∀ x, x ∈ l → P x = Q x) → List.filter P l = List.filter Q l.
Proof.
  induction l as [|a l IH]; intros Hl; simpl; [done|].
  rewrite (Hl a) by set_solver. rewrite IH; [done|].
  intros x Hx. apply Hl. set_solver.
Qed.

(** The sending loop over distinct targets: it always returns; every
    target whose transport is open gets the message and counts as sent,
    every registered target whose transport refuses counts as failed, and
    nothing else changes. *)
Lemma deliver_spec now message targets :
  NoDup targets →
  ∀ m counts,
  ∃ m',
    deliver now message targets counts m =
      (m', Returned (fst counts + Z.of_nat (length (List.filter (receives m) targets)),
                     snd counts + Z.of_nat (length (List.filter (refuses m) targets)))) ∧
    user_connections m' = user_connections m ∧
    channel_subscriptions m' = channel_subscriptions m ∧
    redis m' = redis m ∧
    ∀ cid,
      active_connections m' !! cid =
      if decide (cid ∈ targets)
      then (λ c, default c (conn_send_message now message c)) <$> active_connections m !! cid
      else active_connections m !! cid.
Proof.
  induction 1 as [|cid rest Hnotin Hnd IH]; intros m counts.
  - exists m. simpl. unfold ret. rewrite !Z.add_0_r. destruct counts.
    split_and!; done.
  - simpl. rewrite bind_get.
    assert (Hstep : ∃ m1 counts1,
      (match active_connections m !! cid with
       | Some _ =>
           try_except
             (send_message now cid message ;;; ret (fst counts + 1, snd counts))
             (λ _, ret (fst counts, snd counts + 1))
       | None => ret counts
       end) m = (m1, Returned counts1) ∧
      fst counts1 = fst counts + (if receives m cid then 1 else 0) ∧
      snd counts1 = snd counts + (if refuses m cid then 1 else 0) ∧
      user_connections m1 = user_connections m ∧
      channel_subscriptions m1 = channel_subscriptions m ∧
      redis m1 = redis m ∧
      active_connections m1 =
        match active_connections m !! cid with
        | Some c => <[cid := default c (conn_send_message now message c)]> (active_connections m)
        | None => active_connections m
        end).
    { unfold receives, refuses, try_except, bind, send_message.
      destruct (active_connections m !! cid) as [c|] eqn:Hc.
      - rewrite Hc. destruct (conn_send_message now message c) as [c'|] eqn:Hs.
        + apply conn_send_message_fields in Hs as (_ & _ & Ho & _).
          rewrite Ho. simpl. eexists _, _. split_and!; try done; simpl; lia.
        + assert (Ho : ws_open (websocket c) = false).
          { unfold conn_send_message, send_text in Hs.
            by destruct (ws_open (websocket c)). }
          rewrite Ho. simpl. eexists _, _. split_and!; try done; simpl; try lia.
          by rewrite insert_id.
      - eexists _, _. unfold ret. split_and!; try done; lia. }
    destruct Hstep as (m1 & counts1 & Hrun & Hs1 & Hf1 & Hu1 & Hch1 & Hr1 & Ha1).
    rewrite (bind_returned _ _ _ _ _ Hrun).
    destruct (IH m1 counts1) as (m' & Hrest & Hu & Hch & Hr & Ha).
    exists m'. rewrite Hrest.
    assert (Hother : ∀ x, x ∈ rest → active_connections m1 !! x = active_connections m !! x).
    { intros x Hx. rewrite Ha1. destruct (active_connections m !! cid); [|done].
      rewrite lookup_insert_ne; [done|]. intros ->. done. }
    assert (Hrec : List.filter (receives m1) rest = List.filter (receives m) rest).
    { apply filter_ext_in. intros x Hx. unfold receives. by rewrite Hother. }
    assert (Href : List.filter (refuses m1) rest = List.filter (refuses m) rest).
    { apply filter_ext_in. intros x Hx. unfold refuses. by rewrite Hother. }
    rewrite Hrec, Href, Hs1, Hf1.
    split_and!; try congruence.
    + do 2 f_equal; f_equal.
      * destruct (receives m cid); simpl; lia.
      * destruct (refuses m cid); simpl; lia.
    + intros x. rewrite Ha.
      destruct (decide (x = cid)) as [->|Hne].
      * rewrite decide_False by done. rewrite decide_True by set_solver.
        rewrite Ha1. destruct (active_connections m !! cid) as [c|] eqn:Hc.
        -- by rewrite lookup_insert_eq.
        -- by rewrite Hc.
      * assert (Hx : active_connections m1 !! x = active_connections m !! x).
        { rewrite Ha1. destruct (active_connections m !! cid); [|done].
          by rewrite lookup_insert_ne. }
        rewrite Hx. repeat case_decide; set_solver.
Qed.

End Broadcast.

Section Persist.
Context {RT : PyRuntime} (cfg : Config).

Lemma redis_command_up f m :
  redis_up (redis m) = true → redis_command f m = (set_redis f m, Returned tt).
Proof. unfold redis_command. by intros ->. Qed.

Lemma redis_up_expire_messages channel ttl r :
  redis_up (redis_expire_messages channel ttl r) = redis_up r.
Proof.
  unfold redis_expire_messages.
  destruct (redis_messages r !! channel) as [[|]|]; try done.
  by destruct (0 <? ttl).
Qed.

Lemma redis_messages_expire_messages channel ttl r :
  0 < ttl →
  redis_messages (redis_expire_messages channel ttl r) = redis_messages r.
Proof.
  intros Httl. unfold redis_expire_messages.
  destruct (redis_messages r !! channel) as [[|]|]; try done.
  by destruct (Z.ltb_spec 0 ttl); [|lia].
Qed.

Lemma retention_seconds_pos :
  0 < MESSAGE_RETENTION_DAYS cfg → 0 < retention_seconds cfg.
Proof. unfold retention_seconds. lia. Qed.

(** With the store reachable and a positive retention, [_persist_message]
    returns, having written to the store only. *)
Lemma _persist_message_up now channel message m :
  redis_up (redis m) = true →
  0 < MESSAGE_RETENTION_DAYS cfg →
  _persist_message cfg now channel message m =
    (set_redis (persist_store cfg now channel message) m, Returned tt).
Proof.
  intros Hup Hret%retention_seconds_pos. unfold _persist_message.
  rewrite (bind_returned _ _ _ _ _ (redis_command_up _ m Hup)).
  erewrite bind_returned; [|by apply redis_command_up].
  erewrite bind_returned; [|by apply redis_command_up].
  unfold redis_set_ex.
  destruct (Z.ltb_spec 0 (retention_seconds cfg)); [|lia].
  rewrite redis_command_up; [done|].
  simpl. by rewrite redis_up_expire_messages.
Qed.

Lemma redis_expire_messages_no_ttl channel ttl r :
  ttl ≤ 0 →
  default [] (redis_messages (redis_expire_messages channel ttl r) !! channel) = [] ∧
  redis_last_activity (redis_expire_messages channel ttl r) = redis_last_activity r.
Proof.
  intros Httl. unfold redis_expire_messages.
  destruct (redis_messages r !! channel) as [[|x l]|] eqn:Hl; simpl.
  - by rewrite Hl.
  - destruct (Z.ltb_spec 0 ttl); [lia|]. simpl. by rewrite lookup_delete_eq.
  - by rewrite Hl.
Qed.

(** With the store reachable and a retention that is not positive,
    [_persist_message] raises: [EXPIRE] has deleted the channel's list and
    [SET ... EX] is refused, so nothing is left of the channel's messages
    and its last-activity entry is as before. *)
Lemma _persist_message_no_retention now channel message m :
  redis_up (redis m) = true →
  MESSAGE_RETENTION_DAYS cfg ≤ 0 →
  ∃ m',
    _persist_message cfg now channel message m = (m', Raised RedisError) ∧
    stored m' channel = [] ∧
    redis_last_activity (redis m') = redis_last_activity (redis m) ∧
    registry m' = registry m.
Proof.
  intros Hup Hret.
  assert (Hsec : retention_seconds cfg ≤ 0) by (unfold retention_seconds; lia).
  unfold _persist_message.
  rewrite (bind_returned _ _ _ _ _ (redis_command_up _ m Hup)).
  erewrite bind_returned; [|by apply redis_command_up].
  erewrite bind_returned; [|by apply redis_command_up].
  unfold redis_set_ex. destruct (Z.ltb_spec 0 (retention_seconds cfg)); [lia|].
  eexists. split; [done|]. unfold stored. cbn [redis set_redis].
  split_and!.
  - by apply redis_expire_messages_no_ttl.
  - by rewrite (proj2 (redis_expire_messages_no_ttl channel _ _ Hsec)).
  - done.
Qed.

Lemma redis_slice_prefix {A} (l : list A) (n : Z) :
  0 < n → redis_slice l 0 (n - 1) = take (Z.to_nat n) l.
Proof.
  intros Hn. unfold redis_slice, redis_index.
  replace (0 <? 0) with false by done.
  destruct (Z.ltb_spec (n - 1) 0) as [?|_]; [lia|].
  rewrite Z.max_id. change (Z.to_nat 0) with 0%nat. rewrite drop_0.
  destruct (decide (Z.of_nat (length l) ≤ n)) as [Hle|Hgt].
  - rewrite Z.min_l by lia.
    rewrite (take_ge l (Z.to_nat n)) by lia.
    destruct (Z.ltb_spec (Z.of_nat (length l) - 1) 0) as [He|He].
    + destruct l; [done|simpl in *; lia].
    + rewrite take_ge; [done|lia].
  - rewrite Z.min_r by lia.
    destruct (Z.ltb_spec (n - 1) 0) as [?|_]; [lia|].
    f_equal. lia.
Qed.

Lemma stored_persist_store now channel message m :
  0 < MESSAGE_RETENTION_DAYS cfg →
  stored (set_redis (persist_store cfg now channel message) m) channel =
  redis_slice (json_dumps message :: stored m channel) 0 (MAX_MESSAGES_PER_CHANNEL cfg - 1).
Proof.
  intros Hret%retention_seconds_pos. unfold stored, persist_store. simpl.
  rewrite redis_messages_expire_messages by done. simpl.
  by rewrite lookup_insert_eq, lookup_insert_eq.
Qed.



End Persist.

Section BroadcastClaims.
Context {RT : PyRuntime} (cfg : Config).

Lemma filter_subscribers_subseteq message m :
  filter_subscribers message m ⊆ get_set (channel_subscriptions m) (bm_channel message).
Proof.
  unfold filter_subscribers.
  set (subs := get_set (channel_subscriptions m) (bm_channel message)).
  assert (Hin : match truthy_list (bm_include_user_ids message) with
                | Some users => union_over users (λ conns, conns ∩ subs) m
                | None => subs
                end ⊆ subs).
  { destruct (truthy_list (bm_include_user_ids message)) as [users|]; [|done].
    rewrite union_over_spec. intros x Hx.
    apply elem_of_union_list in Hx as (X & HX & Hx).
    apply list_elem_of_fmap in HX as (u & -> & _). set_solver. }
  destruct (truthy_list (bm_exclude_user_ids message)); set_solver.
Qed.

(** The whole of [broadcast_to_channel], when it does not have to persist,
    or the store is reachable and the retention positive. *)
Lemma broadcast_to_channel_spec now message mid m :
  (bm_persist message = true →
   redis_up (redis m) = true ∧ 0 < MESSAGE_RETENTION_DAYS cfg) →
  let T := filter_subscribers message m in
  let wsm := ws_message message mid now in
  ∃ m',
    broadcast_to_channel cfg now message mid m =
      (m', Returned {| message_id := mid;
                       sent_count := count_in (receives m) T;
                       failed_count := count_in (refuses m) T |}) ∧
    user_connections m' = user_connections m ∧
    channel_subscriptions m' = channel_subscriptions m ∧
    redis m' = (if bm_persist message
                then persist_store cfg now (bm_channel message) wsm (redis m)
                else redis m) ∧
    ∀ cid,
      outbox m' cid =
      (outbox m cid ++
       if decide (cid ∈ T) then if receives m cid then [json_dumps wsm] else []
       else [])%list.
Proof.
  intros Hup T wsm. unfold broadcast_to_channel. fold wsm.
  set (m0 := if bm_persist message
             then set_redis (persist_store cfg now (bm_channel message) wsm) m
             else m).
  assert (Hp : (if bm_persist message
                then _persist_message cfg now (bm_channel message) wsm
                else ret tt) m = (m0, Returned tt)).
  { subst m0. destruct (bm_persist message); [|done].
    destruct Hup as [Hup Hret]; [done|]. by apply _persist_message_up. }
  rewrite (bind_returned _ _ _ _ _ Hp), bind_get.
  assert (Ha0 : active_connections m0 = active_connections m)
    by (subst m0; by destruct (bm_persist message)).
  assert (HT : filter_subscribers message m0 = T).
  { subst m0 T. by destruct (bm_persist message). }
  rewrite HT.
  destruct (deliver_spec now wsm (elements T) (NoDup_elements T) m0 (0, 0))
    as (m' & Hrun & Hu & Hch & Hr & Ha).
  rewrite (bind_returned _ _ _ _ _ Hrun).
  assert (Hrec : ∀ P, (∀ x, P m0 x = P m x) →
                  0 + Z.of_nat (length (List.filter (P m0) (elements T))) = count_in (P m) T).
  { intros P HP. unfold count_in. rewrite Z.add_0_l. do 2 f_equal.
    apply filter_ext_in. intros x _. apply HP. }
  exists m'. unfold ret. simpl.
  rewrite (Hrec receives), (Hrec refuses);
    [|intros x; unfold refuses; by rewrite Ha0|intros x; unfold receives; by rewrite Ha0].
  split_and!; try done.
  - rewrite Hu. subst m0. by destruct (bm_persist message).
  - rewrite Hch. subst m0. by destruct (bm_persist message).
  - rewrite Hr. subst m0. by destruct (bm_persist message).
  - intros cid. unfold outbox, receives. rewrite Ha, Ha0.
    case_decide as Hin.
    + apply elem_of_elements in Hin. rewrite decide_True by done.
      destruct (active_connections m !! cid) as [c|]; simpl; [|done].
      destruct (conn_send_message now wsm c) as [c'|] eqn:Hs; simpl.
      * apply conn_send_message_fields in Hs as (_ & _ & Ho & _ & _ & ->).
        by rewrite Ho.
      * unfold conn_send_message, send_text in Hs.
        destruct (ws_open (websocket c)); [done|]. by rewrite app_nil_r.
    + rewrite decide_False by (by rewrite <- elem_of_elements).
      by rewrite app_nil_r.
Qed.

Lemma count_in_empty P : count_in P ∅ = 0.
Proof. unfold count_in. by rewrite elements_empty. Qed.

(** The filters of the code compute [recipients], for every message. *)
Lemma filter_subscribers_recipients message m :
  filter_subscribers message m = recipients message m.
Proof.
  unfold recipients.
  destruct (bm_include_user_ids message) as [[|u users]|] eqn:Hinc.
  - set (message' := {| bm_channel := bm_channel message;
                        bm_event := bm_event message;
                        bm_payload := bm_payload message;
                        bm_exclude_user_ids := bm_exclude_user_ids message;
                        bm_include_user_ids := None;
                        bm_persist := bm_persist message |}).
    assert (Heq : filter_subscribers message m = filter_subscribers message' m).
    { unfold filter_subscribers. by rewrite Hinc. }
    rewrite Heq, (filter_subscribers_spec message' m) by done. done.
  - apply filter_subscribers_spec. by rewrite Hinc.
  - apply filter_subscribers_spec. by rewrite Hinc.
Qed.

(** C2 (amended). A broadcast that does not persist, or persists with the
    store reachable and a positive retention, returns, and the message is
    sent to exactly the channel's subscribers that belong to an include
    user, when an include list is given and not empty, and to no exclude
    user, when an exclude list is given; an include list that is given and
    empty narrows nothing.  Each of these connections whose transport
    takes the send receives the message and counts as sent, each whose
    transport refuses counts as failed, and no other connection receives
    anything.  A connection of a user in both lists receives nothing; and
    when no connection of the users of a non-empty include list is
    subscribed, nothing is sent. *)
Theorem broadcast_recipients now message mid m :
  (bm_persist message = true →
   redis_up (redis m) = true ∧ 0 < MESSAGE_RETENTION_DAYS cfg) →
  let subscribers := get_set (channel_subscriptions m) (bm_channel message) in
  let T := recipients message m in
  ∃ m' r,
    broadcast_to_channel cfg now message mid m = (m', Returned r) ∧
    (∀ cid,
       outbox m' cid =
       (outbox m cid ++
        if decide (cid ∈ T)
        then if receives m cid then [json_dumps (ws_message message mid now)] else []
        else [])%list) ∧
    sent_count r = count_in (receives m) T ∧
    failed_count r = count_in (refuses m) T ∧
    (bm_include_user_ids message ≠ Some [] → T = spec_recipients message m) ∧
    (bm_include_user_ids message = Some [] →
     T = match bm_exclude_user_ids message with
         | Some users => subscribers ∖ union_connections users m
         | None => subscribers
         end) ∧
    (∀ u cid include exclude,
       bm_include_user_ids message = Some include →
       bm_exclude_user_ids message = Some exclude →
       u ∈ include → u ∈ exclude →
       cid ∈ get_set (user_connections m) u → cid ∉ T) ∧
    (∀ include,
       bm_include_user_ids message = Some include → include ≠ [] →
       (∀ u, u ∈ include →
          get_set (user_connections m) u ∩ subscribers = ∅) →
       sent_count r = 0).
Proof.
  intros Hup subscribers T.
  destruct (broadcast_to_channel_spec now message mid m Hup)
    as (m' & Hrun & _ & _ & _ & Hout).
  rewrite (filter_subscribers_recipients message m) in Hrun, Hout. fold T in Hrun, Hout.
  assert (Hspec : bm_include_user_ids message ≠ Some [] → T = spec_recipients message m).
  { intros Hinc. subst T. unfold recipients.
    by destruct (bm_include_user_ids message) as [[|]|]. }
  eexists m', _. split; [exact Hrun|]. simpl.
  split_and!; try done.
  - intros Hinc. subst T. unfold recipients. by rewrite Hinc.
  - intros u cid include exclude Hi He Hui Hue Hcid Hin.
    rewrite Hspec in Hin by (rewrite Hi; intros [= ->]; by apply elem_of_nil in Hui).
    unfold spec_recipients in Hin. rewrite Hi, He in Hin.
    apply elem_of_difference in Hin as [_ Hnot]. apply Hnot.
    apply elem_of_union_connections. eauto.
  - intros include Hi Hne Hnone.
    assert (HT : T = ∅).
    { rewrite Hspec by (rewrite Hi; by intros [= ->]).
      unfold spec_recipients. rewrite Hi.
      apply set_eq. intros x. split; [|set_solver].
      intros Hx.
      assert (Hx' : x ∈ get_set (channel_subscriptions m) (bm_channel message)
                        ∩ union_connections include m)
        by (destruct (bm_exclude_user_ids message); set_solver).
      apply elem_of_intersection in Hx' as [Hs Hu].
      apply elem_of_union_connections in Hu as (u & Hu & Hxu).
      specialize (Hnone u Hu). set_solver. }
    rewrite HT. apply count_in_empty.
Qed.

(** C10 (amended). A persisting broadcast to a channel without subscribers,
    with the store reachable and a positive retention, returns the message
    id drawn for it with both counts zero, having pushed the text of the
    message on the channel's list, trimmed the list and set the channel's
    last-activity time, and nothing else; under a positive cap the message
    is the head of the list. *)
Theorem broadcast_without_subscribers now message mid m :
  bm_persist message = true →
  redis_up (redis m) = true →
  0 < MESSAGE_RETENTION_DAYS cfg →
  get_set (channel_subscriptions m) (bm_channel message) = ∅ →
  let channel := bm_channel message in
  let wsm := JDict [("type", JStr "broadcast"); ("channel", JStr channel);
                    ("event", JStr (bm_event message));
                    ("payload", JDict (bm_payload message));
                    ("message_id", JStr mid); ("timestamp", JStr (isoformat now))] in
  let m' := set_redis (persist_store cfg now channel wsm) m in
  broadcast_to_channel cfg now message mid m =
    (m', Returned {| message_id := mid; sent_count := 0; failed_count := 0 |}) ∧
  stored m' channel =
    redis_slice (json_dumps wsm :: stored m channel) 0 (MAX_MESSAGES_PER_CHANNEL cfg - 1) ∧
  (0 < MAX_MESSAGES_PER_CHANNEL cfg → head (stored m' channel) = Some (json_dumps wsm)) ∧
  redis_last_activity (redis m') !! channel =
    Some (isoformat now, MESSAGE_RETENTION_DAYS cfg * 24 * 3600).
Proof.
  intros Hp Hup Hret Hnone channel wsm m'.
  change wsm with (ws_message message mid now) in *.
  assert (HT : filter_subscribers message m' = ∅).
  { pose proof (filter_subscribers_subseteq message m') as Hsub.
    simpl in Hsub. rewrite Hnone in Hsub. set_solver. }
  split_and!.
  - unfold broadcast_to_channel. rewrite Hp.
    rewrite (bind_returned _ _ _ _ _ (_persist_message_up cfg now _ _ m Hup Hret)).
    fold channel m'. rewrite bind_get, HT, elements_empty. done.
  - by apply stored_persist_store.
  - intros Hcap. subst m'. rewrite stored_persist_store, redis_slice_prefix by done.
    destruct (Z.to_nat (MAX_MESSAGES_PER_CHANNEL cfg)) eqn:Hn; [lia|done].
  - subst m'. simpl. by rewrite lookup_insert_eq.
Qed.

End BroadcastClaims.

Section Replay.
Context {RT : PyRuntime} (cfg : Config).

Lemma send_message_open now cid message m c :
  active_connections m !! cid = Some c →
  ws_open (websocket c) = true →
  send_message now cid message m =
    (set_active (<[cid := with_frame now message c]>) m, Returned tt).
Proof.
  intros Hc Ho. unfold send_message, conn_send_message, send_text.
  by rewrite Hc, Ho.
Qed.

Lemma send_message_sent_to now cid message m l :
  sent_to m cid l →
  ∃ m', send_message now cid message m = (m', Returned tt) ∧
        sent_to m' cid (l ++ [json_dumps message]) ∧ redis m' = redis m.
Proof.
  intros (c & Hc & Ho & <-). eexists. split; [by apply send_message_open|].
  split; [|done]. eexists. simpl. rewrite lookup_insert_eq. done.
Qed.

Lemma sent_to_outbox m cid l : sent_to m cid l → outbox m cid = l.
Proof. intros (c & Hc & _ & <-). unfold outbox. by rewrite Hc. Qed.

(** The replay loop: every text that loads as a dictionary is sent
    re-tagged, the others are skipped, and the loop returns. *)
Lemma history_loop now cid items :
  ∀ m l, sent_to m cid l →
  ∃ m',
    for_each items (λ message_data,
      try_except
        (match json_loads message_data with
         | None => raise JSONDecodeError
         | Some (JDict d) =>
             send_message now cid (JDict (dict_set d "type" (JStr "history")))
         | Some _ => raise TypeError
         end)
        (λ _, ret tt)) m = (m', Returned tt) ∧
    sent_to m' cid (l ++ (json_dumps <$> omap history_frame items)) ∧
    redis m' = redis m.
Proof.
  induction items as [|data rest IH]; intros m l Hl; simpl.
  - exists m. rewrite app_nil_r. done.
  - assert (Hstep : ∃ m1,
      try_except
        (match json_loads data with
         | None => raise JSONDecodeError
         | Some (JDict d) =>
             send_message now cid (JDict (dict_set d "type" (JStr "history")))
         | Some _ => raise TypeError
         end)
        (λ _, ret tt) m = (m1, Returned tt) ∧
      sent_to m1 cid (l ++ (json_dumps <$> from_option (λ x, [x]) [] (history_frame data))) ∧
      redis m1 = redis m).
    { unfold history_frame, try_except.
      destruct (json_loads data) as [[| | | | | |d]|]; simpl;
        try (exists m; rewrite app_nil_r; done).
      destruct (send_message_sent_to now cid
                  (JDict (dict_set d "type" (JStr "history"))) m l Hl)
        as (m1 & Hrun & Hs & Hr).
      exists m1. by rewrite Hrun. }
    destruct Hstep as (m1 & Hrun & Hs1 & Hr1).
    rewrite (bind_returned _ _ _ _ _ Hrun).
    destruct (IH m1 _ Hs1) as (m' & Hrest & Hs & Hr).
    exists m'. split; [done|]. split; [|congruence].
    destruct (history_frame data); simpl in *; by rewrite <- ?app_assoc in Hs.
Qed.

Lemma redis_query_up {A} (f : Redis → A) m :
  redis_up (redis m) = true → redis_query f m = (m, Returned (f (redis m))).
Proof. unfold redis_query. by intros ->. Qed.

Lemma _send_channel_history_spec now cid channel m l :
  sent_to m cid l →
  redis_up (redis m) = true →
  ∃ m',
    _send_channel_history now cid channel m = (m', Returned tt) ∧
    sent_to m' cid
      (l ++ (json_dumps <$> omap history_frame (reverse (take 50 (stored m channel))))
         ++ [json_dumps (history_end channel now)]).
Proof.
  intros Hl Hup. unfold _send_channel_history, try_except.
  rewrite (bind_returned _ _ _ _ _ (redis_query_up _ m Hup)).
  unfold redis_lrange. fold (stored m channel).
  pose proof (redis_slice_prefix (stored m channel) 50 eq_refl) as Hslice.
  change (50 - 1) with 49 in Hslice. change (Z.to_nat 50) with 50%nat in Hslice.
  rewrite Hslice.
  destruct (history_loop now cid (reverse (take 50 (stored m channel))) m l Hl)
    as (m1 & Hrun & Hs1 & _).
  rewrite (bind_returned _ _ _ _ _ Hrun).
  destruct (send_message_sent_to now cid (history_end channel now) m1 _ Hs1)
    as (m' & Hsend & Hs & _).
  rewrite Hsend. exists m'. split; [done|]. by rewrite <- app_assoc in Hs.
Qed.

(** C7. A subscribe whose config asks for history, on a connection whose
    transport is open and with the store reachable, returns, and the
    connection is sent, in this order: the subscribe acknowledgment; the
    50 most recent stored messages of the channel that load as a
    dictionary, oldest first, each re-tagged as history, those that do not
    load being skipped; and the history end marker of the channel. *)
Theorem subscribe_history_replay now cid subscription config m c :
  active_connections m !! cid = Some c →
  ws_open (websocket c) = true →
  redis_up (redis m) = true →
  sub_config subscription = Some config →
  truthy (dict_get_default config "send_history" (JBool false)) = true →
  let channel := sub_channel subscription in
  ∃ m',
    subscribe_channel now cid subscription m = (m', Returned tt) ∧
    outbox m' cid =
      (outbox m cid
       ++ [json_dumps (subscription_ack channel now)]
       ++ (json_dumps <$> omap history_frame (reverse (take 50 (stored m channel))))
       ++ [json_dumps (history_end channel now)])%list.
Proof.
  intros Hc Ho Hup Hcfg Hhist channel.
  unfold subscribe_channel. rewrite bind_get, Hc. fold channel.
  rewrite bind_modify. unfold update_connection. rewrite bind_modify.
  match goal with |- context [bind (redis_command ?f) ?k ?m0] => set (m1 := m0) end.
  assert (Hs1 : sent_to m1 cid (outbox m cid)).
  { subst m1. unfold sent_to, outbox. simpl. rewrite Hc, lookup_insert_eq.
    eexists. split; [done|]. done. }
  assert (Hup1 : redis_up (redis m1) = true) by done.
  rewrite (bind_returned _ _ _ _ _ (redis_command_up _ m1 Hup1)).
  set (m2 := set_redis _ m1).
  assert (Hs2 : sent_to m2 cid (outbox m cid)) by done.
  destruct (send_message_sent_to now cid (subscription_ack channel now) m2 _ Hs2)
    as (m3 & Hsend & Hs3 & Hr3).
  rewrite (bind_returned _ _ _ _ _ Hsend), Hcfg, Hhist.
  assert (Hup3 : redis_up (redis m3) = true) by (by rewrite Hr3).
  destruct (_send_channel_history_spec now cid channel m3 _ Hs3 Hup3)
    as (m' & Hrun & Hs).
  exists m'. split; [done|].
  rewrite (sent_to_outbox _ _ _ Hs).
  assert (Hst : stored m3 channel = stored m channel).
  { unfold stored. by rewrite Hr3. }
  rewrite Hst. by rewrite <- !app_assoc.
Qed.

(** C9. A broadcast frame on a connection without a user id does nothing
    beyond the receipt of the frame: handling it leaves the manager as it
    is, and the turn of the loop ends with the connection's last-seen time
    refreshed and nothing else changed: no text is sent to any connection,
    the error frame included, nothing is persisted, and the loop
    continues. *)
Theorem anonymous_broadcast_ignored now cid mid data d m c :
  active_connections m !! cid = Some c →
  truthy_user (user_id c) = None →
  Z.of_nat (String.length data) ≤ MAX_MESSAGE_SIZE cfg →
  json_loads data = Some (JDict d) →
  dict_get d "type" = Some (JStr "broadcast") →
  let m' := set_active (<[cid := set_last_seen now c]>) m in
  (∀ m0, handle_message cfg now cid (user_id c) mid (JDict d) m0 = (m0, Returned tt)) ∧
  websocket_endpoint_turn cfg now cid (user_id c) mid (RecvText data) m = (m', Returned Continue) ∧
  (∀ x, outbox m' x = outbox m x) ∧
  redis m' = redis m ∧
  channel_subscriptions m' = channel_subscriptions m.
Proof.
  intros Hc Hu Hsize Hload Htype m'.
  assert (Hh : ∀ m0, handle_message cfg now cid (user_id c) mid (JDict d) m0
                     = (m0, Returned tt)).
  { intros m0. unfold handle_message, message_type.
    destruct d as [|kv d']; [done|]. simpl truthy. cbn [negb].
    rewrite Htype. simpl. by rewrite Hu. }
  split_and!; [done| | |done|done].
  - unfold websocket_endpoint_turn, websocket_endpoint_iteration, receive_message.
    destruct (Z.ltb_spec (MAX_MESSAGE_SIZE cfg) (Z.of_nat (String.length data)));
      [lia|].
    rewrite Hload. unfold update_connection.
    rewrite (bind_returned _ _ m m' (JDict d)).
    + by rewrite Hh.
    + rewrite bind_modify. unfold ret, set_active. simpl. by rewrite Hc.
  - intros x. unfold outbox. subst m'. simpl.
    destruct (decide (x = cid)) as [->|Hne].
    + by rewrite lookup_insert_eq, Hc.
    + by rewrite lookup_insert_ne.
Qed.

End Replay.

Section FrameErrors.
Context {RT : PyRuntime} (cfg : Config).

(** C4 (amended). On a connection whose transport is open, a frame above
    the size limit does not end the connection: it is dropped unparsed,
    the connection is sent an error frame and the loop continues, with
    nothing else in the manager changed.  A frame that is not JSON is
    answered in the same way, and a frame of an unknown type is ignored;
    the loop continues after both. *)
Theorem frame_errors_answered now cid uid mid data m c :
  active_connections m !! cid = Some c →
  ws_open (websocket c) = true →
  (MAX_MESSAGE_SIZE cfg < Z.of_nat (String.length data) →
   websocket_endpoint_turn cfg now cid uid mid (RecvText data) m =
     (set_active (<[cid := with_frame now (error_frame (ValueError "消息过大") now) c]>) m,
      Returned Continue)) ∧
  (Z.of_nat (String.length data) ≤ MAX_MESSAGE_SIZE cfg →
   json_loads data = None →
   websocket_endpoint_turn cfg now cid uid mid (RecvText data) m =
     (set_active (<[cid := with_frame now (error_frame JSONDecodeError now) c]>) m,
      Returned Continue)) ∧
  (Z.of_nat (String.length data) ≤ MAX_MESSAGE_SIZE cfg →
   ∀ d t,
     json_loads data = Some (JDict d) →
     dict_get d "type" = Some t →
     json_is_str t "subscribe" = false →
     json_is_str t "unsubscribe" = false →
     json_is_str t "ping" = false →
     json_is_str t "broadcast" = false →
     websocket_endpoint_turn cfg now cid uid mid (RecvText data) m =
       (set_active (<[cid := set_last_seen now c]>) m, Returned Continue)).
Proof.
  intros Hc Ho. split_and!.
  - intros Hbig. unfold websocket_endpoint_turn, websocket_endpoint_iteration, receive_message.
    destruct (Z.ltb_spec (MAX_MESSAGE_SIZE cfg) (Z.of_nat (String.length data)));
      [|lia].
    rewrite bind_raise.
    rewrite (bind_returned _ _ _ _ _ (send_message_open now cid _ m c Hc Ho)).
    done.
  - intros Hsmall Hload. unfold websocket_endpoint_turn, websocket_endpoint_iteration, receive_message.
    destruct (Z.ltb_spec (MAX_MESSAGE_SIZE cfg) (Z.of_nat (String.length data)));
      [lia|].
    rewrite Hload, bind_raise.
    rewrite (bind_returned _ _ _ _ _ (send_message_open now cid _ m c Hc Ho)).
    done.
  - intros Hsmall d t Hload Htype H1 H2 H3 H4.
    unfold websocket_endpoint_turn, websocket_endpoint_iteration, receive_message.
    destruct (Z.ltb_spec (MAX_MESSAGE_SIZE cfg) (Z.of_nat (String.length data)));
      [lia|].
    rewrite Hload. unfold update_connection.
    rewrite (bind_returned _ _ m (set_active (<[cid := set_last_seen now c]>) m) (JDict d)).
    + unfold handle_message, message_type.
      destruct d as [|kv d']; [done|].
      change (negb (truthy (JDict (kv :: d')))) with false. cbv iota.
      by rewrite Htype, H1, H2, H3, H4.
    + rewrite bind_modify. unfold ret, set_active. simpl. by rewrite Hc.
Qed.

End FrameErrors.

(** ** Examples, witnesses and counterexamples *)

Lemma room_state_reachable : reachable (RT := sample_runtime) default_config room_state.
Proof. apply reachable_run; [constructor|]. vm_compute. tauto. Qed.

Lemma bidirectional_subscription_invariant_witness :
  "a2" ∈ get_set (channel_subscriptions room_state) "room" ↔
  ∃ c, active_connections room_state !! "a2" = Some c ∧
       "room" ∈ subscribed_channels c.
Proof.
  apply (bidirectional_subscription_invariant (RT := sample_runtime) default_config).
  apply reachable_run; [constructor|]. vm_compute. tauto.
Defined.

Lemma connect_over_cap_witness :
  connect (RT := sample_runtime) one_per_user 5 sample_ws (Some "alice") "a2" alice_once
  = (alice_once, Raised (HTTPException 429)).
Proof.
  apply (proj1 (connect_over_cap (RT := sample_runtime) one_per_user 5 sample_ws
                  (Some "alice") "alice" "a2" alice_once eq_refl
                  ltac:(vm_compute; discriminate))).
Defined.



Lemma frame_errors_answered_witness :
  ∃ c,
    active_connections room_state !! "x1" = Some c ∧
    websocket_endpoint_turn (RT := sample_runtime) default_config 9 "x1" None "mid"
      (RecvText oversized_text) room_state =
    (set_active
       (<[ "x1" := with_frame (RT := sample_runtime) 9
                     (error_frame (RT := sample_runtime) (ValueError "消息过大") 9) c ]>)
       room_state,
     Returned Continue).
Proof.
  destruct (active_connections room_state !! "x1") as [c|] eqn:Hc;
    [|vm_compute in Hc; discriminate].
  exists c. split; [exact eq_refl|].
  assert (Ho : ws_open (websocket c) = true).
  { vm_compute in Hc. injection Hc as <-. reflexivity. }
  apply (proj1 (frame_errors_answered (RT := sample_runtime) default_config
                  9 "x1" None "mid" oversized_text room_state c Hc Ho)).
  vm_compute. reflexivity.
Defined.

(** C4, as stated, fails: after a frame of 65537 bytes under the default
    limit of 65536 the loop continues and the connection is still
    registered and subscribed. *)
Lemma oversized_frame_counterexample :
  let r := websocket_endpoint_turn (RT := sample_runtime) default_config 9 "x1" None "mid"
             (RecvText oversized_text) room_state in
  MAX_MESSAGE_SIZE default_config < Z.of_nat (String.length oversized_text) ∧
  snd r = Returned Continue ∧
  is_Some (active_connections (fst r) !! "x1") ∧
  "x1" ∈ get_set (channel_subscriptions (fst r)) "room".
Proof.
  split_and!.
  - vm_compute. reflexivity.
  - vm_compute. reflexivity.
  - vm_compute. eauto.
  - apply (bool_decide_unpack _). vm_compute. exact I.
Qed.

(** C3: the sweep at 400 s finds [x1] last seen at 1 µs, with a timeout of
    300 s, sends it a heartbeat, and leaves it registered and subscribed:
    the send has refreshed [last_seen] before the timeout is tested. *)
Lemma stale_connection_survives_sweep :
  let m' := fst (_heartbeat_loop_turn (RT := sample_runtime) default_config 400000000 room_state) in
  (last_seen <$> active_connections room_state !! "x1") = Some 1 ∧
  (timed_out default_config 400000000 <$> active_connections room_state !! "x1") = Some true ∧
  (last_seen <$> active_connections m' !! "x1") = Some 400000000 ∧
  "x1" ∈ get_set (channel_subscriptions m') "room".
Proof.
  split_and!.
  - vm_compute. reflexivity.
  - vm_compute. reflexivity.
  - vm_compute. reflexivity.
  - apply (bool_decide_unpack _). vm_compute. exact I.
Qed.

(** C2, as stated, fails on an include list that is given and empty: the
    set the claim describes is empty, and the code sends to all three
    subscribers. *)
Lemma empty_include_counterexample :
  spec_recipients empty_include_broadcast room_state = ∅ ∧
  (sent_count <$>
     match snd (broadcast_to_channel (RT := sample_runtime) default_config 9
                  empty_include_broadcast "mid" room_state) with
     | Returned r => Some r
     | Raised _ => None
     end) = Some 3.
Proof.
  split.
  - apply (bool_decide_unpack _). vm_compute. exact I.
  - vm_compute. reflexivity.
Qed.

Lemma broadcast_recipients_witness :
  ∃ m' r,
    broadcast_to_channel (RT := sample_runtime) default_config 9
      both_lists_broadcast "mid" room_state = (m', Returned r) ∧
    sent_count r = 0 ∧
    "a1" ∉ recipients both_lists_broadcast room_state.
Proof.
  destruct (broadcast_recipients (RT := sample_runtime) default_config 9
              both_lists_broadcast "mid" room_state)
    as (m' & r & Hrun & _ & Hsent & _ & _ & _ & Hboth & _).
  - intros _. split; reflexivity.
  - exists m', r. split; [exact Hrun|]. split.
    + rewrite Hsent. vm_compute. reflexivity.
    + apply (Hboth "alice" "a1" ["alice"] ["alice"]); try reflexivity;
        apply (bool_decide_unpack _); vm_compute; exact I.
Defined.

Lemma disconnect_idempotent_witness :
  disconnect (RT := sample_runtime) 9 "nobody" room_state = (room_state, Returned tt) ∧
  let m' := fst (disconnect (RT := sample_runtime) 9 "a1" room_state) in
  active_connections m' !! "a1" = None ∧
  (∀ u, "a1" ∉ get_set (user_connections m') u) ∧
  (∀ channel, "a1" ∉ get_set (channel_subscriptions m') channel) ∧
  nonempty_sets (user_connections m') ∧
  disconnect (RT := sample_runtime) 9 "a1" m' = (m', Returned tt).
Proof.
  split.
  - apply (proj1 (disconnect_idempotent (RT := sample_runtime) 9 "nobody" room_state)).
    vm_compute. reflexivity.
  - apply (proj2 (disconnect_idempotent (RT := sample_runtime) 9 "a1" room_state)).
    + apply (reachable_inv (RT := sample_runtime) default_config), room_state_reachable.
    + rewrite (surjective_pairing (disconnect (RT := sample_runtime) 9 "a1" room_state)) at 1.
      f_equal.
Defined.

Lemma subscribe_history_replay_witness :
  ∃ m',
    subscribe_channel (RT := sample_runtime) 5 "h1" (history_subscription "room")
      history_state = (m', Returned tt) ∧
    outbox m' "h1" =
      ["connection_ack:"; "subscription_ack:";
       "history:e1"; "history:e2"; "history:e3"; "history_end:"].
Proof.
  destruct (active_connections history_state !! "h1") as [c|] eqn:Hc;
    [|vm_compute in Hc; discriminate].
  assert (Ho : ws_open (websocket c) = true).
  { vm_compute in Hc. injection Hc as <-. reflexivity. }
  destruct (subscribe_history_replay (RT := sample_runtime) 5 "h1"
              (history_subscription "room") [("send_history", JBool true)]
              history_state c Hc Ho)
    as (m' & Hrun & Hout); [reflexivity..|].
  exists m'. split; [exact Hrun|]. rewrite Hout. vm_compute. reflexivity.
Defined.

Lemma anonymous_broadcast_ignored_witness :
  ∃ c,
    active_connections room_state !! "x1" = Some c ∧
    websocket_endpoint_turn (RT := sample_runtime) default_config 9 "x1" (user_id c) "mid"
      (RecvText "broadcast:e9") room_state =
    (set_active (<["x1" := set_last_seen 9 c]>) room_state, Returned Continue).
Proof.
  destruct (active_connections room_state !! "x1") as [c|] eqn:Hc;
    [|vm_compute in Hc; discriminate].
  exists c. split; [exact eq_refl|].
  assert (Hu : user_id c = None).
  { vm_compute in Hc. injection Hc as <-. reflexivity. }
  apply (anonymous_broadcast_ignored (RT := sample_runtime) default_config
           9 "x1" "mid" "broadcast:e9"
           [("type", JStr "broadcast"); ("event", JStr "e9")] room_state c Hc).
  - by rewrite Hu.
  - vm_compute. discriminate.
  - reflexivity.
  - reflexivity.
Defined.

Lemma broadcast_without_subscribers_witness :
  ∃ m',
    broadcast_to_channel (RT := sample_runtime) default_config 9
      (sample_broadcast "room" "e1") "m1" manager_init
    = (m', Returned {| message_id := "m1"; sent_count := 0; failed_count := 0 |}) ∧
    stored m' "room" = ["broadcast:e1"] ∧
    redis_last_activity (redis m') !! "room" = Some ("T", 604800).
Proof.
  destruct (broadcast_without_subscribers (RT := sample_runtime) default_config 9
              (sample_broadcast "room" "e1") "m1" manager_init
              eq_refl eq_refl eq_refl eq_refl)
    as (Hrun & Hstored & _ & Hlast).
  eexists. split; [exact Hrun|]. split.
  - etrans; [exact Hstored|]. vm_compute. reflexivity.
  - etrans; [exact Hlast|]. vm_compute. reflexivity.
Defined.

(** C10, as stated, fails when the store is unreachable: the persisting
    broadcast to a channel without subscribers raises, and nothing has
    been persisted. *)
Lemma persist_store_down_counterexample :
  let message := sample_broadcast "lobby" "e" in
  let r := broadcast_to_channel (RT := sample_runtime) default_config 9
             message "mid" store_down_state in
  bm_persist message = true ∧
  get_set (channel_subscriptions store_down_state) "lobby" = ∅ ∧
  r = (store_down_state, Raised RedisError) ∧
  stored (fst r) "lobby" = [].
Proof.
  split_and!.
  - reflexivity.
  - apply (bool_decide_unpack _). vm_compute. exact I.
  - vm_compute. reflexivity.
  - vm_compute. reflexivity.
Qed.

Section Sweep.
Context {RT : PyRuntime} (cfg : Config).
Implicit Types (cid : string) (S : gset string).

Lemma keeps_ret {A} cid S (a : A) : keeps cid S (ret a).
Proof. by intros m. Qed.

Lemma keeps_raise {A} cid S e : keeps cid S (@raise A e).
Proof. by intros m. Qed.

Lemma keeps_bind {A B} cid S (c : M A) (k : A → M B) :
  keeps cid S c → (∀ a, keeps cid S (k a)) → keeps cid S (bind c k).
Proof.
  intros Hc Hk m Hm. unfold bind. specialize (Hc m Hm).
  destruct (c m) as [m' [a|e]]; simpl in *; [|done]. by apply Hk.
Qed.

Lemma keeps_try_except {A} cid S (c : M A) h :
  keeps cid S c → (∀ e, keeps cid S (h e)) → keeps cid S (try_except c h).
Proof.
  intros Hc Hh m Hm. unfold try_except. specialize (Hc m Hm).
  destruct (c m) as [m' [a|e]]; simpl in *; [done|]. by apply Hh.
Qed.

Lemma keeps_for_each {A} cid S (xs : list A) body :
  (∀ x, x ∈ xs → keeps cid S (body x)) → keeps cid S (for_each xs body).
Proof.
  induction xs as [|x xs IH]; intros Hb; simpl.
  - apply keeps_ret.
  - apply keeps_bind; [apply Hb; set_solver|]. intros _. apply IH.
    intros y Hy. apply Hb. set_solver.
Qed.

(** Stable computations keep everything: they change neither the set of
    registered ids nor the channel index. *)
Lemma stable_keeps {A} cid S (c : M A) : stable c → keeps cid S c.
Proof.
  intros Hc m [Hreg Hsub]. specialize (Hc m). unfold registry in Hc.
  injection Hc as Hv _ Hch. split.
  - destruct Hreg as [c0 Hc0].
    destruct (active_connections (c m).1 !! cid) eqn:Hn; [done|].
    apply view_lookup_None in Hn. rewrite Hv in Hn.
    apply view_lookup_None in Hn. congruence.
  - intros ch Hin. rewrite Hch. by apply Hsub.
Qed.

Lemma keeps_unsubscribe_channel now cid S x channel :
  x ≠ cid → keeps cid S (unsubscribe_channel now x channel).
Proof.
  intros Hne m [Hreg Hsub]. unfold unsubscribe_channel. rewrite bind_get.
  destruct (active_connections m !! x) as [cx|] eqn:Hx; [|by split].
  rewrite bind_modify. unfold update_connection. rewrite bind_modify.
  apply stable_keeps; [auto with stable|].
  split; simpl.
  - rewrite Hx. by rewrite lookup_insert_ne.
  - intros ch Hin. rewrite get_set_discard_from.
    specialize (Hsub ch Hin). case_decide; set_solver.
Qed.

Lemma keeps_disconnect now cid S x : x ≠ cid → keeps cid S (disconnect now x).
Proof.
  intros Hne m Hm. unfold disconnect. rewrite bind_get.
  destruct (active_connections m !! x) as [cx|] eqn:Hx; [|done].
  assert (Hk : keeps cid S
    (for_each (elements (subscribed_channels cx))
       (λ channel, unsubscribe_channel now x channel) ;;;
     match truthy_user (user_id cx) with
     | Some u => modify (set_users (discard_from u x))
     | None => ret tt
     end ;;;
     modify (set_active (delete x)) ;;; _remove_connection_info x)).
  { apply keeps_bind.
    { apply keeps_for_each. intros ch _. by apply keeps_unsubscribe_channel. }
    intros _. apply keeps_bind.
    { destruct (truthy_user (user_id cx)); [|apply keeps_ret].
      by intros m0 [Hreg Hsub]. }
    intros _. apply keeps_bind; [|intros _; apply stable_keeps; auto with stable].
    intros m0 [Hreg Hsub]. split; [|done]. simpl. by rewrite lookup_delete_ne. }
  by apply Hk.
Qed.

(** A heartbeat that is sent refreshes [last_seen], so the timeout test
    that follows it sees no time elapsed. *)
Lemma with_frame_not_timed_out now message c :
  0 ≤ CONNECTION_TIMEOUT cfg → timed_out cfg now (with_frame now message c) = false.
Proof.
  intros Ht. unfold timed_out, with_frame. simpl.
  destruct (Z.ltb_spec (CONNECTION_TIMEOUT cfg * 1000000) (now - now)); [lia|done].
Qed.

(** The first loop of a sweep returns, collects no connection whose
    transport is open, and leaves such a transport open. *)
Lemma heartbeat_collect_open now cid cids :
  0 ≤ CONNECTION_TIMEOUT cfg →
  ∀ m disconnected,
    open_in m cid → cid ∉ disconnected →
    ∃ m' disconnected',
      heartbeat_collect cfg now cids disconnected m = (m', Returned disconnected') ∧
      open_in m' cid ∧ cid ∉ disconnected'.
Proof.
  intros Ht. induction cids as [|x rest IH]; intros m d Hopen Hd; simpl.
  - by exists m, d.
  - assert (Hstep : ∃ m1 d1,
      try_except
        (send_message now x (heartbeat now) ;;;
         let* m0 := get in
         match active_connections m0 !! x with
         | Some connection =>
             if timed_out cfg now connection then ret (d ++ [x])%list else ret d
         | None => ret d
         end)
        (λ _, ret (d ++ [x])%list) m = (m1, Returned d1) ∧
      open_in m1 cid ∧ cid ∉ d1).
    { unfold try_except.
      destruct (active_connections m !! x) as [cx|] eqn:Hx.
      - destruct (ws_open (websocket cx)) eqn:Hox.
        + rewrite (bind_returned _ _ _ _ _ (send_message_open now x _ m cx Hx Hox)).
          rewrite bind_get. simpl. rewrite lookup_insert_eq.
          rewrite with_frame_not_timed_out by done.
          eexists _, _. split; [done|]. split; [|done].
          destruct Hopen as (c & Hc & Ho).
          destruct (decide (x = cid)) as [->|Hne].
          * eexists. simpl. by rewrite lookup_insert_eq.
          * exists c. simpl. by rewrite lookup_insert_ne.
        + assert (Hxc : x ≠ cid).
          { intros ->. destruct Hopen as (c & Hc & Ho). congruence. }
          unfold bind, send_message, conn_send_message, send_text.
          rewrite Hx, Hox. eexists _, _. split; [done|]. split; [done|].
          set_solver.
      - assert (Hxc : x ≠ cid).
        { intros ->. destruct Hopen as (c & Hc & Ho). congruence. }
        unfold bind, send_message. rewrite Hx.
        eexists _, _. split; [done|]. split; [done|]. set_solver. }
    destruct Hstep as (m1 & d1 & Hrun & Hopen1 & Hd1).
    rewrite (bind_returned _ _ _ _ _ Hrun). by apply IH.
Qed.

(** X20. However long ago it was last seen, a connection whose transport takes
    the heartbeat outlives the sweep, with all its entries in the channel
    index: the timeout test of the sweep never fires. *)
Lemma heartbeat_sweep_keeps_open now m cid :
  0 ≤ CONNECTION_TIMEOUT cfg →
  open_in m cid →
  let m' := fst (_heartbeat_loop_turn cfg now m) in
  is_Some (active_connections m' !! cid) ∧
  ∀ channel,
    cid ∈ get_set (channel_subscriptions m) channel →
    cid ∈ get_set (channel_subscriptions m') channel.
Proof.
  intros Ht Hopen.
  set (S := filter (λ ch, cid ∈ get_set (channel_subscriptions m) ch)
              (dom (channel_subscriptions m))).
  assert (HS : ∀ ch, ch ∈ S ↔ cid ∈ get_set (channel_subscriptions m) ch).
  { intros ch. subst S. rewrite elem_of_filter, elem_of_dom. split; [tauto|].
    intros Hin. split; [done|]. unfold get_set in Hin.
    destruct (channel_subscriptions m !! ch); [done|set_solver]. }
  assert (Hkept : kept cid S (fst (_heartbeat_loop_turn cfg now m))).
  { unfold _heartbeat_loop_turn, try_except. rewrite bind_get.
    destruct (heartbeat_collect_open now cid
                (map fst (map_to_list (active_connections m))) Ht m [] Hopen)
      as (m1 & d & Hrun & Hopen1 & Hd); [set_solver|].
    rewrite (bind_returned _ _ _ _ _ Hrun).
    assert (Hk1 : kept cid S m1).
    { pose proof (stable_keeps cid S _ (stable_heartbeat_collect cfg now
                    (map fst (map_to_list (active_connections m))) []) m) as Hk.
      rewrite Hrun in Hk. apply Hk. split.
      - destruct Hopen as (c & -> & _). done.
      - intros ch. apply HS. }
    assert (Hloop : keeps cid S (for_each d (disconnect now))).
    { apply keeps_for_each. intros x Hx. apply keeps_disconnect.
      intros ->. done. }
    specialize (Hloop m1 Hk1).
    destruct (for_each d (disconnect now) m1) as [m2 [[]|e]]; done. }
  destruct Hkept as [Hreg Hsub]. split; [done|].
  intros ch Hin. apply Hsub. by apply HS.
Qed.

End Sweep.

(** C3, when the peer is gone: the heartbeat fails and the sweep calls
    [disconnect], whose first [unsubscribe_channel] raises on its
    acknowledgment; the sweep ends there, with [x1] still registered and
    still holding one of its two subscriptions. *)
Lemma dead_connection_survives_sweep :
  let m' := fst (_heartbeat_loop_turn (RT := sample_runtime) default_config
                   400000000 dead_peer_state) in
  (timed_out default_config 400000000 <$> active_connections dead_peer_state !! "x1")
    = Some true ∧
  (size ∘ subscribed_channels <$> active_connections m' !! "x1") = Some 1%nat ∧
  size (filter (λ ch, "x1" ∈ get_set (channel_subscriptions m') ch)
          (dom (channel_subscriptions m'))) = 1%nat.
Proof.
  split_and!; vm_compute; reflexivity.
Qed.

Section UserIndex.
Context {RT : PyRuntime} (cfg : Config).

(** X1. In every reachable state the user index agrees with the registered
    connections: an id is in a user's set exactly when the connection is
    registered under that user id; no id is in the sets of two users; and
    neither the user index nor the channel index holds an empty set. *)
Theorem user_index_invariant m :
  reachable cfg m →
  (∀ cid u,
     cid ∈ get_set (user_connections m) u ↔
     ∃ c, active_connections m !! cid = Some c ∧ truthy_user (user_id c) = Some u) ∧
  (∀ cid u u',
     cid ∈ get_set (user_connections m) u →
     cid ∈ get_set (user_connections m) u' → u = u') ∧
  nonempty_sets (user_connections m) ∧
  nonempty_sets (channel_subscriptions m).
Proof.
  intros Hm. apply (reachable_inv cfg) in Hm. destruct Hm as [I1 I2 I3 I4].
  split_and!; try done.
  intros cid u u' Hu Hu'.
  apply I3 in Hu as (c & Hc & Hcu). apply I3 in Hu' as (c' & Hc' & Hcu').
  congruence.
Qed.

Lemma users_shrink_ret {A} (a : A) : users_shrink (ret a).
Proof. by intros m u. Qed.

Lemma users_shrink_raise {A} e : users_shrink (@raise A e).
Proof. by intros m u. Qed.

Lemma users_shrink_bind {A B} (c : M A) (k : A → M B) :
  users_shrink c → (∀ a, users_shrink (k a)) → users_shrink (bind c k).
Proof.
  intros Hc Hk m u. unfold bind. specialize (Hc m u).
  destruct (c m) as [m' [a|e]]; simpl in *; [|done].
  etrans; [apply Hk|done].
Qed.

Lemma users_shrink_try_except {A} (c : M A) h :
  users_shrink c → (∀ e, users_shrink (h e)) → users_shrink (try_except c h).
Proof.
  intros Hc Hh m u. unfold try_except. specialize (Hc m u).
  destruct (c m) as [m' [a|e]]; simpl in *; [done|].
  etrans; [apply Hh|done].
Qed.

Lemma users_shrink_for_each {A} (xs : list A) body :
  (∀ x, users_shrink (body x)) → users_shrink (for_each xs body).
Proof.
  intros Hb. induction xs as [|x xs IH]; simpl.
  - apply users_shrink_ret.
  - apply users_shrink_bind; auto.
Qed.

Lemma stable_users_shrink {A} (c : M A) : stable c → users_shrink c.
Proof.
  intros Hc m u. specialize (Hc m). unfold registry in Hc.
  injection Hc as _ Hu _. by rewrite Hu.
Qed.

Lemma users_shrink_modify f :
  (∀ m u, get_set (user_connections (f m)) u ⊆ get_set (user_connections m) u) →
  users_shrink (modify f).
Proof. intros Hf m u. apply Hf. Qed.

Lemma users_shrink_subscribe_channel now cid subscription :
  users_shrink (subscribe_channel now cid subscription).
Proof.
  unfold subscribe_channel.
  apply users_shrink_bind; [by apply stable_users_shrink, stable_get|]. intros m.
  destruct (active_connections m !! cid); [|apply users_shrink_raise].
  apply users_shrink_bind; [by apply users_shrink_modify|]. intros _.
  apply users_shrink_bind; [by apply users_shrink_modify|]. intros _.
  apply stable_users_shrink.
  apply stable_bind; [auto with stable|]. intros _.
  apply stable_bind; [auto with stable|]. intros _.
  destruct (sub_config subscription) as [config|]; [|auto with stable].
  destruct (truthy _); auto with stable.
Qed.

Lemma users_shrink_unsubscribe_channel now cid channel :
  users_shrink (unsubscribe_channel now cid channel).
Proof.
  unfold unsubscribe_channel.
  apply users_shrink_bind; [by apply stable_users_shrink, stable_get|]. intros m.
  destruct (active_connections m !! cid); [|apply users_shrink_ret].
  apply users_shrink_bind; [by apply users_shrink_modify|]. intros _.
  apply users_shrink_bind; [by apply users_shrink_modify|]. intros _.
  apply stable_users_shrink. auto with stable.
Qed.

Lemma users_shrink_disconnect now cid : users_shrink (disconnect now cid).
Proof.
  unfold disconnect.
  apply users_shrink_bind; [by apply stable_users_shrink, stable_get|]. intros m.
  destruct (active_connections m !! cid) as [c|]; [|apply users_shrink_ret].
  apply users_shrink_bind.
  { apply users_shrink_for_each. intros ch. apply users_shrink_unsubscribe_channel. }
  intros _. apply users_shrink_bind.
  { destruct (truthy_user (user_id c)) as [u|]; [|apply users_shrink_ret].
    apply users_shrink_modify. intros m0 u'. simpl.
    rewrite get_set_discard_from. case_decide; set_solver. }
  intros _. apply users_shrink_bind; [by apply users_shrink_modify|].
  intros _. apply stable_users_shrink. auto with stable.
Qed.

Lemma users_shrink_unsubscribe_channel_any now cid channel :
  users_shrink (unsubscribe_channel_any now cid channel).
Proof.
  assert (Hother : ∀ v, users_shrink (
    let* m := get in
    match active_connections m !! cid with
    | None => ret tt
    | Some _ =>
        match v with
        | JList _ | JDict _ => raise TypeError
        | _ =>
            redis_command (redis_srem (json_str v) cid) ;;;
            send_message now cid
              (JDict [("type", JStr "unsubscription_ack"); ("channel", v);
                      ("timestamp", JStr (isoformat now))])
        end
    end)).
  { intros v. apply stable_users_shrink.
    apply stable_bind; [auto with stable|]. intros m.
    destruct (active_connections m !! cid); [|auto with stable].
    destruct v; auto with stable. }
  destruct channel; try apply Hother.
  apply users_shrink_unsubscribe_channel.
Qed.

Lemma users_shrink_handle_message now cid uid mid message :
  users_shrink (handle_message cfg now cid uid mid message).
Proof.
  unfold handle_message.
  destruct (message_type message) as [[[d t]|]|e];
    [|apply users_shrink_ret|apply users_shrink_raise].
  destruct (json_is_str t "subscribe").
  { destruct (truthy _); [|apply users_shrink_ret].
    destruct (make_subscription _ _ _);
      [apply users_shrink_subscribe_channel|apply users_shrink_raise]. }
  destruct (json_is_str t "unsubscribe").
  { destruct (truthy _); [|apply users_shrink_ret].
    apply users_shrink_unsubscribe_channel_any. }
  destruct (json_is_str t "ping"); [apply stable_users_shrink; auto with stable|].
  destruct (json_is_str t "broadcast"); [|apply users_shrink_ret].
  destruct (truthy_user uid); [|apply users_shrink_ret].
  destruct (_ && _); [|apply users_shrink_ret].
  destruct (make_broadcast _ _ _); apply stable_users_shrink; auto with stable.
Qed.

Lemma users_shrink_websocket_endpoint_turn now cid uid mid ev :
  users_shrink (websocket_endpoint_turn cfg now cid uid mid ev).
Proof.
  assert (Hit : users_shrink (websocket_endpoint_iteration cfg now cid uid mid ev)).
  { intros m u. unfold websocket_endpoint_iteration.
    assert (Hin : users_shrink (let* message := receive_message cfg now cid ev in
                                handle_message cfg now cid uid mid message)).
    { apply users_shrink_bind;
        [apply stable_users_shrink, stable_receive_message|].
      intros message. apply users_shrink_handle_message. }
    specialize (Hin m u).
    destruct ((let* message := receive_message cfg now cid ev in
               handle_message cfg now cid uid mid message) m) as [m' [[]|e]];
      simpl in Hin; [done|].
    assert (Hs : users_shrink (send_message now cid (error_frame e now) ;;; ret Continue))
      by (apply stable_users_shrink; auto with stable).
    specialize (Hs m' u).
    destruct e; simpl; try done; by etrans. }
  intros m u. unfold websocket_endpoint_turn. specialize (Hit m u).
  assert (Hd : users_shrink (disconnect now cid ;;; ret Break)).
  { apply users_shrink_bind; [apply users_shrink_disconnect|].
    intros _. apply users_shrink_ret. }
  destruct (websocket_endpoint_iteration cfg now cid uid mid ev m) as [m' [[]|e]];
    simpl in Hit; try done; (etrans; [apply Hd|done]).
Qed.

Lemma users_shrink_heartbeat_loop_turn now :
  users_shrink (_heartbeat_loop_turn cfg now).
Proof.
  unfold _heartbeat_loop_turn.
  apply users_shrink_try_except; [|intros e; apply users_shrink_ret].
  apply users_shrink_bind; [by apply stable_users_shrink, stable_get|]. intros m.
  apply users_shrink_bind;
    [apply stable_users_shrink, stable_heartbeat_collect|].
  intros d. apply users_shrink_for_each. intros cid. apply users_shrink_disconnect.
Qed.

(** What [connect] does to the user index: nothing, or one id more in the
    set of a user who was below the cap. *)
Lemma connect_user_connections now ws uid cid m :
  user_connections (fst (connect cfg now ws uid cid m)) = user_connections m ∨
  ∃ u, user_connections (fst (connect cfg now ws uid cid m))
       = add_to u cid (user_connections m) ∧
       Z.of_nat (size (get_set (user_connections m) u)) < MAX_CONNECTIONS_PER_USER cfg.
Proof.
  unfold connect. rewrite bind_get.
  assert (Hrest : ∀ c m0,
    user_connections (fst ((_store_connection_info cfg c ;;;
       send_message now cid (connection_ack cid now) ;;; ret cid) m0))
    = user_connections m0).
  { intros c m0.
    assert (Hs : stable (_store_connection_info cfg c ;;;
                         send_message now cid (connection_ack cid now) ;;; ret cid))
      by auto 10 with stable.
    specialize (Hs m0). unfold registry in Hs. by injection Hs. }
  destruct (truthy_user uid) as [u|].
  - destruct (Z.leb_spec (MAX_CONNECTIONS_PER_USER cfg)
                (Z.of_nat (size (get_set (user_connections m) u)))) as [Hle|Hlt];
      [by left|].
    rewrite bind_ret.
    destruct (new_connection now cid ws uid) as [c|]; [|by left].
    destruct (ws_open ws); [|by left].
    rewrite bind_ret, !bind_modify, Hrest. right. exists u. done.
  - rewrite bind_ret.
    destruct (new_connection now cid ws uid) as [c|]; [|by left].
    destruct (ws_open ws); [|by left].
    rewrite bind_ret, bind_modify, bind_ret, Hrest. by left.
Qed.

Lemma apply_op_users_bounded now o m :
  users_bounded cfg m → users_bounded cfg (apply_op cfg now o m).
Proof.
  intros Hm.
  assert (Hshrink : ∀ m', (∀ u, get_set (user_connections m') u
                                ⊆ get_set (user_connections m) u) →
                          users_bounded cfg m').
  { intros m' Hsub u. specialize (Hsub u). specialize (Hm u).
    apply subseteq_size in Hsub. lia. }
  destruct o; cbn [apply_op].
  - destruct (connect_user_connections now ws uid cid m) as [Heq|(u & Heq & Hlt)].
    + intros u. rewrite Heq. apply Hm.
    + intros u'. rewrite Heq, get_set_add_to. case_decide; [subst u'|apply Hm].
      pose proof (size_union_alt {[cid]} (get_set (user_connections m) u)) as Hsz.
      rewrite size_singleton in Hsz.
      assert (size (get_set (user_connections m) u ∖ {[cid]})
              <= size (get_set (user_connections m) u))%nat
        by (apply subseteq_size; set_solver).
      lia.
  - apply Hshrink. intros u. apply users_shrink_disconnect.
  - apply Hshrink. intros u. apply users_shrink_subscribe_channel.
  - apply Hshrink. intros u. apply users_shrink_unsubscribe_channel.
  - apply Hshrink. intros u. apply stable_users_shrink. auto with stable.
  - apply Hshrink. intros u. apply stable_users_shrink.
    unfold send_to_user. auto with stable.
  - apply Hshrink. intros u. apply users_shrink_websocket_endpoint_turn.
  - apply Hshrink. intros u. apply users_shrink_heartbeat_loop_turn.
  - apply Hshrink. intros u. apply stable_users_shrink.
    by apply stable_update_connection.
  - apply Hshrink. intros u. done.
Qed.

(** X2. Under a cap that is not negative, no user ever holds more
    connections than [MAX_CONNECTIONS_PER_USER], in any reachable state. *)
Theorem per_user_cap_invariant m u :
  0 ≤ MAX_CONNECTIONS_PER_USER cfg →
  reachable cfg m →
  Z.of_nat (size (get_set (user_connections m) u)) ≤ MAX_CONNECTIONS_PER_USER cfg.
Proof.
  intros Hcap Hm. revert u.
  induction Hm as [|m now o _ IH _].
  - intros u.
    replace (get_set (user_connections manager_init) u) with (∅ : gset string) by done.
    rewrite size_empty. lia.
  - by apply apply_op_users_bounded.
Qed.

End UserIndex.

Lemma user_index_invariant_witness :
  "a1" ∈ get_set (user_connections room_state) "alice" ↔
  ∃ c, active_connections room_state !! "a1" = Some c ∧
       truthy_user (user_id c) = Some "alice".
Proof.
  apply (user_index_invariant (RT := sample_runtime) default_config room_state).
  apply room_state_reachable.
Defined.

Lemma per_user_cap_invariant_witness :
  Z.of_nat (size (get_set (user_connections room_state) "alice")) ≤ 10.
Proof.
  apply (per_user_cap_invariant (RT := sample_runtime) default_config room_state "alice").
  - vm_compute. discriminate.
  - apply room_state_reachable.
Defined.

Section Subscriptions.
Context {RT : PyRuntime} (cfg : Config).

Lemma discard_from_add_to (d : gmap string (gset string)) k x :
  nonempty_sets d → x ∉ get_set d k → discard_from k x (add_to k x d) = d.
Proof.
  intros Hne Hx. unfold discard_from, add_to. rewrite lookup_insert_eq.
  assert (Hs : ({[x]} ∪ get_set d k) ∖ {[x]} = get_set d k) by set_solver.
  rewrite Hs. unfold get_set in *.
  destruct (d !! k) as [s|] eqn:Hk; simpl in *.
  - rewrite decide_False by (by apply (Hne k)).
    rewrite insert_insert_eq. by apply insert_id.
  - rewrite decide_True by done. rewrite delete_insert_eq. by apply delete_id.
Qed.

Lemma discard_from_absent (d : gmap string (gset string)) k x :
  nonempty_sets d → x ∉ get_set d k → discard_from k x d = d.
Proof.
  intros Hne Hx. unfold discard_from, get_set in *.
  destruct (d !! k) as [s|] eqn:Hk; simpl in *; [|done].
  assert (Hs : s ∖ {[x]} = s) by set_solver. rewrite Hs.
  rewrite decide_False by (by apply (Hne k)). by apply insert_id.
Qed.

(** The registry [subscribe_channel] leaves, whatever its outcome. *)
Lemma subscribe_channel_registry now cid subscription m c :
  active_connections m !! cid = Some c →
  registry (fst (subscribe_channel now cid subscription m)) =
  (<[cid := (user_id c, {[sub_channel subscription]} ∪ subscribed_channels c)]> (view m),
   user_connections m,
   add_to (sub_channel subscription) cid (channel_subscriptions m)).
Proof.
  intros Hc. unfold subscribe_channel. rewrite bind_get, Hc.
  rewrite bind_modify. unfold update_connection. rewrite bind_modify.
  match goal with |- context [fst (?k ?m0)] => set (rest := k); set (m1 := m0) end.
  assert (Hst : stable rest).
  { subst rest. apply stable_bind; [auto with stable|]. intros _.
    apply stable_bind; [auto with stable|]. intros _.
    destruct (sub_config subscription) as [config|]; [|auto with stable].
    destruct (truthy _); auto with stable. }
  rewrite (Hst m1). subst m1. unfold registry, view. simpl.
  by rewrite Hc, fmap_insert.
Qed.

(** The registry [unsubscribe_channel] leaves, whatever its outcome. *)
Lemma unsubscribe_channel_registry now cid channel m c :
  active_connections m !! cid = Some c →
  registry (fst (unsubscribe_channel now cid channel m)) =
  (<[cid := (user_id c, subscribed_channels c ∖ {[channel]})]> (view m),
   user_connections m,
   discard_from channel cid (channel_subscriptions m)).
Proof.
  intros Hc. unfold unsubscribe_channel. rewrite bind_get, Hc.
  rewrite bind_modify. unfold update_connection. rewrite bind_modify.
  match goal with |- context [fst (?k ?m0)] => set (rest := k); set (m1 := m0) end.
  assert (Hst : stable rest) by (subst rest; auto with stable).
  rewrite (Hst m1). subst m1. unfold registry, view. simpl.
  by rewrite Hc, fmap_insert.
Qed.

(** X3. A subscribe on a registered connection has subscribed it even when
    the call raises (store unreachable, transport closed, config [None]):
    afterwards the id is in the channel's subscriber set and the channel in
    the connection's own set, the other channels and the user index being
    as before. *)
Theorem subscribe_channel_takes_effect now cid subscription m c :
  active_connections m !! cid = Some c →
  let m' := fst (subscribe_channel now cid subscription m) in
  let channel := sub_channel subscription in
  cid ∈ get_set (channel_subscriptions m') channel ∧
  (∃ c', active_connections m' !! cid = Some c' ∧
         user_id c' = user_id c ∧
         subscribed_channels c' = {[channel]} ∪ subscribed_channels c) ∧
  (∀ other, other ≠ channel →
     get_set (channel_subscriptions m') other = get_set (channel_subscriptions m) other) ∧
  user_connections m' = user_connections m.
Proof.
  intros Hc m' channel.
  pose proof (subscribe_channel_registry now cid subscription m c Hc) as Hr.
  fold m' channel in Hr. unfold registry in Hr. injection Hr as Hv Hu Hch.
  split_and!; [| |intros other Hne|done].
  - rewrite Hch, get_set_add_to, decide_True by done. set_solver.
  - assert (Hl : view m' !! cid
                 = Some (user_id c, {[channel]} ∪ subscribed_channels c))
      by (by rewrite Hv, lookup_insert_eq).
    apply view_lookup_inv in Hl as (c' & Hc' & Hu' & Hs'). eauto.
  - by rewrite Hch, get_set_add_to, decide_False.
Qed.

(** X4. Unsubscribing a registered connection from a channel it is not
    subscribed to leaves the registry and both indexes as they are, in a
    state that satisfies the registry invariants; the call still writes to
    the store and sends the acknowledgment, so it returns when the store is
    reachable and the transport open. *)
Theorem unsubscribe_channel_not_subscribed now cid channel m c :
  registry_inv m →
  active_connections m !! cid = Some c →
  channel ∉ subscribed_channels c →
  registry (fst (unsubscribe_channel now cid channel m)) = registry m ∧
  (redis_up (redis m) = true → ws_open (websocket c) = true →
   snd (unsubscribe_channel now cid channel m) = Returned tt ∧
   outbox (fst (unsubscribe_channel now cid channel m)) cid =
     (outbox m cid ++ [json_dumps (unsubscription_ack channel now)])%list).
Proof.
  intros Hm Hc Hch. split.
  - rewrite (unsubscribe_channel_registry now cid channel m c Hc).
    unfold registry. f_equal; [f_equal|].
    + assert (Hs : subscribed_channels c ∖ {[channel]} = subscribed_channels c)
        by set_solver.
      rewrite Hs. apply insert_id. by apply view_lookup_Some.
    + apply discard_from_absent; [by destruct Hm|].
      intros Hin. apply (inv_channel m Hm) in Hin as (c0 & Hc0 & Hin). congruence.
  - intros Hup Ho. unfold unsubscribe_channel. rewrite bind_get, Hc.
    rewrite bind_modify. unfold update_connection. rewrite bind_modify.
    erewrite bind_returned; [|by apply redis_command_up].
    erewrite send_message_open; [|simpl; rewrite Hc; apply lookup_insert_eq|done].
    split; [done|]. unfold outbox. simpl. by rewrite lookup_insert_eq, Hc.
Qed.

(** X5. Subscribe followed by unsubscribe restores the registry: for a
    connection that was not subscribed to the channel, in a state that
    satisfies the registry invariants, the registered connections' user
    ids and subscriptions, the user index and the channel index are what
    they were, whatever the outcomes of the two calls. *)
Theorem subscribe_unsubscribe_round_trip now now' cid subscription m c :
  registry_inv m →
  active_connections m !! cid = Some c →
  sub_channel subscription ∉ subscribed_channels c →
  registry (fst (unsubscribe_channel now' cid (sub_channel subscription)
                   (fst (subscribe_channel now cid subscription m))))
  = registry m.
Proof.
  intros Hm Hc Hch.
  set (channel := sub_channel subscription) in *.
  set (m1 := fst (subscribe_channel now cid subscription m)).
  pose proof (subscribe_channel_registry now cid subscription m c Hc) as Hr1.
  fold m1 channel in Hr1. unfold registry in Hr1. injection Hr1 as Hv1 Hu1 Hch1.
  assert (Hl : view m1 !! cid = Some (user_id c, {[channel]} ∪ subscribed_channels c))
    by (by rewrite Hv1, lookup_insert_eq).
  apply view_lookup_inv in Hl as (c1 & Hc1 & Hu' & Hs').
  rewrite (unsubscribe_channel_registry now' cid channel m1 c1 Hc1).
  rewrite Hv1, Hu1, Hch1, Hu', Hs'. unfold registry. f_equal; [f_equal|].
  - rewrite insert_insert_eq.
    assert (Hs : ({[channel]} ∪ subscribed_channels c) ∖ {[channel]}
                 = subscribed_channels c) by set_solver.
    rewrite Hs. apply insert_id. by apply view_lookup_Some.
  - apply discard_from_add_to; [by destruct Hm|].
    intros Hin. apply (inv_channel m Hm) in Hin as (c0 & Hc0 & Hin). congruence.
Qed.

(** X6. [disconnect] cannot remove a connection whose transport is closed
    while it holds a subscription: the acknowledgment of the first
    [unsubscribe_channel] (or the store command before it) raises, the
    exception leaves [disconnect], and the connection stays registered.
    The [finally] clause of the endpoint meets the same fate after the peer
    has closed. *)
Theorem disconnect_closed_subscribed now cid m c :
  active_connections m !! cid = Some c →
  ws_open (websocket c) = false →
  subscribed_channels c ≠ ∅ →
  (∃ e, snd (disconnect now cid m) = Raised e) ∧
  is_Some (active_connections (fst (disconnect now cid m)) !! cid) ∧
  ∀ uid mid,
    is_Some (active_connections
               (fst (websocket_endpoint_turn cfg now cid uid mid RecvDisconnect m)) !! cid).
Proof.
  intros Hc Ho Hne.
  assert (Hd : (∃ e, snd (disconnect now cid m) = Raised e) ∧
               is_Some (active_connections (fst (disconnect now cid m)) !! cid)).
  { unfold disconnect. rewrite bind_get, Hc.
    destruct (elements (subscribed_channels c)) as [|ch rest] eqn:Hel.
    { apply elements_empty_inv in Hel. by apply leibniz_equiv in Hel. }
    simpl.
    assert (Hun : ∃ m1 e, unsubscribe_channel now cid ch m = (m1, Raised e) ∧
                          is_Some (active_connections m1 !! cid)).
    { unfold unsubscribe_channel. rewrite bind_get, Hc.
      rewrite bind_modify. unfold update_connection. rewrite bind_modify.
      match goal with |- context [bind (redis_command ?f) ?k ?m0] => set (m1 := m0) end.
      assert (Hc1 : ∃ c1, active_connections m1 !! cid = Some c1 ∧
                          ws_open (websocket c1) = false).
      { subst m1. simpl. rewrite Hc, lookup_insert_eq. eauto. }
      destruct Hc1 as (c1 & Hc1 & Ho1). clearbody m1.
      destruct (redis_up (redis m1)) eqn:Hup.
      - rewrite (bind_returned _ _ _ _ _ (redis_command_up _ m1 Hup)).
        exists (set_redis (redis_srem ch cid) m1), TransportError.
        split; [|simpl; by rewrite Hc1].
        unfold send_message, conn_send_message, send_text. simpl.
        by rewrite Hc1, Ho1.
      - exists m1, RedisError. split; [|by rewrite Hc1].
        unfold bind, redis_command. by rewrite Hup. }
    destruct Hun as (m1 & e & Hrun & Hreg).
    rewrite (bind_raised _ _ _ _ _ (bind_raised _ _ _ _ _ Hrun)).
    split; [by exists e|done]. }
  split_and!; [apply Hd|apply Hd|].
  intros uid mid. unfold websocket_endpoint_turn, websocket_endpoint_iteration.
  unfold receive_message. rewrite bind_raise.
  destruct Hd as [[e He] Hreg].
  destruct (disconnect now cid m) as [m1 o] eqn:Hrun. simpl in *. subst o.
  by rewrite (bind_raised _ _ _ _ _ Hrun).
Qed.

End Subscriptions.

Lemma room_state_inv : registry_inv room_state.
Proof. apply (reachable_inv (RT := sample_runtime) default_config), room_state_reachable. Qed.

Lemma subscribe_channel_takes_effect_witness :
  "x1" ∈ get_set
    (channel_subscriptions
       (fst (subscribe_channel (RT := sample_runtime) 9 "x1"
               {| sub_channel := "lobby"; sub_event := None; sub_config := None |}
               room_state))) "lobby".
Proof.
  destruct (active_connections room_state !! "x1") as [c|] eqn:Hc;
    [|vm_compute in Hc; discriminate].
  apply (subscribe_channel_takes_effect (RT := sample_runtime) 9 "x1"
           {| sub_channel := "lobby"; sub_event := None; sub_config := None |}
           room_state c Hc).
Defined.

Lemma unsubscribe_channel_not_subscribed_witness :
  registry (fst (unsubscribe_channel (RT := sample_runtime) 9 "x1" "lobby" room_state))
  = registry room_state.
Proof.
  destruct (active_connections room_state !! "x1") as [c|] eqn:Hc;
    [|vm_compute in Hc; discriminate].
  apply (proj1 (unsubscribe_channel_not_subscribed (RT := sample_runtime) 9 "x1" "lobby"
                  room_state c room_state_inv Hc
                  ltac:(vm_compute in Hc; injection Hc as <-;
                        apply (bool_decide_unpack _); vm_compute; exact I))).
Defined.

Lemma subscribe_unsubscribe_round_trip_witness :
  registry (fst (unsubscribe_channel (RT := sample_runtime) 10 "x1" "lobby"
                   (fst (subscribe_channel (RT := sample_runtime) 9 "x1"
                           (plain_subscription "lobby") room_state))))
  = registry room_state.
Proof.
  destruct (active_connections room_state !! "x1") as [c|] eqn:Hc;
    [|vm_compute in Hc; discriminate].
  apply (subscribe_unsubscribe_round_trip (RT := sample_runtime) 9 10 "x1"
           (plain_subscription "lobby") room_state c room_state_inv Hc).
  vm_compute in Hc. injection Hc as <-.
  apply (bool_decide_unpack _). vm_compute. exact I.
Defined.

Lemma disconnect_closed_subscribed_witness :
  is_Some (active_connections
             (fst (disconnect (RT := sample_runtime) 9 "x1" dead_peer_state)) !! "x1").
Proof.
  destruct (active_connections dead_peer_state !! "x1") as [c|] eqn:Hc;
    [|vm_compute in Hc; discriminate].
  exact (proj1 (proj2
    (disconnect_closed_subscribed (RT := sample_runtime) default_config 9 "x1"
       dead_peer_state c Hc
       ltac:(vm_compute in Hc; injection Hc as <-; reflexivity)
       ltac:(vm_compute in Hc; injection Hc as <-;
             apply (bool_decide_unpack _); vm_compute; exact I)))).
Defined.

Section AdmissionProofs.
Context {RT : PyRuntime} (cfg : Config).

Lemma redis_up_expire_connection cid ttl r :
  redis_up (redis_expire_connection cid ttl r) = redis_up r.
Proof.
  unfold redis_expire_connection.
  destruct (redis_connection r !! cid); [|done]. by destruct (0 <? ttl).
Qed.

Lemma connect_registers now ws uid cid m host :
  (∀ u, truthy_user uid = Some u →
        Z.of_nat (size (get_set (user_connections m) u)) < MAX_CONNECTIONS_PER_USER cfg) →
  ws_client_host ws = Some host →
  ws_open ws = true →
  connect cfg now ws uid cid m =
    (_store_connection_info cfg (admitted now cid ws uid host) ;;;
     send_message now cid (connection_ack cid now) ;;; ret cid)
      (registered now cid ws uid host m).
Proof.
  intros Hcap Hhost Ho. unfold connect, registered, new_connection.
  rewrite bind_get, Hhost, Ho. fold (admitted now cid ws uid host).
  destruct (truthy_user uid) as [u|].
  - specialize (Hcap u eq_refl).
    destruct (Z.leb_spec (MAX_CONNECTIONS_PER_USER cfg)
                (Z.of_nat (size (get_set (user_connections m) u)))); [lia|].
    by rewrite bind_ret, bind_ret, !bind_modify.
  - by rewrite bind_ret, bind_ret, bind_modify, bind_ret.
Qed.

(** X7. An admission below the cap, on a transport that accepts and names
    its client, with the store reachable, returns the id drawn for it: the
    connection is registered under it with the user id given, without
    subscriptions and last seen now; it has been sent the connection
    acknowledgment; the id is in its user's set when it carries a user id;
    no other connection and no channel has changed; and its record is in
    the store with the connection timeout as time to live when the timeout
    is positive, while under a timeout that is not positive the store
    holds no record of it. *)
Theorem connect_admits now ws uid cid m host :
  (∀ u, truthy_user uid = Some u →
        Z.of_nat (size (get_set (user_connections m) u)) < MAX_CONNECTIONS_PER_USER cfg) →
  ws_client_host ws = Some host →
  ws_open ws = true →
  redis_up (redis m) = true →
  ∃ m' c',
    connect cfg now ws uid cid m = (m', Returned cid) ∧
    active_connections m' !! cid = Some c' ∧
    user_id c' = uid ∧ subscribed_channels c' = ∅ ∧ last_seen c' = now ∧
    ws_sent (websocket c') = (ws_sent ws ++ [json_dumps (connection_ack cid now)])%list ∧
    (∀ other, other ≠ cid →
       active_connections m' !! other = active_connections m !! other) ∧
    user_connections m' =
      match truthy_user uid with
      | Some u => add_to u cid (user_connections m)
      | None => user_connections m
      end ∧
    channel_subscriptions m' = channel_subscriptions m ∧
    (0 < CONNECTION_TIMEOUT cfg →
     redis_connection (redis m') !! cid =
       Some [("connection_id", cid); ("user_id", default EmptyString uid);
             ("connected_at", isoformat now); ("last_seen", isoformat now);
             ("user_agent", default EmptyString (ws_user_agent ws));
             ("ip_address", host)] ∧
     redis_connection_ttl (redis m') !! cid = Some (CONNECTION_TIMEOUT cfg)) ∧
    (CONNECTION_TIMEOUT cfg ≤ 0 →
     redis_connection (redis m') !! cid = None ∧
     redis_connection_ttl (redis m') !! cid = None).
Proof.
  intros Hcap Hhost Ho Hup.
  rewrite (connect_registers now ws uid cid m host Hcap Hhost Ho).
  set (m1 := registered now cid ws uid host m).
  set (c0 := admitted now cid ws uid host).
  assert (Hup1 : redis_up (redis m1) = true).
  { subst m1. unfold registered. by destruct (truthy_user uid). }
  assert (Ha1 : active_connections m1 = <[cid := c0]> (active_connections m)).
  { subst m1. unfold registered. by destruct (truthy_user uid). }
  unfold _store_connection_info.
  erewrite bind_returned; [|erewrite bind_returned; [|by apply redis_command_up];
                            by apply redis_command_up].
  erewrite bind_returned;
    [|apply (send_message_open now cid _ _ c0);
      [simpl; rewrite Ha1; apply lookup_insert_eq|done]].
  eexists _, _. split; [done|]. simpl. rewrite lookup_insert_eq.
  split_and!; try done.
  - intros other Hne. rewrite lookup_insert_ne by done.
    rewrite Ha1. by rewrite lookup_insert_ne.
  - subst m1. unfold registered. by destruct (truthy_user uid).
  - subst m1. unfold registered. by destruct (truthy_user uid).
  - intros Hpos. unfold redis_expire_connection. simpl. rewrite lookup_insert_eq.
    destruct (Z.ltb_spec 0 (CONNECTION_TIMEOUT cfg)); [|lia]. simpl.
    by rewrite !lookup_insert_eq.
  - intros Hle. unfold redis_expire_connection. simpl. rewrite lookup_insert_eq.
    destruct (Z.ltb_spec 0 (CONNECTION_TIMEOUT cfg)); [lia|]. simpl.
    by rewrite !lookup_delete_eq.
Qed.

(** X8. When the store is unreachable, an admission that passed the cap
    test and the accept raises after it has registered the connection: the
    caller gets the store's exception and no id, yet the connection is in
    the registry, and in its user's set when it carries a user id; no
    acknowledgment has been sent. *)
Theorem connect_store_unreachable now ws uid cid m host :
  (∀ u, truthy_user uid = Some u →
        Z.of_nat (size (get_set (user_connections m) u)) < MAX_CONNECTIONS_PER_USER cfg) →
  ws_client_host ws = Some host →
  ws_open ws = true →
  redis_up (redis m) = false →
  connect cfg now ws uid cid m = (registered now cid ws uid host m, Raised RedisError) ∧
  active_connections (registered now cid ws uid host m) !! cid
    = Some (admitted now cid ws uid host) ∧
  (∀ u, truthy_user uid = Some u →
        cid ∈ get_set (user_connections (registered now cid ws uid host m)) u) ∧
  outbox (registered now cid ws uid host m) cid = ws_sent ws.
Proof.
  intros Hcap Hhost Ho Hup.
  rewrite (connect_registers now ws uid cid m host Hcap Hhost Ho).
  assert (Ha : active_connections (registered now cid ws uid host m)
               = <[cid := admitted now cid ws uid host]> (active_connections m)).
  { unfold registered. by destruct (truthy_user uid). }
  split_and!.
  - unfold _store_connection_info, bind, redis_command.
    assert (Hup1 : redis_up (redis (registered now cid ws uid host m)) = false).
    { unfold registered. by destruct (truthy_user uid). }
    by rewrite Hup1.
  - rewrite Ha. apply lookup_insert_eq.
  - intros u Hu. unfold registered. rewrite Hu. simpl.
    rewrite get_set_add_to, decide_True by done. set_solver.
  - unfold outbox. rewrite Ha, lookup_insert_eq. done.
Qed.

(** X9. Admission followed by disconnect restores the registry: in a state
    that satisfies the registry invariants, a connection admitted under a
    fresh id and disconnected before it subscribes leaves the registered
    connections, the user index and the channel index as they were, and no
    record of it in the store. *)
Theorem connect_disconnect_round_trip now now' ws uid cid m host :
  registry_inv m →
  active_connections m !! cid = None →
  (∀ u, truthy_user uid = Some u →
        Z.of_nat (size (get_set (user_connections m) u)) < MAX_CONNECTIONS_PER_USER cfg) →
  ws_client_host ws = Some host →
  ws_open ws = true →
  redis_up (redis m) = true →
  let m1 := fst (connect cfg now ws uid cid m) in
  snd (disconnect now' cid m1) = Returned tt ∧
  registry (fst (disconnect now' cid m1)) = registry m ∧
  redis_connection (redis (fst (disconnect now' cid m1))) !! cid = None.
Proof.
  intros Hm Hfresh Hcap Hhost Ho Hup m1.
  assert (Hm1 : m1 = fst ((_store_connection_info cfg (admitted now cid ws uid host) ;;;
                    send_message now cid (connection_ack cid now) ;;; ret cid)
                   (registered now cid ws uid host m)))
    by (subst m1; by rewrite (connect_registers now ws uid cid m host Hcap Hhost Ho)).
  set (m0 := registered now cid ws uid host m) in *.
  set (c0 := admitted now cid ws uid host).
  assert (Hup0 : redis_up (redis m0) = true).
  { subst m0. unfold registered. by destruct (truthy_user uid). }
  assert (Ha0 : active_connections m0 = <[cid := c0]> (active_connections m)).
  { subst m0. unfold registered. by destruct (truthy_user uid). }
  unfold _store_connection_info in Hm1.
  erewrite bind_returned in Hm1;
    [|erewrite bind_returned; [|by apply redis_command_up]; by apply redis_command_up].
  erewrite bind_returned in Hm1;
    [|apply (send_message_open now cid _ _ c0);
      [simpl; rewrite Ha0; apply lookup_insert_eq|done]].
  simpl in Hm1. clearbody m1. subst m1.
  unfold disconnect. rewrite bind_get. simpl. rewrite lookup_insert_eq.
  change (subscribed_channels (with_frame now (connection_ack cid now) c0))
    with (∅ : gset string).
  rewrite elements_empty. simpl. rewrite bind_ret.
  change (user_id (with_frame now (connection_ack cid now) c0)) with uid.
  assert (Hnotin : ∀ u, cid ∉ get_set (user_connections m) u).
  { intros u Hin. apply (inv_user m Hm) in Hin as (c & Hc & _). congruence. }
  assert (Hview : ∀ x : gmap string WebSocketConnection,
            x = active_connections m →
            (λ c, (user_id c, subscribed_channels c)) <$>
              delete cid (<[cid := with_frame now (connection_ack cid now) c0]>
                            (<[cid := c0]> x))
            = (λ c, (user_id c, subscribed_channels c)) <$> x).
  { intros x ->. rewrite delete_insert_eq, delete_insert_eq.
    by rewrite delete_id. }
  unfold _remove_connection_info, redis_command.
  destruct (truthy_user uid) as [u|] eqn:Hu.
  - rewrite !bind_modify. simpl.
    assert (Hup2 : redis_up (redis m0) = true) by done.
    rewrite redis_up_expire_connection. simpl.
    rewrite Hup0. simpl. split_and!; [done| |by rewrite lookup_delete_eq].
    unfold registry, view. simpl. f_equal; [f_equal|].
    + rewrite Ha0. by apply Hview.
    + subst m0. unfold registered. rewrite Hu. simpl.
      apply discard_from_add_to; [by destruct Hm|apply Hnotin].
    + subst m0. unfold registered. by rewrite Hu.
  - rewrite bind_ret, bind_modify. simpl.
    rewrite redis_up_expire_connection. simpl.
    rewrite Hup0. simpl. split_and!; [done| |by rewrite lookup_delete_eq].
    unfold registry, view. simpl. f_equal; [f_equal|].
    + rewrite Ha0. by apply Hview.
    + subst m0. unfold registered. by rewrite Hu.
    + subst m0. unfold registered. by rewrite Hu.
Qed.

End AdmissionProofs.

Lemma connect_admits_witness :
  ∃ m' c',
    connect (RT := sample_runtime) default_config 9 sample_ws (Some "bob") "b1" room_state
      = (m', Returned "b1") ∧
    active_connections m' !! "b1" = Some c' ∧
    user_id c' = Some "bob" ∧
    user_connections m' = add_to "bob" "b1" (user_connections room_state).
Proof.
  destruct (connect_admits (RT := sample_runtime) default_config 9 sample_ws
              (Some "bob") "b1" room_state "10.0.0.1"
              ltac:(intros u [= <-]; vm_compute; reflexivity)
              eq_refl eq_refl eq_refl)
    as (m' & c' & Hrun & Hc & Hu & _ & _ & _ & _ & Husers & _).
  exists m', c'. split; [exact Hrun|]. split; [exact Hc|]. split; [exact Hu|exact Husers].
Defined.

Lemma connect_store_unreachable_witness :
  connect (RT := sample_runtime) default_config 9 sample_ws (Some "bob") "b1"
    store_down_state
  = (registered 9 "b1" sample_ws (Some "bob") "10.0.0.1" store_down_state,
     Raised RedisError).
Proof.
  exact (proj1 (connect_store_unreachable (RT := sample_runtime) default_config 9
                  sample_ws (Some "bob") "b1" store_down_state "10.0.0.1"
                  ltac:(intros u [= <-]; vm_compute; reflexivity)
                  eq_refl eq_refl eq_refl)).
Defined.

Lemma connect_disconnect_round_trip_witness :
  registry
    (fst (disconnect (RT := sample_runtime) 10 "b1"
            (fst (connect (RT := sample_runtime) default_config 9 sample_ws
                    (Some "bob") "b1" room_state))))
  = registry room_state.
Proof.
  exact (proj1 (proj2 (connect_disconnect_round_trip (RT := sample_runtime)
                         default_config 9 10 sample_ws (Some "bob") "b1" room_state
                         "10.0.0.1" room_state_inv
                         ltac:(vm_compute; reflexivity)
                         ltac:(intros u [= <-]; vm_compute; reflexivity)
                         eq_refl eq_refl eq_refl))).
Defined.

Section Delivery.
Context {RT : PyRuntime} (cfg : Config).

(** X10. [send_to_user] always returns: the message is sent to every
    connection of the user whose transport takes it, which counts as sent,
    a connection whose transport refuses counts as failed, and nothing
    else changes: no other connection is sent anything, and the indexes
    and the store are untouched.  A user without connections gives
    [(0, 0)]. *)
Theorem send_to_user_delivers now uid message m :
  let T := get_set (user_connections m) uid in
  ∃ m',
    send_to_user now uid message m =
      (m', Returned (count_in (receives m) T, count_in (refuses m) T)) ∧
    (∀ cid,
       outbox m' cid =
       (outbox m cid ++
        if decide (cid ∈ T)
        then if receives m cid then [json_dumps (JDict message)] else []
        else [])%list) ∧
    user_connections m' = user_connections m ∧
    channel_subscriptions m' = channel_subscriptions m ∧
    redis m' = redis m ∧
    (T = ∅ → m' = m).
Proof.
  intros T. unfold send_to_user. rewrite bind_get. fold T.
  destruct (deliver_spec now (JDict message) (elements T) (NoDup_elements T) m (0, 0))
    as (m' & Hrun & Hu & Hch & Hr & Ha).
  exists m'. rewrite Hrun. simpl. unfold count_in.
  split_and!; try done.
  - intros cid. unfold outbox, receives. rewrite Ha.
    case_decide as Hin.
    + apply elem_of_elements in Hin. rewrite decide_True by done.
      destruct (active_connections m !! cid) as [c|]; simpl; [|done].
      destruct (conn_send_message now (JDict message) c) as [c'|] eqn:Hs; simpl.
      * apply conn_send_message_fields in Hs as (_ & _ & Ho & _ & _ & ->).
        by rewrite Ho.
      * unfold conn_send_message, send_text in Hs.
        destruct (ws_open (websocket c)); [done|]. by rewrite app_nil_r.
    + rewrite decide_False by (by rewrite <- elem_of_elements).
      by rewrite app_nil_r.
  - intros HT. rewrite HT, elements_empty in Hrun. simpl in Hrun.
    unfold ret in Hrun. by injection Hrun.
Qed.

(** X11. A broadcast that does not persist never raises and never writes
    to the store; a broadcast that persists while the store is unreachable
    raises the store's exception before anything is sent, leaving the
    manager as it was. *)
Theorem broadcast_and_the_store now message mid m :
  (bm_persist message = false →
   ∃ m' r, broadcast_to_channel cfg now message mid m = (m', Returned r) ∧
           redis m' = redis m) ∧
  (bm_persist message = true → redis_up (redis m) = false →
   broadcast_to_channel cfg now message mid m = (m, Raised RedisError)).
Proof.
  split.
  - intros Hp.
    destruct (broadcast_to_channel_spec cfg now message mid m)
      as (m' & Hrun & _ & _ & Hr & _); [by rewrite Hp|].
    rewrite Hp in Hr. eauto.
  - intros Hp Hup. unfold broadcast_to_channel, _persist_message.
    rewrite Hp. unfold bind, redis_command. by rewrite Hup.
Qed.



(** X13. A ping frame on a connection whose transport is open is answered
    with a pong and nothing else: the connection's last-seen time is
    refreshed, the pong is appended to what it has been sent, the loop
    continues and the rest of the manager is as it was. *)
Theorem ping_answered now cid uid mid data d m c :
  active_connections m !! cid = Some c →
  ws_open (websocket c) = true →
  Z.of_nat (String.length data) ≤ MAX_MESSAGE_SIZE cfg →
  json_loads data = Some (JDict d) →
  dict_get d "type" = Some (JStr "ping") →
  websocket_endpoint_turn cfg now cid uid mid (RecvText data) m =
    (set_active (<[cid := with_frame now (pong now) c]>) m, Returned Continue).
Proof.
  intros Hc Ho Hsize Hload Htype.
  unfold websocket_endpoint_turn, websocket_endpoint_iteration, receive_message.
  destruct (Z.ltb_spec (MAX_MESSAGE_SIZE cfg) (Z.of_nat (String.length data)));
    [lia|].
  rewrite Hload. unfold update_connection.
  rewrite (bind_returned _ _ m (set_active (<[cid := set_last_seen now c]>) m) (JDict d)).
  - unfold handle_message, message_type.
    destruct d as [|kv d']; [done|].
    change (negb (truthy (JDict (kv :: d')))) with false. cbv iota.
    rewrite Htype. simpl.
    erewrite send_message_open; [|simpl; apply lookup_insert_eq|done].
    unfold with_frame, set_active. simpl. by rewrite insert_insert_eq.
  - rewrite bind_modify. unfold ret, set_active. simpl. by rewrite Hc.
Qed.

(** X14. A broadcast frame on a connection with a user id becomes a
    persisted broadcast without filters on the named channel, run after
    the receipt of the frame: with the store reachable and a positive
    retention the broadcast returns, the turn ends in the state it leaves
    and the loop continues.  But a frame whose payload is the empty
    dictionary is dropped without a word, as the payload is tested for
    truth. *)
Theorem authenticated_broadcast_frame now cid u mid data d m c :
  active_connections m !! cid = Some c →
  truthy_user (user_id c) = Some u →
  Z.of_nat (String.length data) ≤ MAX_MESSAGE_SIZE cfg →
  json_loads data = Some (JDict d) →
  dict_get d "type" = Some (JStr "broadcast") →
  let m1 := set_active (<[cid := set_last_seen now c]>) m in
  (∀ channel event payload,
     dict_get d "channel" = Some (JStr channel) → channel ≠ EmptyString →
     dict_get d "event" = Some (JStr event) → event ≠ EmptyString →
     dict_get d "payload" = Some (JDict payload) → payload ≠ [] →
     redis_up (redis m) = true →
     0 < MESSAGE_RETENTION_DAYS cfg →
     ∃ m2 r,
       broadcast_to_channel cfg now
         {| bm_channel := channel; bm_event := event; bm_payload := payload;
            bm_exclude_user_ids := None; bm_include_user_ids := None;
            bm_persist := true |} mid m1 = (m2, Returned r) ∧
       websocket_endpoint_turn cfg now cid (user_id c) mid (RecvText data) m =
         (m2, Returned Continue)) ∧
  (dict_get d "payload" = Some (JDict []) →
   websocket_endpoint_turn cfg now cid (user_id c) mid (RecvText data) m =
     (m1, Returned Continue)).
Proof.
  intros Hc Hu Hsize Hload Htype m1.
  assert (Hrecv : receive_message cfg now cid (RecvText data) m = (m1, Returned (JDict d))).
  { unfold receive_message.
    destruct (Z.ltb_spec (MAX_MESSAGE_SIZE cfg) (Z.of_nat (String.length data)));
      [lia|].
    rewrite Hload. unfold update_connection.
    rewrite bind_modify. unfold ret, set_active. simpl. by rewrite Hc. }
  assert (Hd : negb (truthy (JDict d)) = false).
  { destruct d; [done|done]. }
  split.
  - intros channel event payload Hch Hchne Hev Hevne Hpl Hplne Hup Hret.
    unfold websocket_endpoint_turn, websocket_endpoint_iteration.
    rewrite (bind_returned _ _ _ _ _ Hrecv).
    unfold handle_message, message_type. rewrite Hd, Htype. simpl. rewrite Hu.
    unfold dict_get_none, dict_get_default. rewrite Hch, Hev, Hpl. simpl.
    assert (Hc1 : String.eqb channel EmptyString = false) by (by apply String.eqb_neq).
    assert (He1 : String.eqb event EmptyString = false) by (by apply String.eqb_neq).
    rewrite Hc1, He1. simpl.
    destruct payload as [|kv payload']; [done|]. simpl.
    set (msg := {| bm_channel := channel; bm_event := event;
                   bm_payload := kv :: payload';
                   bm_exclude_user_ids := None; bm_include_user_ids := None;
                   bm_persist := true |}).
    destruct (broadcast_to_channel_spec cfg now msg mid m1) as (m2 & Hrun & _);
      [done|].
    eexists m2, _. split; [exact Hrun|].
    by rewrite (bind_returned _ _ _ _ _ Hrun).
  - intros Hpl.
    unfold websocket_endpoint_turn, websocket_endpoint_iteration.
    rewrite (bind_returned _ _ _ _ _ Hrecv).
    unfold handle_message, message_type. rewrite Hd, Htype. simpl. rewrite Hu.
    unfold dict_get_none, dict_get_default. rewrite Hpl. simpl.
    by rewrite !andb_false_r.
Qed.

End Delivery.

Lemma send_to_user_delivers_witness :
  ∃ m',
    send_to_user (RT := sample_runtime) 9 "alice" [("type", JStr "note")] room_state
      = (m', Returned (2, 0)) ∧
    send_to_user (RT := sample_runtime) 9 "nobody" [("type", JStr "note")] room_state
      = (room_state, Returned (0, 0)).
Proof.
  destruct (send_to_user_delivers (RT := sample_runtime) 9 "alice"
              [("type", JStr "note")] room_state) as (m' & Hrun & _).
  destruct (send_to_user_delivers (RT := sample_runtime) 9 "nobody"
              [("type", JStr "note")] room_state) as (m0 & Hrun0 & _ & _ & _ & _ & Hsame).
  exists m'. split; [exact Hrun|].
  rewrite Hrun0, (Hsame eq_refl). reflexivity.
Defined.

Lemma broadcast_and_the_store_witness :
  broadcast_to_channel (RT := sample_runtime) default_config 9
    (sample_broadcast "room" "e") "mid" store_down_state
  = (store_down_state, Raised RedisError) ∧
  ∃ m' r,
    broadcast_to_channel (RT := sample_runtime) default_config 9
      empty_include_broadcast "mid" store_down_state = (m', Returned r) ∧
    redis m' = redis store_down_state.
Proof.
  split.
  - exact (proj2 (broadcast_and_the_store (RT := sample_runtime) default_config 9
                    (sample_broadcast "room" "e") "mid" store_down_state)
             eq_refl eq_refl).
  - exact (proj1 (broadcast_and_the_store (RT := sample_runtime) default_config 9
                    empty_include_broadcast "mid" store_down_state) eq_refl).
Defined.


Lemma ping_answered_witness :
  ∃ c,
    active_connections room_state !! "x1" = Some c ∧
    websocket_endpoint_turn (RT := sample_runtime) default_config 9 "x1" None "mid"
      (RecvText "ping:") room_state
    = (set_active (<["x1" := with_frame (RT := sample_runtime) 9
                               (pong (RT := sample_runtime) 9) c]>) room_state,
       Returned Continue).
Proof.
  destruct (active_connections room_state !! "x1") as [c|] eqn:Hc;
    [|vm_compute in Hc; discriminate].
  exists c. split; [exact eq_refl|].
  assert (Ho : ws_open (websocket c) = true).
  { vm_compute in Hc. injection Hc as <-. reflexivity. }
  apply (ping_answered (RT := sample_runtime) default_config 9 "x1" None "mid" "ping:"
           [("type", JStr "ping"); ("event", JStr EmptyString)] room_state c Hc Ho).
  - vm_compute. discriminate.
  - reflexivity.
  - reflexivity.
Defined.

Section Sweeps.
Context {RT : PyRuntime} (cfg : Config).

(** The first loop of a sweep over distinct registered ids whose
    transports are all open: every one of them gets the heartbeat, and
    none is collected. *)
Lemma heartbeat_collect_all_open now cids :
  0 ≤ CONNECTION_TIMEOUT cfg →
  NoDup cids →
  ∀ m disconnected,
    (∀ cid, cid ∈ cids → ∃ c, active_connections m !! cid = Some c ∧
                              ws_open (websocket c) = true) →
    ∃ m',
      heartbeat_collect cfg now cids disconnected m = (m', Returned disconnected) ∧
      user_connections m' = user_connections m ∧
      channel_subscriptions m' = channel_subscriptions m ∧
      redis m' = redis m ∧
      ∀ cid,
        active_connections m' !! cid =
        if decide (cid ∈ cids)
        then with_frame now (heartbeat now) <$> active_connections m !! cid
        else active_connections m !! cid.
Proof.
  intros Ht. induction 1 as [|x rest Hnotin Hnd IH]; intros m d Hall; simpl.
  - exists m. split_and!; done.
  - destruct (Hall x) as (cx & Hx & Hox); [set_solver|].
    set (m1 := set_active (<[x := with_frame now (heartbeat now) cx]>) m).
    assert (Hstep :
      try_except
        (send_message now x (heartbeat now) ;;;
         let* m0 := get in
         match active_connections m0 !! x with
         | Some connection =>
             if timed_out cfg now connection then ret (d ++ [x])%list else ret d
         | None => ret d
         end)
        (λ _, ret (d ++ [x])%list) m = (m1, Returned d)).
    { unfold try_except.
      rewrite (bind_returned _ _ _ _ _ (send_message_open now x _ m cx Hx Hox)).
      rewrite bind_get. simpl. rewrite lookup_insert_eq.
      by rewrite with_frame_not_timed_out. }
    rewrite (bind_returned _ _ _ _ _ Hstep).
    destruct (IH m1 d) as (m' & Hrun & Hu & Hch & Hr & Ha).
    { intros y Hy. destruct (Hall y) as (cy & Hcy & Hoy); [set_solver|].
      exists cy. split; [|done]. subst m1. simpl.
      rewrite lookup_insert_ne; [done|]. intros ->. done. }
    exists m'. split_and!; try done.
    intros y. rewrite Ha. subst m1. simpl.
    destruct (decide (y = x)) as [->|Hne].
    + rewrite decide_False by done. rewrite decide_True by set_solver.
      by rewrite lookup_insert_eq, Hx.
    + rewrite lookup_insert_ne by done. repeat case_decide; set_solver.
Qed.

(** X15. Under a timeout that is not negative, a sweep over a manager
    whose transports are all open returns having sent every registered
    connection one heartbeat, which refreshes its last-seen time, and
    nothing else: no connection is evicted, however long ago it was last
    seen, and the indexes and the store are as they were. *)
Theorem heartbeat_sweep_all_open now m :
  0 ≤ CONNECTION_TIMEOUT cfg →
  (∀ cid c, active_connections m !! cid = Some c → ws_open (websocket c) = true) →
  ∃ m',
    _heartbeat_loop_turn cfg now m = (m', Returned tt) ∧
    active_connections m' = with_frame now (heartbeat now) <$> active_connections m ∧
    user_connections m' = user_connections m ∧
    channel_subscriptions m' = channel_subscriptions m ∧
    redis m' = redis m.
Proof.
  intros Ht Hall. unfold _heartbeat_loop_turn, try_except. rewrite bind_get.
  set (cids := map fst (map_to_list (active_connections m))).
  assert (Hin : ∀ cid, cid ∈ cids ↔ is_Some (active_connections m !! cid)).
  { intros cid. subst cids. rewrite list_elem_of_fmap. split.
    - intros ([k c] & -> & Hkc). apply elem_of_map_to_list in Hkc. eauto.
    - intros [c Hc]. exists (cid, c). split; [done|]. by apply elem_of_map_to_list. }
  destruct (heartbeat_collect_all_open now cids Ht
              (NoDup_fst_map_to_list (active_connections m)) m [])
    as (m' & Hrun & Hu & Hch & Hr & Ha).
  { intros cid Hcid. apply Hin in Hcid as [c Hc]. eauto. }
  rewrite (bind_returned _ _ _ _ _ Hrun). simpl.
  exists m'. split_and!; try done.
  apply map_eq. intros cid. rewrite Ha, lookup_fmap.
  case_decide as Hc; [done|].
  destruct (active_connections m !! cid) eqn:Hl; [|done].
  exfalso. apply Hc, Hin. eauto.
Qed.

End Sweeps.

Section Healthy.
Context {RT : PyRuntime} (cfg : Config).

Lemma unsubscribe_channel_healthy now cid channel m :
  healthy m →
  ∃ m',
    unsubscribe_channel now cid channel m = (m', Returned tt) ∧
    healthy m' ∧
    dom (active_connections m') = dom (active_connections m).
Proof.
  intros [Hup Hall]. unfold unsubscribe_channel. rewrite bind_get.
  destruct (active_connections m !! cid) as [c|] eqn:Hc; [|by exists m].
  rewrite bind_modify. unfold update_connection. rewrite bind_modify.
  match goal with |- context [bind (redis_command ?f) ?k ?m0] => set (m1 := m0) end.
  set (c1 := set_subscription (subscribed_channels c ∖ {[channel]})
               (delete channel (channel_configs c)) c).
  assert (Ha1 : active_connections m1 = <[cid := c1]> (active_connections m)).
  { subst m1. simpl. by rewrite Hc. }
  assert (Hup1 : redis_up (redis m1) = true) by done.
  clearbody m1.
  rewrite (bind_returned _ _ _ _ _ (redis_command_up _ m1 Hup1)).
  erewrite send_message_open;
    [|simpl; rewrite Ha1; apply lookup_insert_eq|by apply (Hall cid c)].
  eexists. split; [done|]. split; [split|]; simpl.
  - done.
  - intros x cx. rewrite Ha1.
    destruct (decide (x = cid)) as [->|Hne].
    + rewrite lookup_insert_eq. intros [= <-]. done.
    + rewrite !lookup_insert_ne by done. apply Hall.
  - rewrite Ha1, !dom_insert_L.
    assert (cid ∈ dom (active_connections m)) by (apply elem_of_dom; eauto).
    set_solver.
Qed.

Lemma unsubscribe_loop_healthy now cid channels :
  ∀ m, healthy m →
  ∃ m',
    for_each channels (unsubscribe_channel now cid) m = (m', Returned tt) ∧
    healthy m' ∧
    dom (active_connections m') = dom (active_connections m).
Proof.
  induction channels as [|ch rest IH]; intros m Hm; simpl.
  - by exists m.
  - destruct (unsubscribe_channel_healthy now cid ch m Hm) as (m1 & Hrun & Hm1 & Hd1).
    rewrite (bind_returned _ _ _ _ _ Hrun).
    destruct (IH m1 Hm1) as (m' & Hrest & Hm' & Hd).
    exists m'. split_and!; [done|done|congruence].
Qed.

(** On a healthy manager [disconnect] returns, leaves the manager healthy
    and removes exactly the given id from the registry. *)
Lemma disconnect_healthy now cid m :
  healthy m →
  ∃ m',
    disconnect now cid m = (m', Returned tt) ∧
    healthy m' ∧
    dom (active_connections m') = dom (active_connections m) ∖ {[cid]}.
Proof.
  intros Hm. unfold disconnect. rewrite bind_get.
  destruct (active_connections m !! cid) as [c|] eqn:Hc.
  2: { exists m. split_and!; [done|done|].
       apply not_elem_of_dom in Hc. set_solver. }
  destruct (unsubscribe_loop_healthy now cid (elements (subscribed_channels c)) m Hm)
    as (m1 & Hrun & [Hup1 Hall1] & Hd1).
  rewrite (bind_returned _ _ _ _ _ Hrun).
  assert (Htail : ∀ m2,
    redis_up (redis m2) = true →
    active_connections m2 = active_connections m1 →
    ∃ m', (modify (set_active (delete cid)) ;;; _remove_connection_info cid) m2
          = (m', Returned tt) ∧ healthy m' ∧
          dom (active_connections m') = dom (active_connections m) ∖ {[cid]}).
  { intros m2 Hup2 Ha2. rewrite bind_modify. unfold _remove_connection_info.
    rewrite redis_command_up by done.
    eexists. split; [done|]. split; [split|]; simpl.
    - done.
    - intros x cx. rewrite Ha2. intros Hx.
      apply lookup_delete_Some in Hx as [_ Hx]. by apply (Hall1 x).
    - by rewrite Ha2, dom_delete_L, Hd1. }
  destruct (truthy_user (user_id c)) as [u|].
  - rewrite bind_modify. by apply Htail.
  - rewrite bind_ret. by apply Htail.
Qed.

Lemma disconnect_all_healthy now cids :
  ∀ m, healthy m →
  ∃ m',
    for_each cids (disconnect now) m = (m', Returned tt) ∧
    healthy m' ∧
    dom (active_connections m') = dom (active_connections m) ∖ list_to_set cids ∧
    (registry_inv m → registry_inv m').
Proof.
  induction cids as [|cid rest IH]; intros m Hm; simpl.
  - exists m. split_and!; [done|done|set_solver|done].
  - destruct (disconnect_healthy now cid m Hm) as (m1 & Hrun & Hm1 & Hd1).
    rewrite (bind_returned _ _ _ _ _ Hrun).
    destruct (IH m1 Hm1) as (m' & Hrest & Hm' & Hd & Hinv).
    exists m'. split_and!; [done|done| |].
    + rewrite Hd, Hd1. set_solver.
    + intros Hi. apply Hinv.
      pose proof (disconnect_preserving now cid m Hi) as Hp. by rewrite Hrun in Hp.
Qed.

(** X16. On a healthy manager, where the store is reachable and every
    registered transport is open, [disconnect] returns: the id is
    registered no more, every other connection stays registered, and the
    manager is still healthy. *)
Theorem disconnect_returns_when_healthy now cid m :
  healthy m →
  ∃ m',
    disconnect now cid m = (m', Returned tt) ∧
    active_connections m' !! cid = None ∧
    (∀ other, other ≠ cid →
       (is_Some (active_connections m' !! other) ↔
        is_Some (active_connections m !! other))) ∧
    healthy m'.
Proof.
  intros Hm.
  destruct (disconnect_healthy now cid m Hm) as (m' & Hrun & Hm' & Hd).
  exists m'. split_and!; [done| | |done].
  - apply not_elem_of_dom. rewrite Hd. set_solver.
  - intros other Hne. rewrite <- !elem_of_dom, Hd. set_solver.
Qed.

(** X17. [cleanup] on a healthy manager that satisfies the registry
    invariants disconnects every connection: it returns with the
    registry, the user index and the channel index all empty. *)
Theorem cleanup_empties now m :
  registry_inv m →
  healthy m →
  ∃ m',
    cleanup now m = (m', Returned tt) ∧
    active_connections m' = ∅ ∧
    user_connections m' = ∅ ∧
    channel_subscriptions m' = ∅.
Proof.
  intros Hi Hm. unfold cleanup, try_except. rewrite bind_get.
  destruct (disconnect_all_healthy now
              (map fst (map_to_list (active_connections m))) m Hm)
    as (m' & Hrun & _ & Hd & Hinv).
  rewrite Hrun. exists m'. specialize (Hinv Hi).
  assert (Ha : active_connections m' = ∅).
  { apply dom_empty_iff_L. rewrite Hd. apply set_eq. intros x.
    rewrite elem_of_difference, elem_of_list_to_set, elem_of_dom, list_elem_of_fmap.
    split; [|set_solver]. intros [[c Hc] Hnot]. exfalso. apply Hnot.
    exists (x, c). split; [done|]. by apply elem_of_map_to_list. }
  assert (Hempty : ∀ d : gmap string (gset string),
            nonempty_sets d → (∀ k x, x ∉ get_set d k) → d = ∅).
  { intros d Hne Hno. apply map_empty. intros k.
    destruct (d !! k) as [s|] eqn:Hk; [|done]. exfalso.
    destruct (set_choose_L s (Hne k s Hk)) as [x Hx].
    apply (Hno k x). unfold get_set. by rewrite Hk. }
  split_and!; [done|done| |].
  - apply Hempty; [by destruct Hinv|]. intros u x Hin.
    apply (inv_user m' Hinv) in Hin as (c & Hc & _). by rewrite Ha in Hc.
  - apply Hempty; [by destruct Hinv|]. intros ch x Hin.
    apply (inv_channel m' Hinv) in Hin as (c & Hc & _). by rewrite Ha in Hc.
Qed.

End Healthy.

Lemma room_state_healthy : healthy room_state.
Proof.
  split; [reflexivity|]. intros cid c Hc.
  assert (Hall : map_Forall (λ _ c, ws_open (websocket c) = true)
                   (active_connections room_state)).
  { apply (bool_decide_unpack _). vm_compute. exact I. }
  by apply (Hall cid c).
Qed.

Lemma heartbeat_sweep_all_open_witness :
  ∃ m',
    _heartbeat_loop_turn (RT := sample_runtime) default_config 400000000 room_state
      = (m', Returned tt) ∧
    active_connections m' =
      with_frame (RT := sample_runtime) 400000000
        (heartbeat (RT := sample_runtime) 400000000) <$> active_connections room_state.
Proof.
  destruct (heartbeat_sweep_all_open (RT := sample_runtime) default_config 400000000
              room_state ltac:(vm_compute; discriminate) (proj2 room_state_healthy))
    as (m' & Hrun & Ha & _).
  exists m'. split; [exact Hrun|exact Ha].
Defined.

Lemma heartbeat_sweep_keeps_open_witness :
  is_Some (active_connections
             (fst (_heartbeat_loop_turn (RT := sample_runtime) default_config
                     400000000 room_state)) !! "x1").
Proof.
  refine (proj1 (heartbeat_sweep_keeps_open (RT := sample_runtime) default_config
                   400000000 room_state "x1" ltac:(vm_compute; discriminate) _)).
  destruct (active_connections room_state !! "x1") as [c|] eqn:Hc;
    [|vm_compute in Hc; discriminate].
  exists c. split; [exact Hc|]. exact (proj2 room_state_healthy "x1" c Hc).
Defined.

Lemma disconnect_returns_when_healthy_witness :
  ∃ m',
    disconnect (RT := sample_runtime) 9 "a1" room_state = (m', Returned tt) ∧
    active_connections m' !! "a1" = None.
Proof.
  destruct (disconnect_returns_when_healthy (RT := sample_runtime) 9 "a1" room_state
              room_state_healthy) as (m' & Hrun & Hgone & _).
  exists m'. split; [exact Hrun|exact Hgone].
Defined.

Lemma cleanup_empties_witness :
  ∃ m',
    cleanup (RT := sample_runtime) 9 room_state = (m', Returned tt) ∧
    active_connections m' = ∅ ∧ user_connections m' = ∅ ∧ channel_subscriptions m' = ∅.
Proof.
  exact (cleanup_empties (RT := sample_runtime) 9 room_state
           room_state_inv room_state_healthy).
Defined.

Lemma authenticated_broadcast_frame_witness :
  ∃ c,
    active_connections room_state !! "a1" = Some c ∧
    (∃ m2 r,
       broadcast_to_channel (RT := frames_runtime) default_config 9
         {| bm_channel := "room"; bm_event := "e"; bm_payload := [("k", JInt 1)];
            bm_exclude_user_ids := None; bm_include_user_ids := None;
            bm_persist := true |} "mid"
         (set_active (<["a1" := set_last_seen 9 c]>) room_state) = (m2, Returned r) ∧
       websocket_endpoint_turn (RT := frames_runtime) default_config 9 "a1" (user_id c)
         "mid" (RecvText "B") room_state = (m2, Returned Continue)) ∧
    websocket_endpoint_turn (RT := frames_runtime) default_config 9 "a1" (user_id c)
      "mid" (RecvText "E") room_state
    = (set_active (<["a1" := set_last_seen 9 c]>) room_state, Returned Continue).
Proof.
  destruct (active_connections room_state !! "a1") as [c|] eqn:Hc;
    [|vm_compute in Hc; discriminate].
  exists c. split; [exact eq_refl|].
  assert (Hu : truthy_user (user_id c) = Some "alice").
  { vm_compute in Hc. injection Hc as <-. reflexivity. }
  split.
  - refine (proj1 (authenticated_broadcast_frame (RT := frames_runtime) default_config
                     9 "a1" "alice" "mid" "B" _ room_state c Hc Hu
                     ltac:(vm_compute; discriminate) eq_refl eq_refl)
              "room" "e" [("k", JInt 1)] eq_refl _ eq_refl _ eq_refl _ eq_refl eq_refl);
      discriminate.
  - exact (proj2 (authenticated_broadcast_frame (RT := frames_runtime) default_config
                    9 "a1" "alice" "mid" "E" _ room_state c Hc Hu
                    ltac:(vm_compute; discriminate) eq_refl eq_refl) eq_refl).
Defined.

Section ReadProofs.
Context {RT : PyRuntime} (cfg : Config).
Variable fromisoformat : string → option Z.

Lemma collect_infos_spec m cids :
  (∀ cid, cid ∈ cids → is_Some (active_connections m !! cid)) →
  ∀ acc, ∃ infos,
    collect_infos cids acc m = (m, Returned (acc ++ infos)%list) ∧
    ci_connection_id <$> infos = cids ∧
    ∀ i, i ∈ infos →
      ∃ c, active_connections m !! ci_connection_id i = Some c ∧
           ci_user_id i = user_id c ∧
           ci_connected_at i = connected_at c ∧
           ci_last_seen i = last_seen c ∧
           (∀ ch, ch ∈ ci_channels i ↔ ch ∈ subscribed_channels c).
Proof.
  induction cids as [|cid rest IH]; intros Hreg acc.
  - exists []. simpl. rewrite app_nil_r. split_and!; [done|done|].
    intros i Hi. by apply elem_of_nil in Hi.
  - destruct (Hreg cid) as [c Hc]; [by left|].
    set (i := {| ci_connection_id := cid;
                 ci_user_id := user_id c;
                 ci_connected_at := connected_at c;
                 ci_last_seen := last_seen c;
                 ci_channels := elements (subscribed_channels c);
                 ci_user_agent := user_agent c;
                 ci_ip_address := ip_address c |}).
    assert (Hinfo : get_connection_info cid m = (m, Returned (Some i))).
    { unfold get_connection_info. by rewrite bind_get, Hc. }
    cbn [collect_infos]. rewrite (bind_returned _ _ _ _ _ Hinfo).
    destruct (IH (λ x Hx, Hreg x (list_elem_of_further _ _ _ Hx)) (acc ++ [i])%list)
      as (infos & Hrun & Hids & Hall).
    exists (i :: infos). rewrite Hrun, <- app_assoc. simpl.
    split_and!; [done|f_equal; exact Hids|].
    intros j Hj. apply elem_of_cons in Hj as [->|Hj]; [|by apply Hall].
    exists c. simpl. split_and!; try done.
    intros ch. by rewrite elem_of_elements.
Qed.

(** X18. [list_active_connections] returns one entry per registered
    connection, no id twice, and leaves the manager as it is.  When the
    registry invariants hold, the channels an entry lists are the channels
    whose subscriber set holds the connection, and an entry that carries a
    user id is listed under that user in the user index. *)
Theorem list_active_connections_spec m :
  registry_inv m →
  ∃ infos,
    list_active_connections m = (m, Returned infos) ∧
    NoDup (ci_connection_id <$> infos) ∧
    (∀ cid, cid ∈ (ci_connection_id <$> infos) ↔
            is_Some (active_connections m !! cid)) ∧
    ∀ i, i ∈ infos →
      (∀ ch, ch ∈ ci_channels i ↔
             ci_connection_id i ∈ get_set (channel_subscriptions m) ch) ∧
      (∀ u, truthy_user (ci_user_id i) = Some u →
            ci_connection_id i ∈ get_set (user_connections m) u).
Proof.
  intros Hinv. unfold list_active_connections. rewrite bind_get.
  set (cids := map fst (map_to_list (active_connections m))).
  assert (Hcids : ∀ cid, cid ∈ cids ↔ is_Some (active_connections m !! cid)).
  { intros cid. subst cids. rewrite list_elem_of_fmap. split.
    - intros ([k c] & -> & Hin). apply elem_of_map_to_list in Hin. eauto.
    - intros [c Hc]. exists (cid, c). split; [done|]. by apply elem_of_map_to_list. }
  destruct (collect_infos_spec m cids (λ cid H, proj1 (Hcids cid) H) [])
    as (infos & Hrun & Hids & Hall).
  exists infos. split_and!.
  - done.
  - rewrite Hids. apply NoDup_fst_map_to_list.
  - intros cid. by rewrite Hids.
  - intros i Hi. destruct (Hall i Hi) as (c & Hc & Hu & _ & _ & Hch). split.
    + intros ch. rewrite Hch, (inv_channel m Hinv). split.
      * intros Hin. eauto.
      * intros (c' & Hc' & Hin). congruence.
    + intros u Hiu. apply (inv_user m Hinv). exists c. split; [done|congruence].
Qed.

Lemma count_in_partition (P Q : string → bool) (T : gset string) :
  (∀ x, x ∈ T → Q x = negb (P x)) →
  count_in P T + count_in Q T = Z.of_nat (size T).
Proof.
  intros HPQ. unfold count_in, size, set_size. simpl.
  assert (Hl : ∀ l : list string, (∀ x, x ∈ l → Q x = negb (P x)) →
            (length (List.filter P l) + length (List.filter Q l))%nat = length l).
  { induction l as [|x l IH]; intros Hx; [done|]. simpl.
    rewrite (Hx x) by by left.
    specialize (IH (λ y Hy, Hx y (list_elem_of_further _ _ _ Hy))).
    destruct (P x); simpl; lia. }
  rewrite <- Nat2Z.inj_add. f_equal. apply Hl.
  intros x Hx. apply HPQ. by apply elem_of_elements.
Qed.

Lemma get_channel_stats_up channel m :
  redis_up (redis m) = true →
  get_channel_stats fromisoformat channel m =
    (let* last_activity :=
       match fst <$> redis_last_activity (redis m) !! channel with
       | Some s =>
           if String.eqb s EmptyString then ret None
           else match fromisoformat s with
                | Some t => ret (Some t)
                | None => raise (ValueError "Invalid isoformat string")
                end
       | None => ret None
       end in
     ret {| cs_channel := channel;
            cs_subscriber_count :=
              Z.of_nat (size (get_set (channel_subscriptions m) channel));
            cs_message_count := Z.of_nat (length (stored m channel));
            cs_last_activity := last_activity |}) m.
Proof.
  intros Hup. unfold get_channel_stats. rewrite bind_get.
  rewrite (bind_returned _ _ _ _ _ (redis_query_up _ m Hup)).
  by rewrite (bind_returned _ _ _ _ _ (redis_query_up _ m Hup)).
Qed.

(** X19. The statistics of a channel right after an unfiltered, persisted
    broadcast on it, with the store reachable, a positive retention and a
    positive cap on stored messages: the subscriber count is the number of sends the broadcast
    attempted ([sent_count + failed_count]), the message count is the
    former count plus one, capped, and the last activity is the instant of
    the broadcast, provided [fromisoformat] reads back what [isoformat]
    wrote. *)
Theorem channel_stats_after_broadcast now message mid m :
  registry_inv m →
  redis_up (redis m) = true →
  0 < MESSAGE_RETENTION_DAYS cfg →
  0 < MAX_MESSAGES_PER_CHANNEL cfg →
  bm_persist message = true →
  bm_include_user_ids message = None →
  bm_exclude_user_ids message = None →
  isoformat now ≠ EmptyString →
  fromisoformat (isoformat now) = Some now →
  ∃ m' r,
    broadcast_to_channel cfg now message mid m = (m', Returned r) ∧
    get_channel_stats fromisoformat (bm_channel message) m' =
      (m', Returned
             {| cs_channel := bm_channel message;
                cs_subscriber_count := sent_count r + failed_count r;
                cs_message_count :=
                  Z.min (MAX_MESSAGES_PER_CHANNEL cfg)
                        (Z.of_nat (length (stored m (bm_channel message))) + 1);
                cs_last_activity := Some now |}).
Proof.
  intros Hinv Hup Hret Hcap Hp Hinc Hexc Hiso Hfrom.
  destruct (broadcast_to_channel_spec cfg now message mid m (λ _, conj Hup Hret))
    as (m' & Hrun & _ & Hch & Hr & _).
  rewrite Hp in Hr.
  eexists m', _. split; [exact Hrun|].
  assert (Hup' : redis_up (redis m') = true).
  { rewrite Hr. simpl. by rewrite redis_up_expire_messages. }
  rewrite (get_channel_stats_up _ _ Hup').
  assert (Hla : fst <$> redis_last_activity (redis m') !! bm_channel message
                = Some (isoformat now)).
  { rewrite Hr. simpl. by rewrite lookup_insert_eq. }
  rewrite Hla.
  destruct (String.eqb_spec (isoformat now) EmptyString) as [?|_]; [done|].
  rewrite Hfrom, bind_ret. unfold ret. do 3 f_equal.
  - rewrite Hch. simpl.
    assert (HT : filter_subscribers message m =
                 get_set (channel_subscriptions m) (bm_channel message)).
    { unfold filter_subscribers. by rewrite Hinc, Hexc. }
    rewrite HT. symmetry. apply count_in_partition.
    intros x Hx. apply (inv_channel m Hinv) in Hx as (c & Hc & _).
    unfold receives, refuses. by rewrite Hc.
  - assert (Hst : stored m' (bm_channel message) =
                  stored (set_redis (persist_store cfg now (bm_channel message)
                                       (ws_message message mid now)) m)
                         (bm_channel message)).
    { unfold stored. simpl. by rewrite Hr. }
    rewrite Hst, stored_persist_store, redis_slice_prefix by done.
    rewrite length_take. simpl length. lia.
Qed.


End ReadProofs.

Lemma list_active_connections_spec_witness :
  ∃ infos,
    list_active_connections room_state = (room_state, Returned infos) ∧
    NoDup (ci_connection_id <$> infos).
Proof.
  destruct (list_active_connections_spec room_state room_state_inv)
    as (infos & Hrun & Hnd & _).
  exists infos. split; [exact Hrun|exact Hnd].
Defined.

Lemma channel_stats_after_broadcast_witness :
  ∃ m' r,
    broadcast_to_channel (RT := sample_runtime) default_config 9
      (sample_broadcast "room" "e") "mid" room_state = (m', Returned r) ∧
    get_channel_stats (λ _, Some 9) "room" m' =
      (m', Returned
             {| cs_channel := "room";
                cs_subscriber_count := sent_count r + failed_count r;
                cs_message_count :=
                  Z.min 1000 (Z.of_nat (length (stored room_state "room")) + 1);
                cs_last_activity := Some 9 |}).
Proof.
  exact (channel_stats_after_broadcast (RT := sample_runtime) default_config
           (λ _, Some 9) 9 (sample_broadcast "room" "e") "mid" room_state
           room_state_inv eq_refl eq_refl eq_refl eq_refl eq_refl eq_refl
           ltac:(discriminate) eq_refl).
Defined.
